(** * CodeKeeper: path safety validator and directory replication engine

    A shallow embedding of the two core classes of [src/main.py],
    [PathValidator] and [BackupEngine], together with the parts of the
    Python standard library they call ([str], [pathlib], [os.path], [os],
    [shutil]), and the properties of the specification proved about them.

    Conventions of the embedding.
    - A Python [str] is a Rocq [string]; each character stands for one code
      point below 256.
    - [pathlib] and [os.path] are modelled in their POSIX flavour.
    - The file system is a finite map from absolute locations (lists of
      names below the root) to nodes, with a current working directory.
      It has no symbolic links, so [Path.resolve] is lexical and total.
    - Functions that change the file system take it as an argument and
      return the new one; what Python raises is returned as a value. *)

From stdpp Require Import gmap strings list fin_maps.
From Stdlib Require Import Ascii Arith NArith Lia Sorted.

(* ================================================================== *)
(** * Part I: definitions                                              *)
(* ================================================================== *)

(** ** Python [str] methods used by the program *)
Module PyStr.

(** [c.isspace()] for a code point below 256. *)
Definition isspace (c : ascii) : bool :=
  let n := nat_of_ascii c in
  (((9 <=? n) && (n <=? 13)) || ((28 <=? n) && (n <=? 32))
   || (n =? 133) || (n =? 160))%nat.

(** [c.lower()] for a code point below 256: the ASCII capitals and the
    Latin-1 capitals (all of 192..222 but the multiplication sign). *)
Definition lower_char (c : ascii) : ascii :=
  let n := nat_of_ascii c in
  if (((65 <=? n) && (n <=? 90))
      || ((192 <=? n) && (n <=? 222) && negb (n =? 215)))%nat
  then ascii_of_nat (n + 32)%nat else c.

Fixpoint lower (s : string) : string :=
  match s with
  | EmptyString => EmptyString
  | String c s' => String (lower_char c) (lower s')
  end.

(** [s.replace(a, b)] for one-character [a] and [b]. *)
Fixpoint replace_char (a b : ascii) (s : string) : string :=
  match s with
  | EmptyString => EmptyString
  | String c s' =>
      String (if Ascii.eqb c a then b else c) (replace_char a b s')
  end.

Fixpoint lstrip (s : string) : string :=
  match s with
  | EmptyString => EmptyString
  | String c s' => if isspace c then lstrip s' else s
  end.

Fixpoint rstrip (s : string) : string :=
  match s with
  | EmptyString => EmptyString
  | String c s' =>
      match rstrip s' with
      | EmptyString => if isspace c then EmptyString else String c EmptyString
      | r => String c r
      end
  end.

(** [s.strip()] *)
Definition strip (s : string) : string := rstrip (lstrip s).

(** [s.startswith(p)] *)
Fixpoint startswith (s p : string) : bool :=
  match p, s with
  | EmptyString, _ => true
  | String _ _, EmptyString => false
  | String b p', String a s' => Ascii.eqb a b && startswith s' p'
  end.

(** [s.endswith(p)]: [p] is [s] or a suffix of the tail of [s]. *)
Fixpoint endswith (s p : string) : bool :=
  String.eqb s p ||
  match s with
  | EmptyString => false
  | String _ s' => endswith s' p
  end.

(** [s[1:]] *)
Definition drop_first (s : string) : string :=
  match s with
  | EmptyString => EmptyString
  | String _ s' => s'
  end.

(** [s.split(sep)] for a one-character separator; never the empty list. *)
Fixpoint split (sep : ascii) (s : string) : list string :=
  match s with
  | EmptyString => [EmptyString]
  | String c s' =>
      if Ascii.eqb c sep then EmptyString :: split sep s'
      else match split sep s' with
           | [] => [String c EmptyString]
           | piece :: pieces => String c piece :: pieces
           end
  end.

(** [sep.join(l)] *)
Fixpoint join (sep : string) (l : list string) : string :=
  match l with
  | [] => EmptyString
  | [x] => x
  | x :: l' => x +:+ sep +:+ join sep l'
  end.

(** [c in s] for a character [c] *)
Fixpoint has_char (c : ascii) (s : string) : bool :=
  match s with
  | EmptyString => false
  | String x s' => Ascii.eqb x c || has_char c s'
  end.

(** Python's truth value of a string. *)
Definition truthy (s : string) : bool := negb (String.eqb s "").

End PyStr.

(** ** [pathlib.PurePosixPath] *)
Module PurePath.
Import PyStr.

(** A parsed path: the root ([""], ["/"] or ["//"]) and the components
    after it. Parsing drops empty components and ["."], keeps [".."]. *)
Record t : Type := mk { root : string; comps : list string }.

Definition splitroot (s : string) : string :=
  if startswith s "/" then
    if startswith s "//" && negb (startswith s "///") then "//" else "/"
  else "".

Definition keep_component (x : string) : bool :=
  negb (String.eqb x "") && negb (String.eqb x ".").

(** [Path(s)] *)
Definition Path (s : string) : t :=
  {| root := splitroot s;
     comps := List.filter keep_component (split "/" s) |}.

(** [p.parts] *)
Definition parts (p : t) : list string :=
  if String.eqb (root p) "" then comps p else root p :: comps p.

(** [p.name] *)
Definition name (p : t) : string := List.last (comps p) "".

(** [p.parent] *)
Definition parent (p : t) : t :=
  {| root := root p; comps := removelast (comps p) |}.

(** [str(p)], which is also [p.as_posix()] *)
Definition str (p : t) : string :=
  match root p, comps p with
  | EmptyString, [] => "."
  | r, cs => r +:+ join "/" cs
  end.

End PurePath.

(** ** What Python raises *)

(** The subclasses of [OSError] that the modelled calls raise. *)
Inductive oserror : Type :=
  | FileNotFoundError | PermissionError | NotADirectoryError
  | FileExistsError | IsADirectoryError | SameFileError.

(** An exception: a plain [Exception(msg)], or an [OSError] of some kind
    carrying the path it is about. *)
Inductive exn : Type :=
  | Exception (msg : string)
  | OSError (kind : oserror) (path : string).

(** An exception of the class [OSError]. *)
Definition is_oserror (e : exn) : Prop := ∃ kind path, e = OSError kind path.

(** The result of a call that may raise. *)
Inductive result (A : Type) : Type :=
  | Return (a : A)
  | Raise (e : exn).
Arguments Return {A} a.
Arguments Raise {A} e.

(** ** The file system *)
Module Fs.
Import PyStr.

(** A regular file (may it be read, and its bytes) or a directory (may
    entries be added to or removed from it). *)
Inductive node : Type :=
  | File (readable : bool) (content : string)
  | Dir (writable : bool).

(** Locations are lists of names from the root down; the root itself is
    the empty list and always a directory. *)
Record t : Type := mk {
  cwd : list string;
  root_writable : bool;
  nodes : gmap (list string) node
}.

Definition node_at (fs : t) (loc : list string) : option node :=
  match loc with
  | [] => Some (Dir (root_writable fs))
  | _ => nodes fs !! loc
  end.

Definition is_dir_at (fs : t) (loc : list string) : bool :=
  match node_at fs loc with Some (Dir _) => true | _ => false end.

Definition writable_at (fs : t) (loc : list string) : bool :=
  match node_at fs loc with Some (Dir w) => w | _ => false end.

Definition set_node (loc : list string) (n : node) (fs : t) : t :=
  {| cwd := cwd fs; root_writable := root_writable fs;
     nodes := <[loc := n]> (nodes fs) |}.

(** Where a path string starts: the root if it begins with a slash, the
    working directory otherwise. *)
Definition start (fs : t) (s : string) : list string :=
  if startswith s "/" then [] else cwd fs.

(** One component of a path, the way the kernel walks it: the location
    reached so far must be a directory; an empty component and ["."]
    stay, [".."] goes up, a name goes down (whether or not it exists). *)
Definition step (fs : t) (cur : option (list string)) (c : string)
    : option (list string) :=
  match cur with
  | None => None
  | Some l =>
      if is_dir_at fs l then
        if String.eqb c "" || String.eqb c "." then Some l
        else if String.eqb c ".." then Some (removelast l)
        else Some (l ++ [c])
      else None
  end.

(** The location a path string denotes, if every directory on the way
    exists. The empty string denotes nothing. *)
Definition locate (fs : t) (s : string) : option (list string) :=
  if String.eqb s "" then None
  else fold_left (step fs) (split "/" s) (Some (start fs s)).

Definition stat (fs : t) (s : string) : option node :=
  match locate fs s with
  | Some loc => node_at fs loc
  | None => None
  end.

(** [os.path.exists], [os.path.isdir], [os.path.isfile]; also
    [Path.exists] and [Path.is_file] on [str(p)]. *)
Definition exists_ (fs : t) (s : string) : bool :=
  match stat fs s with Some _ => true | None => false end.

Definition isdir (fs : t) (s : string) : bool :=
  match stat fs s with Some (Dir _) => true | _ => false end.

Definition isfile (fs : t) (s : string) : bool :=
  match stat fs s with Some (File _ _) => true | _ => false end.

(** The entries of the directory at [loc]: name and node, in the order
    of the map, which the program does not choose. *)
Definition entry_of (loc : list string) (kn : list string * node)
    : option (string * node) :=
  let name := List.last kn.1 "" in
  if bool_decide (kn.1 = loc ++ [name]) then Some (name, kn.2) else None.

Definition entries (fs : t) (loc : list string) : list (string * node) :=
  omap (entry_of loc) (map_to_list (nodes fs)).

Definition is_dir_node (n : node) : bool :=
  match n with Dir _ => true | File _ _ => false end.

(** [os.listdir] *)
Definition listdir (fs : t) (s : string) : result (list string) :=
  match locate fs s with
  | None => Raise (OSError FileNotFoundError s)
  | Some loc =>
      match node_at fs loc with
      | None => Raise (OSError FileNotFoundError s)
      | Some (File _ _) => Raise (OSError NotADirectoryError s)
      | Some (Dir _) => Return (List.map fst (entries fs loc))
      end
  end.

(** What [os.scandir] gives [os.walk]: the names of the sub-directories
    and of the other entries; [None] where [os.walk] finds nothing to
    list and silently yields nothing. *)
Definition scandir (fs : t) (s : string)
    : option (list string * list string) :=
  match locate fs s with
  | None => None
  | Some loc =>
      if is_dir_at fs loc then
        let es := entries fs loc in
        Some (List.map fst (List.filter (λ e, is_dir_node e.2) es),
              List.map fst (List.filter (λ e, negb (is_dir_node e.2)) es))
      else None
  end.

(** One component of [mkdir -p]: the location reached must be a
    directory; go through an existing directory, create a missing one
    when its parent is writable. The state is the exception raised so
    far, if any, the file system and the location reached. The kind of
    [OSError] matters to the program only for [PermissionError]; a file
    in the way is reported as [FileExistsError]. *)
Definition mkdir_step (s : string) (st : option exn * t * list string)
    (c : string) : option exn * t * list string :=
  match st with
  | (Some e, fs, l) => (Some e, fs, l)
  | (None, fs, l) =>
      if negb (is_dir_at fs l)
      then (Some (OSError NotADirectoryError s), fs, l)
      else if String.eqb c "" || String.eqb c "." then (None, fs, l)
      else if String.eqb c ".." then (None, fs, removelast l)
      else
        match node_at fs (l ++ [c]) with
        | Some (Dir _) => (None, fs, l ++ [c])
        | Some (File _ _) => (Some (OSError FileExistsError s), fs, l)
        | None =>
            if writable_at fs l
            then (None, set_node (l ++ [c]) (Dir true) fs, l ++ [c])
            else (Some (OSError PermissionError s), fs, l)
        end
  end.

(** [os.makedirs(s, exist_ok=True)], and [Path.mkdir(parents=True,
    exist_ok=True)] on [str(p)]: the exception raised, if any, and the
    file system left behind (directories made before a failure stay).
    As in [os.makedirs], the call ends well only if the path is a
    directory in the end. *)
Definition makedirs (fs : t) (s : string) : option exn * t :=
  if String.eqb s "" then (Some (OSError FileNotFoundError s), fs)
  else
    match fold_left (mkdir_step s) (split "/" s) (None, fs, start fs s) with
    | (Some e, fs', _) => (Some e, fs')
    | (None, fs', l) =>
        if is_dir_at fs' l then (None, fs')
        else (Some (OSError FileExistsError s), fs')
    end.

(** [loc] is [pre] or lies below it. *)
Definition below (pre loc : list string) : bool :=
  bool_decide (take (length pre) loc = pre).

(** [shutil.rmtree]: removes the directory and all below it. It fails
    when the path is not a directory, and with [PermissionError] when it
    is the root or when the parent or a directory of the tree is not
    writable; the partly deleted tree of a failing call is not modelled,
    the file system is then left as it was. *)
Definition rmtree (fs : t) (s : string) : result t :=
  match locate fs s with
  | None => Raise (OSError FileNotFoundError s)
  | Some loc =>
      match node_at fs loc with
      | None => Raise (OSError FileNotFoundError s)
      | Some (File _ _) => Raise (OSError NotADirectoryError s)
      | Some (Dir _) =>
          let inside := List.filter (λ kn, below loc kn.1)
                          (map_to_list (nodes fs)) in
          if bool_decide (loc ≠ [])
             && writable_at fs (removelast loc)
             && forallb (λ kn, match kn.2 with Dir w => w | _ => true end)
                  inside
          then Return {| cwd := cwd fs; root_writable := root_writable fs;
                         nodes := filter (λ kn, below loc kn.1 = false)
                                    (nodes fs) |}
          else Raise (OSError PermissionError s)
      end
  end.

(** Opening [s] for writing and storing [content]: an existing file is
    replaced, a new one needs a writable directory. *)
Definition write_file (fs : t) (s : string) (content : string) : result t :=
  match locate fs s with
  | None => Raise (OSError FileNotFoundError s)
  | Some loc =>
      match node_at fs loc with
      | Some (Dir _) => Raise (OSError IsADirectoryError s)
      | Some (File _ _) => Return (set_node loc (File true content) fs)
      | None =>
          if writable_at fs (removelast loc)
          then Return (set_node loc (File true content) fs)
          else Raise (OSError PermissionError s)
      end
  end.

(** A name that a directory entry can have. *)
Definition valid_name (c : string) : bool :=
  negb (String.eqb c "") && negb (String.eqb c ".")
  && negb (String.eqb c "..") && negb (has_char "/" c).

(** Every name in the file system is one a directory entry can have. *)
Definition names_ok (fs : t) : bool :=
  forallb valid_name (cwd fs)
  && forallb (λ kn, forallb valid_name kn.1) (map_to_list (nodes fs)).

(** [fs'] has everything [fs] has: the same working directory, and a
    node of the same kind wherever [fs] has one. Files may differ in
    content. *)
Definition extends (fs fs' : t) : Prop :=
  cwd fs' = cwd fs
  ∧ ∀ loc n, node_at fs loc = Some n →
      ∃ n', node_at fs' loc = Some n' ∧ is_dir_node n' = is_dir_node n.

End Fs.

(** ** [os.path] *)
Module OsPath.
Import PyStr.

(** [os.path.join(a, b)] *)
Definition join (a b : string) : string :=
  if startswith b "/" then b
  else if String.eqb a "" || endswith a "/" then a +:+ b
  else a +:+ "/" +:+ b.

(** [os.path.basename] *)
Definition basename (s : string) : string := List.last (split "/" s) "".

(** One component of [os.path.normpath] on an absolute path. *)
Definition norm_step (acc : list string) (c : string) : list string :=
  if String.eqb c "" || String.eqb c "." then acc
  else if String.eqb c ".." then removelast acc
  else acc ++ [c].

(** The names of [os.path.abspath(s)] below the root. *)
Definition abs_comps (fs : Fs.t) (s : string) : list string :=
  fold_left norm_step (split "/" s) (Fs.start fs s).

Fixpoint common_prefix_len (a b : list string) : nat :=
  match a, b with
  | x :: a', y :: b' =>
      if String.eqb x y then S (common_prefix_len a' b') else 0%nat
  | _, _ => 0%nat
  end.

(** [os.path.relpath(path, start)] for a non-empty [path] *)
Definition relpath (fs : Fs.t) (path start : string) : string :=
  let start_list := abs_comps fs start in
  let path_list := abs_comps fs path in
  let i := common_prefix_len start_list path_list in
  let rel_list :=
    replicate (length start_list - i) ".." ++ drop i path_list in
  match rel_list with
  | [] => "."
  | _ => PyStr.join "/" rel_list
  end.

(** [os.path.samefile] as [shutil] uses it: false when either is missing. *)
Definition samefile (fs : Fs.t) (a b : string) : bool :=
  match Fs.locate fs a, Fs.locate fs b with
  | Some la, Some lb =>
      match Fs.node_at fs la, Fs.node_at fs lb with
      | Some _, Some _ => bool_decide (la = lb)
      | _, _ => false
      end
  | _, _ => false
  end.

End OsPath.

(** ** [shutil.copy2] *)
Module Shutil.

(** [shutil.copy2(src, dst)]: a directory [dst] means the file of the
    same name inside it; source and target must differ; the source must
    be a readable regular file; the bytes are written to the target. *)
Definition copy2 (fs : Fs.t) (src dst : string) : result Fs.t :=
  let dst' :=
    if Fs.isdir fs dst then OsPath.join dst (OsPath.basename src) else dst in
  if OsPath.samefile fs src dst' then Raise (OSError SameFileError src)
  else
    match Fs.stat fs src with
    | None => Raise (OSError FileNotFoundError src)
    | Some (Fs.Dir _) => Raise (OSError IsADirectoryError src)
    | Some (Fs.File false _) => Raise (OSError PermissionError src)
    | Some (Fs.File true content) => Fs.write_file fs dst' content
    end.

End Shutil.

(** ** [pathlib.Path]: the methods that look at the file system *)
Module Pathlib.
Import PurePath.

(** [p.resolve()]: absolute, without [".."]; lexical, as there are no
    symbolic links. *)
Definition resolve (fs : Fs.t) (p : PurePath.t) : PurePath.t :=
  {| root := "/";
     comps := fold_left OsPath.norm_step (comps p)
                (if String.eqb (root p) "" then Fs.cwd fs else []) |}.

Definition exists_ (fs : Fs.t) (p : PurePath.t) : bool :=
  Fs.exists_ fs (str p).

Definition is_file (fs : Fs.t) (p : PurePath.t) : bool :=
  Fs.isfile fs (str p).

(** [p.mkdir(parents=True, exist_ok=True)] *)
Definition mkdir (fs : Fs.t) (p : PurePath.t) : option exn * Fs.t :=
  Fs.makedirs fs (str p).

(** [p.resolve()] where the call may fail: it raises [ValueError]
    ("embedded null byte", from [os.lstat]) for a path with a NUL
    character in one of its components, and returns for every other
    path. [None] stands for the exception. *)
Definition resolve_opt (fs : Fs.t) (p : PurePath.t) : option PurePath.t :=
  if existsb (PyStr.has_char Ascii.zero) (comps p) then None
  else Some (resolve fs p).

End Pathlib.

(** ** [PathValidator] (lines 13-113)

    The program is modelled on a POSIX host: [pathlib] gives POSIX
    paths, the file system is one tree below [/]. On such a host
    [platform.system()] is never ["Windows"], so the branches of the
    program for that value (lines 23-29 and 64) are not part of the
    model. *)
Module PathValidator.
Import PyStr PurePath.

(** The host: what [self.system] (line 17) holds is ["linux"],
    ["darwin"], or a name that is no key of the table below. *)
Inductive host : Type := Linux | Darwin | OtherPosix.

(** [self.dangerous_paths.get(self.system, [])] (lines 30-41, 50); the
    host is read once (line 17). *)
Definition dangerous_paths (system : host) : list string :=
  match system with
  | Linux =>
      ["/bin"; "/sbin"; "/usr/bin"; "/usr/sbin"; "/lib"; "/lib64";
       "/etc"; "/boot"; "/sys"; "/proc"; "/dev"; "/run"; "/tmp";
       "/var/log"; "/var/run"; "/var/lib/dpkg"; "/var/cache";
       "/usr/lib"; "/usr/share"; "/root"]
  | Darwin =>
      ["/system"; "/library"; "/applications"; "/usr/bin"; "/usr/sbin";
       "/bin"; "/sbin"; "/etc"; "/tmp"; "/var"; "/dev"; "/private";
       "/volumes/macintosh hd/system"]
  | OtherPosix => []
  end.

(** The loop of [is_system_path] (lines 52-57). *)
Fixpoint is_system_path_loop (path_lower : string)
    (dangerous_list : list string) : bool :=
  match dangerous_list with
  | [] => false
  | dangerous_path :: rest =>
      let dangerous_path_normalized :=
        lower (replace_char "\" "/" dangerous_path) in
      if startswith path_lower dangerous_path_normalized then true
      else is_system_path_loop path_lower rest
  end.

(** [is_system_path] (lines 43-57). The method has no [try]: where
    [resolve] raises, it raises, which is [None] here. On a POSIX host
    [as_posix()] is [str]. *)
Definition is_system_path (system : host) (fs : Fs.t) (path : string)
    : option bool :=
  if negb (truthy path) then Some false
  else
    match Pathlib.resolve_opt fs (Path path) with
    | None => None
    | Some resolved =>
        let path_lower := lower (str resolved) in
        Some (is_system_path_loop path_lower (dangerous_paths system))
    end.

(** [is_root_drive] (lines 59-69), on a host that is not Windows; where
    [resolve] raises, the [except] of line 68 returns [False]. *)
Definition is_root_drive (fs : Fs.t) (path : string) : bool :=
  match Pathlib.resolve_opt fs (Path path) with
  | None => false
  | Some resolved_path => String.eqb (str resolved_path) "/"
  end.

(** [has_sufficient_depth] (lines 71-77), with the [except] of line 76. *)
Definition has_sufficient_depth (fs : Fs.t) (path : string)
    (min_depth : nat) : bool :=
  match Pathlib.resolve_opt fs (Path path) with
  | None => false
  | Some resolved => (min_depth <=? length (parts resolved))%nat
  end.

(** The second component of what [validate_path] returns. The program
    returns a German sentence; each constructor stands for one of them
    and, but for the last, is named after the reason code of the
    specification, whose [ParentCreateFailed] covers the two sentences
    of lines 103 and 105. *)
Inductive reason : Type :=
  | EmptyPath             (* line 82: "Pfad darf nicht leer sein." *)
  | DangerousSystemPath   (* line 90: "Gefaehrlicher Systempfad erkannt! ..." *)
  | RootDrive             (* line 93: "Root-Laufwerk als ...-Pfad nicht erlaubt! ..." *)
  | InsufficientDepth     (* line 96: "Backup-Pfad sollte mindestens 3 Verzeichnisebenen tief sein ..." *)
  | ParentNoPermission    (* line 103: "Keine Berechtigung fuer Verzeichnis: ..." *)
  | ParentCreateError     (* line 105: "Kann Verzeichnis nicht erstellen: ..." *)
  | TargetIsFile          (* line 108: "Pfad zeigt auf eine Datei, nicht auf ein Verzeichnis: ..." *)
  | Ok                    (* line 110: "Pfad ist gueltig." *)
  | ValidationFailed.     (* line 113: "Pfad-Validierung fehlgeschlagen: ..." *)

(** [validate_path] (lines 79-113): the verdict, the reason, and the
    file system afterwards (validation may create the parent
    directory). The handler of line 112 catches what [is_system_path]
    raises; once that call has returned, [resolve] raises in no later
    call, and in this file system no other call of the body raises
    outside the inner [try]. *)
Definition validate_path (system : host) (fs : Fs.t) (path : string)
    (path_type : string) : bool * reason * Fs.t :=
  if negb (truthy path) || negb (truthy (strip path))
  then (false, EmptyPath, fs)
  else
    let path := strip path in
    let path_obj := Path path in
    match is_system_path system fs path with
    | None => (false, ValidationFailed, fs)
    | Some true => (false, DangerousSystemPath, fs)
    | Some false =>
        if is_root_drive fs path
        then (false, RootDrive, fs)
        else if String.eqb path_type "backup"
                && negb (has_sufficient_depth fs path 3)
        then (false, InsufficientDepth, fs)
        else
          let parent := parent path_obj in
          let made :=
            if negb (Pathlib.exists_ fs parent) then Pathlib.mkdir fs parent
            else (None, fs) in
          match made with
          | (Some (OSError PermissionError _), fs1) =>
              (false, ParentNoPermission, fs1)
          | (Some _, fs1) => (false, ParentCreateError, fs1)
          | (None, fs1) =>
              if Pathlib.exists_ fs1 path_obj && Pathlib.is_file fs1 path_obj
              then (false, TargetIsFile, fs1)
              else (true, Ok, fs1)
          end
    end.

End PathValidator.

(** ** The validator as the specification describes it (4.1)

    A second description of [validate], written from the words of the
    specification and compared with the one above: the roles and the
    reason codes of the specification, and six checks, each in the
    words of its step, run one after the other on the file system the
    previous one left; the first that fails gives the code, and none
    after it runs. *)
Module ValidateSpec.
Import PyStr PurePath.

Inductive role : Type := Source | Backup | Runtime.

(** The name under which the program passes a role (lines 430-442). *)
Definition path_type (r : role) : string :=
  match r with
  | Source => "source"
  | Backup => "backup"
  | Runtime => "runtime"
  end.






(** 2. The absolute, normalized form of the input, the white space
    around it left out. *)
Definition resolved (fs : Fs.t) (path : string) : PurePath.t :=
  Pathlib.resolve fs (Path (strip path)).









End ValidateSpec.

(** ** [datetime] *)
Module Datetime.
Local Open Scope N_scope.

Record t : Type := mk {
  year : N; month : N; day : N;
  hour : N; minute : N; second : N
}.


Definition digit (n : N) : ascii := ascii_of_N (48 + n mod 10).

Definition pad2 (n : N) (rest : string) : string :=
  String (digit (n / 10)) (String (digit n) rest).

Definition pad4 (n : N) (rest : string) : string :=
  String (digit (n / 1000)) (String (digit (n / 100)) (pad2 n rest)).

(** [d.strftime("%Y%m%d_%H%M%S")] *)
Definition strftime (d : t) : string :=
  pad4 (year d) (pad2 (month d) (pad2 (day d)
    (String "_" (pad2 (hour d) (pad2 (minute d) (pad2 (second d) "")))))).

End Datetime.

(** ** [BackupEngine]: exclusion patterns *)
Module BackupEngine.
Import PyStr PurePath.

(** [self.exclude_defaults] (line 197) *)
Definition exclude_defaults : list string :=
  [".git"; "__pycache__"; "node_modules"; ".vs"; ".vscode"; "bin"; "obj"].

(** [parse_exclude_patterns] (lines 199-204). [list(set(l))] is the list
    of the elements of a finite set: no duplicates, in an order the
    program does not choose. *)
Definition parse_exclude_patterns (exclude_string : string) : list string :=
  if negb (truthy exclude_string) then exclude_defaults
  else
    let patterns :=
      List.filter truthy (List.map strip (split "," exclude_string)) in
    elements (list_to_set (patterns ++ exclude_defaults) : gset string).

(** The [for pattern in exclude_patterns] loop (lines 209-214). *)
Fixpoint should_exclude_loop (path_parts : list string) (leaf : string)
    (exclude_patterns : list string) : bool :=
  match exclude_patterns with
  | [] => false
  | pattern :: rest =>
      if bool_decide (pattern ∈ path_parts) || String.eqb leaf pattern
      then true
      else if startswith pattern "*" && endswith leaf (drop_first pattern)
      then true
      else should_exclude_loop path_parts leaf rest
  end.

(** [should_exclude] (lines 206-214) *)
Definition should_exclude (path : string) (exclude_patterns : list string)
    : bool :=
  should_exclude_loop (parts (Path path)) (name (Path path)) exclude_patterns.

(** What one pattern matches: a segment, the leaf name, or a [*]-suffix. *)
Definition pattern_matches (path pattern : string) : Prop :=
  pattern ∈ parts (Path path)
  ∨ name (Path path) = pattern
  ∨ ∃ rest pre, pattern = "*" +:+ rest ∧ name (Path path) = pre +:+ rest.

End BackupEngine.

(** ** [BackupEngine]: [copy_directory] (lines 216-268) *)
Module Engine.
Import PyStr PurePath BackupEngine.

(** What a run lets the outside see, in the order it happens. *)
Inductive event : Type :=
  | EvAsk                                    (* [mb.askyesno] was shown *)
  | EvCopied (source_file dest_file : string)  (* [shutil.copy2] returned *)
  | EvProgress (copied_files total_files : nat)  (* [progress_callback(...)] *)
  | EvPrint (source_file : string) (e : exn).  (* [print("Error copying ...")] *)

(** The state the copy loop works on. *)
Record st : Type := mk {
  disk : Fs.t;
  copied_files : nat;
  trace : list event
}.

(** The message of line 238; its capital U with diaeresis is the code
    point 220. *)
Definition declined_message : string :=
  "Deployment abgebrochen: Benutzer hat " +:+
  String (ascii_of_nat 220) "berschreibung abgelehnt".

(** The pre-pass of line 244: [sum(len(files) for _, _, files in
    os.walk(top))]. [fuel] bounds the depth of the walk; [None] when it
    does not suffice. *)
Fixpoint count_files (fuel : nat) (fs : Fs.t) (top : string) : option nat :=
  match fuel with
  | O => None
  | S fuel' =>
      match Fs.scandir fs top with
      | None => Some 0
      | Some (dirs, files) =>
          fold_left
            (λ acc d,
               match acc, count_files fuel' fs (OsPath.join top d) with
               | Some a, Some n => Some (a + n)
               | _, _ => None
               end)
            dirs (Some (length files))
      end
  end.

(** The body of [for file in files] (lines 256-266) for one file. The
    [try] catches whatever [copy2] raises; the run goes on. The callback
    is a sink that records its arguments and does not raise. *)
Definition copy_one (exclude_patterns : list string) (progress_callback : bool)
    (total_files : nat) (root dest_dir : string) (s : st) (file : string)
    : st :=
  let source_file := OsPath.join root file in
  if negb (should_exclude source_file exclude_patterns) then
    let dest_file := OsPath.join dest_dir file in
    match Shutil.copy2 (disk s) source_file dest_file with
    | Return fs' =>
        let copied := S (copied_files s) in
        {| disk := fs'; copied_files := copied;
           trace := trace s ++ EvCopied source_file dest_file ::
                    (if progress_callback
                     then [EvProgress copied total_files] else []) |}
    | Raise e =>
        {| disk := disk s; copied_files := copied_files s;
           trace := trace s ++ [EvPrint source_file e] |}
    end
  else s.

(** A loop whose body may raise or run out of fuel: it stops there. *)
Fixpoint for_each (body : st → string → option (option exn * st))
    (xs : list string) (s : st) : option (option exn * st) :=
  match xs with
  | [] => Some (None, s)
  | x :: xs' =>
      match body s x with
      | Some (None, s') => for_each body xs' s'
      | stopped => stopped
      end
  end.

(** The loop [for root, dirs, files in os.walk(source)] (lines 247-266),
    from the directory [root] down. [os.walk] lists a directory when the
    loop reaches it, so the run sees what it has written itself.
    [fuel] bounds the depth; the result is [None] when it does not
    suffice, otherwise the exception raised, if any, and the state. *)
Fixpoint walk_copy (fuel : nat) (exclude_patterns : list string)
    (progress_callback : bool) (total_files : nat)
    (source final_destination : string) (s : st) (root : string)
    : option (option exn * st) :=
  match fuel with
  | O => None
  | S fuel' =>
      match Fs.scandir (disk s) root with
      | None => Some (None, s)
      | Some (dirs, files) =>
          let dirs :=
            List.filter
              (λ d, negb (should_exclude (OsPath.join root d) exclude_patterns))
              dirs in
          let rel_path := OsPath.relpath (disk s) root source in
          let dest_dir :=
            if negb (String.eqb rel_path ".")
            then OsPath.join final_destination rel_path
            else final_destination in
          let made :=
            if negb (Fs.exists_ (disk s) dest_dir)
            then Fs.makedirs (disk s) dest_dir else (None, disk s) in
          match made with
          | (Some e, fs1) =>
              Some (Some e, {| disk := fs1; copied_files := copied_files s;
                               trace := trace s |})
          | (None, fs1) =>
              let s1 := {| disk := fs1; copied_files := copied_files s;
                           trace := trace s |} in
              let s2 :=
                fold_left
                  (copy_one exclude_patterns progress_callback total_files
                     root dest_dir)
                  files s1 in
              for_each
                (λ s' d,
                   walk_copy fuel' exclude_patterns progress_callback
                     total_files source final_destination s'
                     (OsPath.join root d))
                dirs s2
          end
      end
  end.

(** Lines 220-240: the final destination, after the confirmation and
    the deletion that a non-empty runtime directory asks for.
    [decision] is what [mb.askyesno] returns when it is shown. *)
Definition prepare (now : Datetime.t) (decision : bool) (fs : Fs.t)
    (source destination operation_type : string)
    : result string * Fs.t * list event :=
  let timestamp := Datetime.strftime now in
  if String.eqb operation_type "backup" then
    let project_name := name (Path source) in
    let versioned_destination :=
      OsPath.join destination (project_name +:+ "_" +:+ timestamp) in
    (Return versioned_destination, fs, [])
  else if Fs.exists_ fs destination then
    match Fs.listdir fs destination with
    | Raise e => (Raise e, fs, [])
    | Return [] => (Return destination, fs, [])
    | Return (_ :: _) =>
        if negb decision
        then (Raise (Exception declined_message), fs, [EvAsk])
        else
          match Fs.rmtree fs destination with
          | Raise e => (Raise e, fs, [EvAsk])
          | Return fs' => (Return destination, fs', [EvAsk])
          end
    end
  else (Return destination, fs, []).

(** [copy_directory] (lines 216-268): [None] when [fuel] does not
    suffice; otherwise what the call returns or raises, the file system
    it leaves, and what it let the outside see. [progress_callback]
    tells whether a callback was passed. *)
Definition copy_directory (fuel : nat) (now : Datetime.t) (decision : bool)
    (fs : Fs.t) (source destination exclude_patterns : string)
    (progress_callback : bool) (operation_type : string)
    : option (result (nat * string) * Fs.t * list event) :=
  let exclude_patterns := parse_exclude_patterns exclude_patterns in
  match prepare now decision fs source destination operation_type with
  | (Raise e, fs1, tr) => Some (Raise e, fs1, tr)
  | (Return final_destination, fs1, tr) =>
      match Fs.makedirs fs1 final_destination with
      | (Some e, fs2) => Some (Raise e, fs2, tr)
      | (None, fs2) =>
          match count_files fuel fs2 source with
          | None => None
          | Some total_files =>
              match
                walk_copy fuel exclude_patterns progress_callback
                  total_files source final_destination
                  {| disk := fs2; copied_files := 0; trace := tr |} source
              with
              | None => None
              | Some (Some e, s) => Some (Raise e, disk s, trace s)
              | Some (None, s) =>
                  Some (Return (copied_files s, final_destination),
                        disk s, trace s)
              end
          end
      end
  end.

(** The files a trace shows a copy was tried for, and how many of the
    tries succeeded. *)
Definition attempted (tr : list event) : list string :=
  omap (λ ev, match ev with
              | EvCopied source_file _ => Some source_file
              | EvPrint source_file _ => Some source_file
              | _ => None
              end) tr.

Definition copied_count (tr : list event) : nat :=
  length (List.filter (λ ev, match ev with EvCopied _ _ => true | _ => false end)
            tr).

(** The arguments the progress callback was called with. *)
Definition progress_calls (tr : list event) : list (nat * nat) :=
  omap (λ ev, match ev with
              | EvProgress c t => Some (c, t)
              | _ => None
              end) tr.

(** What the copy loop does to the counter and the trace between two
    states: the counter grows by the number of copies the trace shows,
    and the callback, if there is one, is called once for each of them,
    with the running count and [total_files]. *)
Definition accounted (progress_callback : bool) (total_files : nat)
    (s s' : st) : Prop :=
  ∃ new,
    trace s' = trace s ++ new
    ∧ copied_files s' = copied_files s + copied_count new
    ∧ progress_calls new
      = if progress_callback
        then List.map (λ c, (c, total_files))
               (seq (S (copied_files s)) (copied_count new))
        else [].

End Engine.

(** ** The denominator of the progress, as the specification describes it

    A second description of the pre-pass, written from the specification
    (4.2, "total eligible file count"): the files that the copy pass will
    try to copy, that is, with excluded directories pruned and excluded
    files left out. *)
Module ReplicateSpec.
Import BackupEngine.

Fixpoint count_eligible (fuel : nat) (exclude_patterns : list string)
    (fs : Fs.t) (top : string) : option nat :=
  match fuel with
  | O => None
  | S fuel' =>
      match Fs.scandir fs top with
      | None => Some 0
      | Some (dirs, files) =>
          let eligible f :=
            negb (should_exclude (OsPath.join top f) exclude_patterns) in
          fold_left
            (λ acc d,
               match acc, count_eligible fuel' exclude_patterns fs
                            (OsPath.join top d) with
               | Some a, Some n => Some (a + n)
               | _, _ => None
               end)
            (List.filter eligible dirs)
            (Some (length (List.filter eligible files)))
      end
  end.

End ReplicateSpec.

(** ** File systems and clock readings used in the examples *)
Module Samples.

Definition file_system (cwd : list string)
    (l : list (list string * Fs.node)) : Fs.t :=
  {| Fs.cwd := cwd; Fs.root_writable := false; Fs.nodes := list_to_map l |}.

(** A home directory with a project (the tree of section 8 of the
    specification) and an empty backup root. *)
Definition fs_project : Fs.t :=
  file_system ["home"; "u"]
    [(["home"], Fs.Dir false);
     (["home"; "u"], Fs.Dir true);
     (["home"; "u"; "proj"], Fs.Dir true);
     (["home"; "u"; "proj"; "a.txt"], Fs.File true "A");
     (["home"; "u"; "proj"; ".git"], Fs.Dir true);
     (["home"; "u"; "proj"; ".git"; "x"], Fs.File true "X");
     (["home"; "u"; "proj"; "node_modules"], Fs.Dir true);
     (["home"; "u"; "proj"; "node_modules"; "y.js"], Fs.File true "Y");
     (["home"; "u"; "proj"; "b"], Fs.Dir true);
     (["home"; "u"; "proj"; "b"; "c.txt"], Fs.File true "C");
     (["home"; "u"; "bk"], Fs.Dir true)].

(** A working directory below [/tmp]. *)
Definition fs_tmp : Fs.t :=
  file_system ["tmp"; "work"]
    [(["tmp"], Fs.Dir true); (["tmp"; "work"], Fs.Dir true)].

(** A host where [/home/user] exists. *)
Definition fs_home : Fs.t :=
  file_system ["home"; "user"]
    [(["home"], Fs.Dir false); (["home"; "user"], Fs.Dir true)].

(** A project whose second file cannot be read. *)
Definition fs_unreadable : Fs.t :=
  file_system ["home"; "u"]
    [(["home"], Fs.Dir false);
     (["home"; "u"], Fs.Dir true);
     (["home"; "u"; "proj"], Fs.Dir true);
     (["home"; "u"; "proj"; "a.txt"], Fs.File true "A");
     (["home"; "u"; "proj"; "b.txt"], Fs.File false "B");
     (["home"; "u"; "proj"; "c.txt"], Fs.File true "C");
     (["home"; "u"; "bk"], Fs.Dir true)].


(** A project below a directory named [bin], which is also the working
    directory. *)
Definition fs_bin : Fs.t :=
  file_system ["home"; "u"; "bin"]
    [(["home"], Fs.Dir false);
     (["home"; "u"], Fs.Dir true);
     (["home"; "u"; "bin"], Fs.Dir true);
     (["home"; "u"; "bin"; "proj"], Fs.Dir true);
     (["home"; "u"; "bin"; "proj"; "a.txt"], Fs.File true "A");
     (["home"; "u"; "bk"], Fs.Dir true)].

(** A runtime directory that already holds a file. *)
Definition fs_runtime : Fs.t :=
  file_system ["home"; "u"]
    [(["home"], Fs.Dir false);
     (["home"; "u"], Fs.Dir true);
     (["home"; "u"; "proj"], Fs.Dir true);
     (["home"; "u"; "proj"; "a.txt"], Fs.File true "A");
     (["home"; "u"; "run"], Fs.Dir true);
     (["home"; "u"; "run"; "old.txt"], Fs.File true "O")].

Definition now1 : Datetime.t := Datetime.mk 2024 5 17 9 3 59.
Definition now2 : Datetime.t := Datetime.mk 2024 5 17 9 4 0.

(** The file system that a run leaves. *)
Definition left_by
    (run : option (result (nat * string) * Fs.t * list Engine.event))
    (before : Fs.t) : Fs.t :=
  match run with
  | Some (_, fs, _) => fs
  | None => before
  end.



End Samples.

(** ** What a trace tells about a run *)
Module Traces.
Import BackupEngine Engine.

Definition is_ask (ev : event) : bool :=
  match ev with EvAsk => true | _ => false end.

(** How often the question of lines 230-236 was asked. *)
Definition asks (tr : list event) : nat := length (List.filter is_ask tr).

(** What the copy loop adds to the trace between two states: no question,
    and tries only for files that the patterns do not exclude. *)
Definition loop_trace (exclude_patterns : list string) (s s' : st) : Prop :=
  ∃ new,
    trace s' = trace s ++ new
    ∧ asks new = 0
    ∧ Forall (λ f, should_exclude f exclude_patterns = false) (attempted new).


(** The number of questions that lines 221-238 ask for the given
    arguments: one for a run that is not a backup and finds its
    destination existing and not empty, none otherwise. *)
Definition questions (fs : Fs.t) (destination operation_type : string) : nat :=
  if String.eqb operation_type "backup" then 0
  else if Fs.exists_ fs destination then
    match Fs.listdir fs destination with
    | Return (_ :: _) => 1
    | _ => 0
    end
  else 0.

End Traces.

(** ** [ProjectManager] (lines 128-193) *)
Module ProjectManager.

(** A row of the table [projects] (lines 137-146). The fields are the
    columns, in their order, which is the order of the tuple that
    [fetchall] gives: [project[0]] is [id], [project[1]] is [name],
    and so on. [last_backup] is [NULL] until it is set. *)
Record project : Type := mk_project {
  id : nat;
  name : string;
  source_path : string;
  backup_path : string;
  runtime_path : string;
  exclude_patterns : string;
  last_backup : option Datetime.t;
  created_at : Datetime.t
}.

(** The database file: the rows of the table, the oldest first, and the
    largest id ever given out, which SQLite keeps for an
    [AUTOINCREMENT] column. *)
Record t : Type := mk { rows : list project; sequence : nat }.

(** [init_database] (lines 133-150): [CREATE TABLE IF NOT EXISTS] makes
    the empty table in a new file and leaves an existing one as it is. *)
Definition empty : t := {| rows := []; sequence := 0 |}.

Definition init_database (file : option t) : t :=
  match file with Some db => db | None => empty end.

Definition has_name (n : string) (p : project) : bool := String.eqb (name p) n.

Definition has_id (i : nat) (p : project) : bool := Nat.eqb (id p) i.

Definition largest_id (l : list project) : nat :=
  fold_right (λ p m, Nat.max (id p) m) 0 l.

(** [add_project] (lines 152-166). [name] is [UNIQUE], compared byte by
    byte: the [INSERT] of a name that is there raises [IntegrityError],
    nothing is committed, and the call returns [False]. The arguments
    are strings, so no [NOT NULL] fails. The new row gets an id larger
    than every id the table ever had, and [CURRENT_TIMESTAMP] as
    [created_at]. *)
Definition add_project (now : Datetime.t)
    (name source_path backup_path runtime_path exclude_patterns : string)
    (db : t) : bool * t :=
  if existsb (has_name name) (rows db) then (false, db)
  else
    let new_id := S (Nat.max (sequence db) (largest_id (rows db))) in
    (true,
     {| rows := rows db ++
                [mk_project new_id name source_path backup_path runtime_path
                   exclude_patterns None now];
        sequence := new_id |}).

(** [ORDER BY name]: the rows sorted by name, names compared character
    by character. *)
Fixpoint insert_by_name (p : project) (l : list project) : list project :=
  match l with
  | [] => [p]
  | q :: l' =>
      if String.leb (name p) (name q) then p :: l
      else q :: insert_by_name p l'
  end.

Definition order_by_name (l : list project) : list project :=
  fold_right insert_by_name [] l.

(** [get_all_projects] (lines 168-175) *)
Definition get_all_projects (db : t) : list project :=
  order_by_name (rows db).

(** [update_last_backup] (lines 177-185) *)
Definition update_last_backup (now : Datetime.t) (project_id : nat) (db : t)
    : t :=
  {| rows :=
       List.map
         (λ p, if has_id project_id p
               then mk_project (id p) (name p) (source_path p) (backup_path p)
                      (runtime_path p) (exclude_patterns p) (Some now)
                      (created_at p)
               else p)
         (rows db);
     sequence := sequence db |}.

(** [delete_project] (lines 187-193) *)
Definition delete_project (project_id : nat) (db : t) : t :=
  {| rows := List.filter (λ p, negb (has_id project_id p)) (rows db);
     sequence := sequence db |}.

(** A call of one of the methods that write, and the database after a
    list of such calls on a new file. *)
Inductive call : Type :=
  | AddProject (now : Datetime.t)
      (name source_path backup_path runtime_path exclude_patterns : string)
  | UpdateLastBackup (now : Datetime.t) (project_id : nat)
  | DeleteProject (project_id : nat).

Definition perform (db : t) (c : call) : t :=
  match c with
  | AddProject now name source_path backup_path runtime_path
      exclude_patterns =>
      (add_project now name source_path backup_path runtime_path
         exclude_patterns db).2
  | UpdateLastBackup now project_id => update_last_backup now project_id db
  | DeleteProject project_id => delete_project project_id db
  end.

Definition after (calls : list call) : t :=
  fold_left perform calls (init_database None).

(** What the table's declaration promises of the rows: no two with the
    same name, no two with the same id, and no id beyond the largest
    one given out. *)
Definition consistent (db : t) : Prop :=
  NoDup (List.map name (rows db))
  ∧ NoDup (List.map id (rows db))
  ∧ Forall (λ p, 1 ≤ id p ≤ sequence db) (rows db).

(** The rows are in the order of their names. *)
Definition sorted_by_name (l : list project) : Prop :=
  StronglySorted (λ p q, String.leb (name p) (name q) = true) l.

End ProjectManager.

(** ** [CodeKeeperGUI]: the handlers that use the validator, the table
    and the engine (lines 425-475 and 497-594)

    The widgets are left out: a handler is a function of what the entry
    fields hold, of the selected project, of the file system and of the
    database, and gives the message box it ends with and what it leaves
    behind. Calls into Tk are taken to succeed. *)
Module CodeKeeperGUI.
Import PyStr PurePath PathValidator.

#[global] Instance purepath_eq_dec : EqDecision PurePath.t.
Proof. solve_decision. Defined.

(** [p.parents]: the ancestors of [p], the nearest first. *)
Definition parents (p : PurePath.t) : list PurePath.t :=
  List.map (λ k, {| root := root p; comps := take k (comps p) |})
    (rev (seq 0 (length (comps p)))).

(** [sub in s] *)
Fixpoint contains (sub s : string) : bool :=
  startswith s sub
  || match s with
     | EmptyString => false
     | String _ s' => contains sub s'
     end.

(** How [save_project] (lines 425-475) ends: the error box it shows, or
    the project saved. *)
Inductive save_result : Type :=
  | MissingFields                    (* line 427 *)
  | InvalidSource (source_msg : reason)    (* line 432 *)
  | InvalidBackup (backup_msg : reason)    (* line 437 *)
  | InvalidRuntime (runtime_msg : reason)  (* line 443 *)
  | SamePath                         (* line 447 *)
  | Nested                           (* line 455 *)
  | NameExists                       (* line 475 *)
  | Saved.                           (* lines 470-472 *)

(** [save_project] (lines 425-475). The arguments are what the four
    entry fields and the text box hold; [Text.get('1.0', END)] gives
    the text and a line feed. *)
Definition save_project (system : host) (now : Datetime.t)
    (name_var source_var backup_var runtime_var exclude_text : string)
    (fs : Fs.t) (db : ProjectManager.t)
    : save_result * Fs.t * ProjectManager.t :=
  if negb (truthy name_var && truthy source_var && truthy backup_var)
  then (MissingFields, fs, db)
  else
    match validate_path system fs source_var "source" with
    | (false, source_msg, fs1) => (InvalidSource source_msg, fs1, db)
    | (true, _, fs1) =>
        match validate_path system fs1 backup_var "backup" with
        | (false, backup_msg, fs2) => (InvalidBackup backup_msg, fs2, db)
        | (true, _, fs2) =>
            let runtime :=
              if truthy (strip runtime_var)
              then validate_path system fs2 runtime_var "runtime"
              else (true, Ok, fs2) in
            match runtime with
            | (false, runtime_msg, fs3) =>
                (InvalidRuntime runtime_msg, fs3, db)
            | (true, _, fs3) =>
                let source_path := Pathlib.resolve fs3 (Path source_var) in
                let backup_path := Pathlib.resolve fs3 (Path backup_var) in
                if bool_decide (source_path = backup_path)
                then (SamePath, fs3, db)
                else if bool_decide (source_path ∈ parents backup_path)
                        || bool_decide (backup_path ∈ parents source_path)
                then (Nested, fs3, db)
                else
                  let exclude_patterns :=
                    strip (exclude_text +:+ String (ascii_of_nat 10) "") in
                  match
                    ProjectManager.add_project now name_var source_var
                      backup_var runtime_var exclude_patterns db
                  with
                  | (true, db') => (Saved, fs3, db')
                  | (false, db') => (NameExists, fs3, db')
                  end
            end
        end
    end.

(** [get_selected_project] (lines 497-511), for the id that the selected
    row of the tree carries, if a row is selected. *)
Definition get_selected_project (selection : option nat)
    (db : ProjectManager.t) : option ProjectManager.project :=
  match selection with
  | None => None
  | Some project_id =>
      List.find (ProjectManager.has_id project_id)
        (ProjectManager.get_all_projects db)
  end.

(** The message box that a handler ends with, by its title, or none. *)
Inductive box : Type :=
  | Showinfo (title : string)
  | Showerror (title : string)
  | Showwarning (title : string)
  | Nothing.

(** What a handler leaves: the box, the text of the status line if it
    was set, the file system, the database, and what the engine let the
    outside see. *)
Record left : Type := mk_left {
  shown : box;
  status_var : option string;
  disk : Fs.t;
  database : ProjectManager.t;
  seen : list Engine.event
}.

(** [str(e)]. The text of an [OSError] comes from the operating system
    and is not fixed here. *)
Definition str_exn (oserror_text : oserror → string → string) (e : exn)
    : string :=
  match e with
  | Exception msg => msg
  | OSError kind path => oserror_text kind path
  end.

(** [create_backup] (lines 518-548) with its [backup_thread]. [now] is
    the clock that the engine reads, [now_db] the [CURRENT_TIMESTAMP] of
    the update. [None] where the engine's walk runs out of fuel. *)
Definition create_backup (fuel : nat) (now now_db : Datetime.t)
    (decision : bool) (selection : option nat) (fs : Fs.t)
    (db : ProjectManager.t) : option left :=
  match get_selected_project selection db with
  | None =>
      Some (mk_left (match selection with
                     | None => Showwarning "Warnung"
                     | Some _ => Nothing
                     end) None fs db [])
  | Some project =>
      match
        Engine.copy_directory fuel now decision fs
          (ProjectManager.source_path project)
          (ProjectManager.backup_path project)
          (ProjectManager.exclude_patterns project) true "backup"
      with
      | None => None
      | Some (Return (copied_files, backup_path), fs', tr) =>
          Some (mk_left (Showinfo "Erfolg") (Some "Backup abgeschlossen") fs'
                  (ProjectManager.update_last_backup now_db
                     (ProjectManager.id project) db) tr)
      | Some (Raise e, fs', tr) =>
          Some (mk_left (Showerror "Fehler") (Some "Backup fehlgeschlagen")
                  fs' db tr)
      end
  end.

(** [deploy_to_runtime] (lines 550-583) with its [deploy_thread]. *)
Definition deploy_to_runtime (oserror_text : oserror → string → string)
    (fuel : nat) (now : Datetime.t) (decision : bool)
    (selection : option nat) (fs : Fs.t) (db : ProjectManager.t)
    : option left :=
  match get_selected_project selection db with
  | None =>
      Some (mk_left (match selection with
                     | None => Showwarning "Warnung"
                     | Some _ => Nothing
                     end) None fs db [])
  | Some project =>
      if negb (truthy (ProjectManager.runtime_path project))
      then Some (mk_left (Showwarning "Warnung") None fs db [])
      else
        match
          Engine.copy_directory fuel now decision fs
            (ProjectManager.source_path project)
            (ProjectManager.runtime_path project)
            (ProjectManager.exclude_patterns project) true "runtime"
        with
        | None => None
        | Some (Return (copied_files, deploy_path), fs', tr) =>
            Some (mk_left (Showinfo "Erfolg")
                    (Some "Deployment abgeschlossen") fs' db tr)
        | Some (Raise e, fs', tr) =>
            Some (mk_left
                    (if contains "abgebrochen"
                          (lower (str_exn oserror_text e))
                     then Showinfo "Abgebrochen" else Showerror "Fehler")
                    (Some "Deployment fehlgeschlagen") fs' db tr)
        end
  end.

(** [delete_project] (lines 585-594); [confirmed] is what [askyesno]
    returns. *)
Definition delete_project (confirmed : bool) (selection : option nat)
    (db : ProjectManager.t) : ProjectManager.t :=
  match get_selected_project selection db with
  | None => db
  | Some project =>
      if confirmed
      then ProjectManager.delete_project (ProjectManager.id project) db
      else db
  end.

End CodeKeeperGUI.

(* ================================================================== *)
(** * Part II: properties                                              *)
(* ================================================================== *)

Import PyStr PurePath.


(** ** Strings *)

#[local] Arguments String.append _ _ : simpl nomatch.

Lemma append_nil_r (s : string) : s +:+ "" = s.
Proof. induction s as [|c s IH]; simpl; congruence. Qed.

Lemma append_assoc (a b c : string) : (a +:+ b) +:+ c = a +:+ (b +:+ c).
Proof. induction a as [|x a IH]; simpl; congruence. Qed.


Lemma startswith_spec (s p : string) :
  startswith s p = true ↔ ∃ r, s = p +:+ r.
Proof.
  revert s. induction p as [|b p IH]; intros [|a s]; simpl.
  - split; [intros _; by exists "" | done].
  - split; [intros _; by exists (String a s) | done].
  - split; [done | intros [r [=]]].
  - rewrite andb_true_iff, Ascii.eqb_eq, IH. split.
    + intros [-> [r ->]]. by exists r.
    + intros [r [= -> ->]]. split; [done | by exists r].
Qed.

Lemma endswith_spec (s p : string) :
  endswith s p = true ↔ ∃ pre, s = pre +:+ p.
Proof.
  induction s as [|a s IH].
  - cbn [endswith]. rewrite orb_false_r, String.eqb_eq. split.
    + intros <-. by exists "".
    + intros [pre H]. destruct pre; simpl in H; [done | discriminate].
  - cbn [endswith]. rewrite orb_true_iff, String.eqb_eq, IH. split.
    + intros [<- | [pre ->]]; [by exists "" | by exists (String a pre)].
    + intros [pre H]. destruct pre as [|x pre]; simpl in H.
      * by left.
      * injection H as -> ->. right. by exists pre.
Qed.

Lemma split_not_nil (sep : ascii) (s : string) : split sep s ≠ [].
Proof.
  destruct s as [|c s]; simpl; [done |].
  destruct (Ascii.eqb c sep); [done |]. by destruct (split sep s).
Qed.

(** Splitting distributes over a separator in the middle. *)
Lemma split_app (sep : ascii) (a b : string) :
  split sep (a +:+ String sep b) = split sep a ++ split sep b.
Proof.
  induction a as [|c a IH]; simpl.
  - by rewrite Ascii.eqb_refl.
  - destruct (Ascii.eqb c sep); [by rewrite IH |].
    rewrite IH. pose proof (split_not_nil sep a).
    by destruct (split sep a).
Qed.

(** A string without the separator is its only piece, and no piece of a
    split holds the separator. *)
Lemma split_no_sep (sep : ascii) (s : string) :
  has_char sep s = false → split sep s = [s].
Proof.
  induction s as [|c s IH]; simpl; [done |].
  intros [Hc Hs]%orb_false_iff. rewrite Hc, (IH Hs). done.
Qed.

Lemma split_pieces_no_sep (sep : ascii) (s x : string) :
  x ∈ split sep s → has_char sep x = false.
Proof.
  revert x. induction s as [|c s IH]; simpl; intros x.
  - by intros ->%list_elem_of_singleton.
  - destruct (Ascii.eqb c sep) eqn:Hc.
    + intros [->|H]%elem_of_cons; [done | auto].
    + pose proof (split_not_nil sep s).
      destruct (split sep s) as [|piece pieces]; [done |].
      intros [->|H']%elem_of_cons.
      * simpl. rewrite Hc. apply IH. by left.
      * apply IH. by right.
Qed.

(** ** Exclusion patterns *)

Import BackupEngine.

Lemma wildcard_spec (leaf pattern : string) :
  startswith pattern "*" && endswith leaf (drop_first pattern) = true
  ↔ ∃ rest pre, pattern = "*" +:+ rest ∧ leaf = pre +:+ rest.
Proof.
  rewrite andb_true_iff, startswith_spec, endswith_spec. split.
  - intros [[rest ->] [pre ->]]. by exists rest, pre.
  - intros (rest & pre & -> & ->). split; [by exists rest | by exists pre].
Qed.

Lemma should_exclude_iff (path : string) (exclude_patterns : list string) :
  should_exclude path exclude_patterns = true
  ↔ ∃ pattern, pattern ∈ exclude_patterns ∧ pattern_matches path pattern.
Proof.
  unfold should_exclude, pattern_matches.
  induction exclude_patterns as [|pattern rest IH]; cbn [should_exclude_loop].
  - split; [done | intros (? & []%elem_of_nil & _)].
  - destruct (bool_decide (pattern ∈ parts (Path path))) eqn:Hseg.
    { apply bool_decide_eq_true in Hseg. split; [intros _ | done].
      exists pattern. split; [left | by left]. }
    apply bool_decide_eq_false in Hseg.
    destruct (String.eqb_spec (name (Path path)) pattern) as [Hleaf | Hleaf].
    { split; [intros _ | done].
      exists pattern. split; [left | right; by left]. }
    cbn [orb].
    destruct (startswith pattern "*" && endswith (name (Path path))
                (drop_first pattern)) eqn:Hwild.
    { apply wildcard_spec in Hwild. split; [intros _ | done].
      exists pattern. split; [left | by do 2 right]. }
    rewrite IH. split.
    + intros (q & Hq & Hm). exists q. split; [by right | done].
    + intros (q & [-> | Hq]%elem_of_cons & Hm).
      * destruct Hm as [? | [? | Hw]]; [done | done |].
        apply wildcard_spec in Hw. congruence.
      * by exists q.
Qed.

Lemma exclude_defaults_NoDup : NoDup exclude_defaults.
Proof. compute_done. Qed.

(** What [parse_exclude_patterns] holds: the defaults and the non-empty
    trimmed pieces of the string. *)
Lemma elem_of_parse_exclude_patterns (raw x : string) :
  x ∈ parse_exclude_patterns raw
  ↔ x ∈ exclude_defaults
    ∨ (x ≠ "" ∧ ∃ piece, piece ∈ split "," raw ∧ strip piece = x).
Proof.
  unfold parse_exclude_patterns, truthy.
  destruct (String.eqb_spec raw "") as [-> | Hraw]; cbn [negb].
  - split; [by left | intros [H | (Hx & piece & Hp & Hs)]; [done |]].
    cbn in Hp. apply list_elem_of_singleton in Hp. subst piece.
    by cbn in Hs.
  - rewrite elem_of_elements, elem_of_list_to_set, elem_of_app.
    rewrite list_elem_of_In, filter_In, in_map_iff, negb_true_iff.
    split.
    + intros [[(piece & Hs & Hp) Hx] | H]; [right | by left].
      apply String.eqb_neq in Hx. split; [done |].
      exists piece. by rewrite list_elem_of_In.
    + intros [H | (Hx & piece & Hp & Hs)]; [by right | left].
      split; [exists piece; by rewrite <- list_elem_of_In |].
      by apply String.eqb_neq.
Qed.

Lemma parse_exclude_patterns_NoDup (raw : string) :
  NoDup (parse_exclude_patterns raw).
Proof.
  unfold parse_exclude_patterns. destruct (negb (truthy raw)).
  - apply exclude_defaults_NoDup.
  - apply NoDup_elements.
Qed.

(** C8: [parse_exclude_patterns] splits on commas, trims, drops the empty
    entries, adds the defaults and removes duplicates. The empty string
    gives exactly the defaults; ["foo, bar"] gives [foo], [bar] and the
    defaults, each once; every result holds every default. *)
Theorem C8_parse_exclude_patterns :
  parse_exclude_patterns "" = exclude_defaults
  ∧ (∀ raw x,
       x ∈ parse_exclude_patterns raw
       ↔ x ∈ exclude_defaults
         ∨ (x ≠ "" ∧ ∃ piece, piece ∈ split "," raw ∧ strip piece = x))
  ∧ (∀ raw, NoDup (parse_exclude_patterns raw))
  ∧ parse_exclude_patterns "foo, bar" ≡ₚ "foo" :: "bar" :: exclude_defaults
  ∧ (∀ raw, exclude_defaults ⊆ parse_exclude_patterns raw).
Proof.
  split_and!.
  - reflexivity.
  - apply elem_of_parse_exclude_patterns.
  - apply parse_exclude_patterns_NoDup.
  - apply NoDup_Permutation.
    + apply parse_exclude_patterns_NoDup.
    + compute_done.
    + intros x. rewrite elem_of_parse_exclude_patterns.
      change (split "," "foo, bar") with ["foo"; " bar"].
      rewrite !elem_of_cons. split.
      * intros [H | (Hx & piece & Hp & Hs)]; [by do 2 right |].
        rewrite !elem_of_cons in Hp.
        destruct Hp as [-> | [-> | []%elem_of_nil]]; cbn in Hs; auto.
      * intros [-> | [-> | H]]; [right | right | by left].
        -- split; [done |]. exists "foo". split; [by left | done].
        -- split; [done |]. exists " bar". split; [right; by left | done].
  - intros raw x Hx. apply elem_of_parse_exclude_patterns. by left.
Qed.

(** C7: [should_exclude] holds exactly when some pattern is a segment of
    the path, or is its leaf name, or begins with [*] and the leaf name
    ends with the rest of it. So ["build.log"] is excluded by ["*.log"]
    and ["build.txt"] is not, and whatever lies, at any depth, below a
    directory named like a default pattern is excluded. *)
Theorem C7_should_exclude :
  (∀ path exclude_patterns,
     should_exclude path exclude_patterns = true
     ↔ ∃ pattern, pattern ∈ exclude_patterns
         ∧ (pattern ∈ parts (Path path)
            ∨ name (Path path) = pattern
            ∨ ∃ rest pre, pattern = "*" +:+ rest
                ∧ name (Path path) = pre +:+ rest))
  ∧ should_exclude "build.log" ["*.log"] = true
  ∧ should_exclude "build.txt" ["*.log"] = false
  ∧ (∀ above below pattern raw,
       pattern ∈ exclude_defaults →
       should_exclude (above +:+ "/" +:+ pattern +:+ "/" +:+ below)
         (parse_exclude_patterns raw) = true).
Proof.
  split_and!.
  - apply should_exclude_iff.
  - reflexivity.
  - reflexivity.
  - intros above below pattern raw Hdef. apply should_exclude_iff.
    exists pattern. split.
    { apply elem_of_parse_exclude_patterns. by left. }
    left. unfold parts, Path; cbn [root comps].
    assert (pattern ∈ List.filter keep_component
              (split "/" (above +:+ "/" +:+ pattern +:+ "/" +:+ below))) as Hin.
    { change ("/" +:+ pattern +:+ "/" +:+ below)
        with (String "/" (pattern +:+ String "/" below)).
      rewrite !split_app. rewrite list_elem_of_In, filter_In, <- list_elem_of_In.
      rewrite !elem_of_app. unfold exclude_defaults in Hdef.
      rewrite !elem_of_cons in Hdef.
      destruct Hdef as [->|[->|[->|[->|[->|[->|[->|[]%elem_of_nil]]]]]]];
        (split; [right; left; by left | done]). }
    destruct (String.eqb _ ""); [done | by right].
Qed.

(** ** The validator *)

Import PathValidator.

(** Membership in a list written out: one case for each element. *)
Ltac elem_cases :=
  repeat match goal with
    | H : _ ∈ [] |- _ => by apply elem_of_nil in H
    | H : _ ∈ _ :: _ |- _ => apply elem_of_cons in H as [H | H]
    end.

Ltac elem_absurd :=
  elem_cases;
  solve [ match goal with H : _ = _ |- _ => discriminate H end | congruence ].

Lemma strip_empty : strip "" = "".
Proof. reflexivity. Qed.

Lemma blank_test (path : string) :
  negb (truthy path) || negb (truthy (strip path)) = String.eqb (strip path) "".
Proof.
  unfold truthy. rewrite !negb_involutive.
  destruct (String.eqb_spec path "") as [-> | _]; [done | apply orb_false_l].
Qed.

Lemma isfile_exists (fs : Fs.t) (s : string) :
  Fs.isfile fs s = true → Fs.exists_ fs s = true.
Proof. unfold Fs.isfile, Fs.exists_. by destruct (Fs.stat fs s). Qed.

Lemma exists_and_is_file (fs : Fs.t) (p : PurePath.t) :
  Pathlib.exists_ fs p && Pathlib.is_file fs p = Pathlib.is_file fs p.
Proof.
  unfold Pathlib.exists_, Pathlib.is_file.
  destruct (Fs.isfile fs (str p)) eqn:H; [| apply andb_false_r].
  by rewrite (isfile_exists _ _ H).
Qed.








(** The first branch that returns decides; the reasons of the branches
    differ. This case analysis is shared by the statements below. *)
Lemma validate_path_cases (system : host) (path path_type : string)
    (fs : Fs.t) :
  let r := validate_path system fs path path_type in
  (strip path = "" ∧ r = (false, EmptyPath, fs))
  ∨ (strip path ≠ "" ∧ is_system_path system fs (strip path) = None
     ∧ r = (false, ValidationFailed, fs))
  ∨ (strip path ≠ "" ∧ is_system_path system fs (strip path) = Some true
     ∧ r = (false, DangerousSystemPath, fs))
  ∨ (strip path ≠ "" ∧ is_system_path system fs (strip path) = Some false
     ∧ is_root_drive fs (strip path) = true
     ∧ r = (false, RootDrive, fs))
  ∨ (strip path ≠ "" ∧ is_system_path system fs (strip path) = Some false
     ∧ is_root_drive fs (strip path) = false
     ∧ path_type = "backup"
     ∧ has_sufficient_depth fs (strip path) 3 = false
     ∧ r = (false, InsufficientDepth, fs))
  ∨ (strip path ≠ "" ∧ is_system_path system fs (strip path) = Some false
     ∧ is_root_drive fs (strip path) = false
     ∧ (path_type = "backup" → has_sufficient_depth fs (strip path) 3 = true)
     ∧ r.1.2 ∈ [ParentNoPermission; ParentCreateError; TargetIsFile; Ok]).
Proof.
  intros r. subst r. unfold validate_path. rewrite blank_test.
  destruct (String.eqb_spec (strip path) "") as [He | He]; [by left |].
  right.
  destruct (is_system_path system fs (strip path)) as [[] |];
    [right; by left | | by left].
  do 2 right.
  destruct (is_root_drive fs (strip path)); [by left |]. right.
  destruct (String.eqb_spec path_type "backup") as [Ht | Ht];
    destruct (has_sufficient_depth fs (strip path) 3) eqn:Hd;
    cbn [andb negb]; [right | by left | right | right].
  all: split_and!; [done .. |].
  all: destruct (if negb (Pathlib.exists_ fs (parent (Path (strip path))))
                 then Pathlib.mkdir fs (parent (Path (strip path)))
                 else (None, fs)) as [[[msg | [] p] |] fs1];
         try destruct (Pathlib.exists_ fs1 _ && Pathlib.is_file fs1 _);
         cbn; rewrite !elem_of_cons; tauto.
Qed.








(** C4, the claim as stated fails: ["/home/user/a"] has four components,
    the root and three names, so the backup role accepts it. *)
Lemma C4_counterexample :
  parts (Pathlib.resolve Samples.fs_home (Path "/home/user/a"))
  = ["/"; "home"; "user"; "a"]
  ∧ validate_path Linux Samples.fs_home "/home/user/a" "backup"
    = (true, Ok, Samples.fs_home)
  ∧ (validate_path Linux Samples.fs_home "/home/user/a" "backup").1
    ≠ (false, InsufficientDepth).
Proof. split_and!; [reflexivity | by vm_compute | by vm_compute]. Qed.

(** C4, amended: the depth rule applies to the backup role only and asks
    for at least 3 components of the resolved path, the root counting as
    one. So ["/home"] (2 components) is refused for a backup and not for
    a source, and ["/home/user/a"] (4 components) gets the same answer
    for both roles: [Ok], wherever [/home/user] exists and
    [/home/user/a] is not a regular file. *)
Theorem C4_depth_policy (system : host) (path path_type : string)
    (fs : Fs.t) :
  ((validate_path system fs path path_type).1 = (false, InsufficientDepth)
   ↔ path_type = "backup" ∧ strip path ≠ ""
     ∧ is_system_path system fs (strip path) = Some false
     ∧ is_root_drive fs (strip path) = false
     ∧ length (parts (Pathlib.resolve fs (Path (strip path)))) < 3)
  ∧ validate_path system fs "/home" "backup" = (false, InsufficientDepth, fs)
  ∧ (validate_path system fs "/home" "source").1 ≠ (false, InsufficientDepth)
  ∧ validate_path system fs "/home/user/a" "backup"
    = validate_path system fs "/home/user/a" "source"
  ∧ (Fs.exists_ fs "/home/user" = true → Fs.isfile fs "/home/user/a" = false →
     validate_path system fs "/home/user/a" "backup" = (true, Ok, fs)
     ∧ validate_path system fs "/home/user/a" "source" = (true, Ok, fs)).
Proof.
  assert (∀ s pt,
    (validate_path system fs s pt).1 = (false, InsufficientDepth)
    ↔ pt = "backup" ∧ strip s ≠ ""
      ∧ is_system_path system fs (strip s) = Some false
      ∧ is_root_drive fs (strip s) = false
      ∧ length (parts (Pathlib.resolve fs (Path (strip s)))) < 3) as Hiff.
  { intros s pt.
    assert (is_system_path system fs (strip s) = Some false → strip s ≠ "" →
            (has_sufficient_depth fs (strip s) 3 = false
             ↔ length (parts (Pathlib.resolve fs (Path (strip s)))) < 3))
      as Hdepth.
    { unfold is_system_path, has_sufficient_depth, truthy.
      intros Hs Hn. destruct (String.eqb_spec (strip s) ""); [done |].
      cbn [negb] in Hs. unfold Pathlib.resolve_opt in *.
      destruct (existsb _ _); [done |]. by rewrite Nat.leb_gt. }
    pose proof (validate_path_cases system s pt fs) as H. cbn zeta in H.
    destruct H as [[He ->] | [(Hn & Hs & ->) | [(Hn & Hs & ->) |
      [(Hn & Hs & Hr & ->) | [(Hn & Hs & Hr & Ht & Hd & ->) |
      (Hn & Hs & Hr & Hd & H)]]]]]; cbn [fst snd].
    - split; [done | by intros (_ & ? & _)].
    - split; [done | intros (_ & _ & ? & _); congruence].
    - split; [done | intros (_ & _ & ? & _); congruence].
    - split; [done | intros (_ & _ & _ & ? & _); congruence].
    - split; [intros _ | done]. split_and!; try done. by apply Hdepth.
    - split.
      + intros Hv.
        destruct (validate_path system fs s pt) as [[b r] f].
        cbn [fst snd] in *. injection Hv as -> ->. elem_absurd.
      + intros (Ht & _ & _ & _ & Hf). specialize (Hd Ht).
        apply Hdepth in Hf; [congruence | done | done]. }
  assert (validate_path system fs "/home" "backup"
          = (false, InsufficientDepth, fs)) as Hhome.
  { by destruct system. }
  assert (∀ pt, Fs.exists_ fs "/home/user" = true →
                Fs.isfile fs "/home/user/a" = false →
                validate_path system fs "/home/user/a" pt = (true, Ok, fs))
    as Hok.
  { intros pt Hex Hf. unfold validate_path.
    change (strip "/home/user/a") with "/home/user/a".
    assert (is_system_path system fs "/home/user/a" = Some false) as ->
      by (by destruct system).
    assert (is_root_drive fs "/home/user/a" = false) as -> by reflexivity.
    assert (has_sufficient_depth fs "/home/user/a" 3 = true) as ->
      by reflexivity.
    cbn [negb]. rewrite andb_false_r. cbn [truthy String.eqb negb orb].
    unfold Pathlib.exists_, Pathlib.is_file.
    change (str (parent (Path "/home/user/a"))) with "/home/user".
    change (str (Path "/home/user/a")) with "/home/user/a".
    rewrite Hex. cbn [negb]. by rewrite Hf, andb_false_r. }
  split_and!.
  - apply Hiff.
  - exact Hhome.
  - rewrite Hiff. by intros [? _].
  - unfold validate_path.
    change (strip "/home/user/a") with "/home/user/a".
    assert (has_sufficient_depth fs "/home/user/a" 3 = true) as ->
      by reflexivity.
    cbn [negb]. by rewrite andb_false_r.
  - intros Hex Hf. split; by apply Hok.
Qed.

Lemma C4_depth_policy_witness :
  Fs.exists_ Samples.fs_home "/home/user" = true
  ∧ Fs.isfile Samples.fs_home "/home/user/a" = false
  ∧ validate_path Linux Samples.fs_home "/home/user/a" "backup"
    = (true, Ok, Samples.fs_home)
  ∧ validate_path Linux Samples.fs_home "/home/user/a" "source"
    = (true, Ok, Samples.fs_home).
Proof.
  assert (Fs.exists_ Samples.fs_home "/home/user" = true) as Hex
    by reflexivity.
  assert (Fs.isfile Samples.fs_home "/home/user/a" = false) as Hf
    by reflexivity.
  split; [exact Hex |]. split; [exact Hf |].
  exact (proj2 (proj2 (proj2 (proj2
           (C4_depth_policy Linux "/home/user/a" "backup" Samples.fs_home))))
           Hex Hf).
Defined.


(** ** The replication engine *)

Import Engine.

(** *** What is raised is an [OSError], the refusal apart *)

Lemma mkdir_fold_raises (s : string) (cs : list string)
    (st : option exn * Fs.t * list string) :
  (∀ e, st.1.1 = Some e → is_oserror e) →
  ∀ e, (fold_left (Fs.mkdir_step s) cs st).1.1 = Some e → is_oserror e.
Proof.
  revert st. induction cs as [|c cs IH]; intros st Hst; [done |].
  cbn [fold_left]. apply IH. intros e.
  destruct st as [[[e0|] fs] l]; cbn [Fs.mkdir_step].
  { apply Hst. }
  destruct (Fs.is_dir_at fs l); cbn [negb].
  2: { cbn. intros [= <-]. by eexists _, _. }
  destruct (_ || _); [done |]. destruct (String.eqb c ".."); [done |].
  destruct (Fs.node_at fs (l ++ [c])) as [[r content | w] |]; cbn.
  - intros [= <-]. by eexists _, _.
  - done.
  - destruct (Fs.writable_at fs l); cbn; [done |].
    intros [= <-]. by eexists _, _.
Qed.

Lemma makedirs_raises (fs fs' : Fs.t) (s : string) (e : exn) :
  Fs.makedirs fs s = (Some e, fs') → is_oserror e.
Proof.
  unfold Fs.makedirs. destruct (String.eqb s "").
  - intros [= <- _]. by eexists _, _.
  - pose proof (mkdir_fold_raises s (split "/" s) (None, fs, Fs.start fs s))
      as Hf.
    destruct (fold_left _ _ _) as [[[e'|] fs''] l'].
    + intros [= <- _]. by apply Hf.
    + destruct (Fs.is_dir_at fs'' l'); [done |].
      intros [= <- _]. by eexists _, _.
Qed.

Lemma for_each_raises (body : st → string → option (option exn * st))
    (xs : list string) (s s' : st) (e : exn) :
  (∀ s0 x s1 e0, x ∈ xs → body s0 x = Some (Some e0, s1) → is_oserror e0) →
  for_each body xs s = Some (Some e, s') → is_oserror e.
Proof.
  revert s. induction xs as [|x xs IH]; intros s Hbody; cbn [for_each].
  - done.
  - destruct (body s x) as [[[e0|] s1]|] eqn:Hb.
    + intros [= -> ->]. eapply Hbody; [left | done].
    + apply IH. intros s0 y s2 e0 Hy. apply Hbody. by right.
    + done.
Qed.

Lemma walk_copy_raises (fuel : nat) (pats : list string) (cb : bool)
    (total : nat) (source final : string) (s s' : st) (root : string)
    (e : exn) :
  walk_copy fuel pats cb total source final s root = Some (Some e, s') →
  is_oserror e.
Proof.
  revert s s' e root.
  induction fuel as [|fuel IH]; intros s s' e root; [done |].
  cbn [walk_copy].
  destruct (Fs.scandir (disk s) root) as [[dirs files]|]; [| done].
  destruct (if negb _ then _ else _) as [[e0|] fs1] eqn:Hmade.
  - intros [= -> _]. destruct (negb _); [| done].
    by eapply makedirs_raises.
  - intros H. eapply for_each_raises; [| exact H].
    intros s0 x s1 e0 _. apply IH.
Qed.

(** The only plain [Exception] that [copy_directory] raises is the refusal
    to overwrite: it comes with the answer no to the question asked for a
    runtime directory that exists and is not empty, and nothing has been
    changed then. *)
Lemma copy_directory_raises_Exception (fuel : nat) (now : Datetime.t)
    (decision : bool) (fs fs' : Fs.t) (source destination excl : string)
    (cb : bool) (operation_type msg : string) (tr : list event) :
  copy_directory fuel now decision fs source destination excl cb operation_type
  = Some (Raise (Exception msg), fs', tr) →
  msg = declined_message ∧ decision = false ∧ operation_type ≠ "backup"
  ∧ fs' = fs ∧ tr = [EvAsk] ∧ Fs.exists_ fs destination = true
  ∧ ∃ x l, Fs.listdir fs destination = Return (x :: l).
Proof.
  unfold copy_directory, prepare.
  destruct (String.eqb_spec operation_type "backup") as [Hop | Hop].
  - destruct (Fs.makedirs _ _) as [[e|] fs2] eqn:Hm.
    + intros [= -> _ _]. by destruct (makedirs_raises _ _ _ _ Hm) as (? & ? & ?).
    + destruct (count_files _ _ _); [| done].
      destruct (walk_copy _ _ _ _ _ _ _ _) as [[[e|] s']|] eqn:Hw; [| done ..].
      intros [= -> _ _]. by destruct (walk_copy_raises _ _ _ _ _ _ _ _ _ _ Hw) as (? & ? & ?).
  - assert (∀ final fs1 tr1,
      match Fs.makedirs fs1 final with
      | (Some e, fs2) => Some (Raise e, fs2, tr1)
      | (None, fs2) =>
          match count_files fuel fs2 source with
          | Some total_files =>
              match walk_copy fuel (parse_exclude_patterns excl) cb total_files
                      source final
                      {| disk := fs2; copied_files := 0; trace := tr1 |} source with
              | Some (Some e, s) => Some (Raise e, disk s, trace s)
              | Some (None, s) => Some (Return (copied_files s, final), disk s, trace s)
              | None => None
              end
          | None => None
          end
      end ≠ Some (Raise (Exception msg), fs', tr)) as Hrest.
    { intros final fs1 tr1.
      destruct (Fs.makedirs _ _) as [[e|] fs2] eqn:Hm.
      + intros [= -> _ _]. by destruct (makedirs_raises _ _ _ _ Hm) as (? & ? & ?).
      + destruct (count_files _ _ _); [| done].
        destruct (walk_copy _ _ _ _ _ _ _ _) as [[[e|] s']|] eqn:Hw; [| done ..].
        intros [= -> _ _].
        by destruct (walk_copy_raises _ _ _ _ _ _ _ _ _ _ Hw) as (? & ? & ?). }
    destruct (Fs.exists_ fs destination) eqn:Hex; [| intros H; by apply Hrest in H].
    destruct (Fs.listdir fs destination) as [[|x l] | e] eqn:Hl.
    + intros H; by apply Hrest in H.
    + destruct decision; cbn [negb].
      * destruct (Fs.rmtree fs destination) as [fs1 | e] eqn:Hrm.
        -- intros H; by apply Hrest in H.
        -- intros [= -> _ _]. revert Hrm. unfold Fs.rmtree.
           repeat case_match; congruence.
      * intros [= <- <- <-]. split_and!; try done. by exists x, l.
    + intros [= -> _ _]. revert Hl. unfold Fs.listdir.
      repeat case_match; congruence.
Qed.

(** C1: when a deployment finds its destination existing and not empty
    and the answer to the question is no, the call raises the refusal, a
    plain [Exception] and no [OSError], and leaves the file system as it
    was, whatever the fuel. No other call raises a plain [Exception]. *)
Theorem C1_declined_deploy (fuel : nat) (now : Datetime.t) (fs : Fs.t)
    (source destination excl : string) (cb : bool) (operation_type : string) :
  operation_type ≠ "backup" →
  Fs.exists_ fs destination = true →
  (∃ x l, Fs.listdir fs destination = Return (x :: l)) →
  copy_directory fuel now false fs source destination excl cb operation_type
  = Some (Raise (Exception declined_message), fs, [EvAsk])
  ∧ ¬ is_oserror (Exception declined_message)
  ∧ (∀ fuel' now' decision' fs0 fs' source' destination' excl' cb'
       operation_type' msg tr,
       copy_directory fuel' now' decision' fs0 source' destination' excl' cb'
         operation_type' = Some (Raise (Exception msg), fs', tr) →
       msg = declined_message ∧ decision' = false ∧ fs' = fs0).
Proof.
  intros Hop Hex (x & l & Hl). split_and!.
  - unfold copy_directory, prepare.
    destruct (String.eqb_spec operation_type "backup") as [? | _]; [done |].
    by rewrite Hex, Hl.
  - by intros (? & ? & ?).
  - intros * H. apply copy_directory_raises_Exception in H. tauto.
Qed.

Lemma C1_declined_deploy_witness :
  copy_directory 0 Samples.now1 false Samples.fs_runtime "/home/u/proj"
    "/home/u/run" "" true "runtime"
  = Some (Raise (Exception declined_message), Samples.fs_runtime, [EvAsk]).
Proof.
  apply (C1_declined_deploy 0 Samples.now1 Samples.fs_runtime "/home/u/proj"
           "/home/u/run" "" true "runtime").
  - done.
  - reflexivity.
  - exists "old.txt", []. reflexivity.
Defined.

(** *** Counting and progress *)

Lemma copied_count_app (a b : list event) :
  copied_count (a ++ b) = copied_count a + copied_count b.
Proof. unfold copied_count. by rewrite List.filter_app, length_app. Qed.

Lemma accounted_refl (cb : bool) (total : nat) (s : st) :
  accounted cb total s s.
Proof.
  exists []. rewrite app_nil_r. cbn. split_and!; [done | lia | by destruct cb].
Qed.

Lemma accounted_trans (cb : bool) (total : nat) (s1 s2 s3 : st) :
  accounted cb total s1 s2 → accounted cb total s2 s3 →
  accounted cb total s1 s3.
Proof.
  intros (n1 & Ht1 & Hc1 & Hp1) (n2 & Ht2 & Hc2 & Hp2).
  exists (n1 ++ n2). split_and!.
  - by rewrite Ht2, Ht1, app_assoc.
  - rewrite Hc2, Hc1, copied_count_app. lia.
  - unfold progress_calls in *. rewrite omap_app, Hp1, Hp2, copied_count_app.
    destruct cb; [| done].
    rewrite seq_app, List.map_app. do 3 f_equal. lia.
Qed.

Lemma copy_one_accounted (pats : list string) (cb : bool) (total : nat)
    (root dest_dir : string) (s : st) (file : string) :
  accounted cb total s (copy_one pats cb total root dest_dir s file).
Proof.
  unfold copy_one. destruct (should_exclude _ _); cbn [negb].
  { apply accounted_refl. }
  destruct (Shutil.copy2 _ _ _) as [fs' | e]; eexists; cbn [trace copied_files];
    (split; [reflexivity |]); destruct cb; cbn; (split; [lia | done]).
Qed.

Lemma copy_files_accounted (pats : list string) (cb : bool) (total : nat)
    (root dest_dir : string) (files : list string) (s : st) :
  accounted cb total s
    (fold_left (copy_one pats cb total root dest_dir) files s).
Proof.
  revert s. induction files as [|f files IH]; intros s; cbn [fold_left].
  - apply accounted_refl.
  - eapply accounted_trans; [apply copy_one_accounted | apply IH].
Qed.

Lemma for_each_accounted (cb : bool) (total : nat)
    (body : st → string → option (option exn * st)) (xs : list string)
    (s s' : st) (e : option exn) :
  (∀ s0 x e0 s1, body s0 x = Some (e0, s1) → accounted cb total s0 s1) →
  for_each body xs s = Some (e, s') → accounted cb total s s'.
Proof.
  intros Hbody. revert s.
  induction xs as [|x xs IH]; intros s; cbn [for_each].
  - intros [= _ <-]. apply accounted_refl.
  - destruct (body s x) as [[[e0|] s1]|] eqn:Hb; [| | done].
    + intros [= _ <-]. by eapply Hbody.
    + intros H. eapply accounted_trans; [by eapply Hbody | by apply IH].
Qed.

Lemma walk_copy_accounted (fuel : nat) (pats : list string) (cb : bool)
    (total : nat) (source final : string) (s s' : st) (root : string)
    (e : option exn) :
  walk_copy fuel pats cb total source final s root = Some (e, s') →
  accounted cb total s s'.
Proof.
  revert s s' e root.
  induction fuel as [|fuel IH]; intros s s' e root; [done |].
  cbn [walk_copy].
  destruct (Fs.scandir (disk s) root) as [[dirs files]|].
  2: { intros [= _ <-]. apply accounted_refl. }
  destruct (if negb _ then _ else _) as [[e0|] fs1].
  - intros [= _ <-]. exists []. rewrite app_nil_r. cbn.
    split_and!; [done | lia | by destruct cb].
  - intros H. eapply accounted_trans.
    2: { eapply for_each_accounted; [| exact H].
         intros s0 x e0 s1. apply IH. }
    eapply accounted_trans; [| apply copy_files_accounted].
    exists []. rewrite app_nil_r. cbn.
    split_and!; [done | lia | by destruct cb].
Qed.



(** C6, the part the program gets wrong: the total passed to the callback
    counts the excluded files too. The project holds four files, two of
    them below excluded directories; the callback is told 4, where the
    files to copy are 2. *)
Theorem C6_total_counts_excluded_files :
  (∃ fs',
     copy_directory 5 Samples.now1 false Samples.fs_project
       "/home/u/proj" "/home/u/bk" "" true "backup"
     = Some (Return (2, "/home/u/bk/proj_20240517_090359"), fs',
             [EvCopied "/home/u/proj/a.txt"
                "/home/u/bk/proj_20240517_090359/a.txt";
              EvProgress 1 4;
              EvCopied "/home/u/proj/b/c.txt"
                "/home/u/bk/proj_20240517_090359/b/c.txt";
              EvProgress 2 4]))
  ∧ count_files 5 Samples.fs_project "/home/u/proj" = Some 4
  ∧ ReplicateSpec.count_eligible 5 (parse_exclude_patterns "")
      Samples.fs_project "/home/u/proj" = Some 2.
Proof. split_and!; [eexists; vm_compute; reflexivity | done | done]. Qed.

(** *** Names *)

Lemma names_ok_spec (fs : Fs.t) :
  Fs.names_ok fs = true
  ↔ forallb Fs.valid_name (Fs.cwd fs) = true
    ∧ ∀ loc n, Fs.nodes fs !! loc = Some n → forallb Fs.valid_name loc = true.
Proof.
  unfold Fs.names_ok. rewrite andb_true_iff.
  split; intros [Hc Hn]; (split; [done |]).
  - intros loc n Hl. rewrite forallb_forall in Hn. apply (Hn (loc, n)).
    by apply list_elem_of_In, elem_of_map_to_list.
  - apply forallb_forall. intros [loc n] Hin.
    apply list_elem_of_In, elem_of_map_to_list in Hin. by apply (Hn loc n).
Qed.

Lemma valid_name_no_slash (c : string) :
  Fs.valid_name c = true → startswith c "/" = false.
Proof.
  unfold Fs.valid_name. rewrite !andb_true_iff, !negb_true_iff.
  intros [_ Hs]. destruct c as [|a c]; [done |].
  cbn in Hs. apply orb_false_iff in Hs as [Ha _].
  cbn. by rewrite Ha.
Qed.

Lemma valid_name_split (c : string) :
  Fs.valid_name c = true → split "/" c = [c] ∧ keep_component c = true.
Proof.
  unfold Fs.valid_name, keep_component.
  rewrite !andb_true_iff, !negb_true_iff.
  intros [[[H1 H2] _] Hs]. split; [by apply split_no_sep |].
  by rewrite H1, H2.
Qed.

(** A piece of a split that is not empty, ["."] or [".."] is a valid name. *)
Lemma split_piece_valid (s c : string) :
  c ∈ split "/" s →
  String.eqb c "" || String.eqb c "." = false → String.eqb c ".." = false →
  Fs.valid_name c = true.
Proof.
  intros Hin [H1 H2]%orb_false_iff H3. unfold Fs.valid_name.
  by rewrite H1, H2, H3, (split_pieces_no_sep _ _ _ Hin).
Qed.

Lemma forallb_removelast {A} (f : A → bool) (l : list A) :
  forallb f l = true → forallb f (removelast l) = true.
Proof.
  induction l as [|x l IH]; [done |].
  destruct l as [|y l]; [done |].
  change (removelast (x :: y :: l)) with (x :: removelast (y :: l)).
  cbn [forallb]. intros [Hx Hl]%andb_true_iff.
  apply andb_true_iff. split; [done | by apply IH].
Qed.

Lemma forallb_snoc {A} (f : A → bool) (l : list A) (x : A) :
  forallb f (l ++ [x]) = forallb f l && f x.
Proof. rewrite forallb_app. cbn. by rewrite andb_true_r. Qed.

Lemma start_valid (fs : Fs.t) (s : string) :
  Fs.names_ok fs = true → forallb Fs.valid_name (Fs.start fs s) = true.
Proof.
  intros [Hc _]%names_ok_spec. unfold Fs.start. by destruct (startswith s "/").
Qed.

Lemma set_node_names_ok (fs : Fs.t) (loc : list string) (n : Fs.node) :
  Fs.names_ok fs = true → forallb Fs.valid_name loc = true →
  Fs.names_ok (Fs.set_node loc n fs) = true.
Proof.
  rewrite !names_ok_spec. intros [Hc Hn] Hloc. split; [done |].
  intros k m. cbn. rewrite lookup_insert. case_decide as Hk.
  - by subst.
  - apply Hn.
Qed.

(** [os.makedirs] keeps the names valid, whether it succeeds or not. *)
Lemma mkdir_fold_names_ok (s : string) (cs : list string)
    (st : option exn * Fs.t * list string) :
  (∀ c, c ∈ cs → c ∈ split "/" s) →
  Fs.names_ok st.1.2 = true → forallb Fs.valid_name st.2 = true →
  Fs.names_ok (fold_left (Fs.mkdir_step s) cs st).1.2 = true.
Proof.
  revert st. induction cs as [|c cs IH]; intros st Hcs Hok Hl; [done |].
  cbn [fold_left].
  assert (∀ c', c' ∈ cs → c' ∈ split "/" s) as Hcs'
    by (intros c' Hc'; apply Hcs; by right).
  destruct st as [[[e|] fs] l]; cbn [fst snd] in *.
  { by apply IH. }
  cbn [Fs.mkdir_step].
  destruct (Fs.is_dir_at fs l); cbn [negb]; [| by apply IH].
  destruct (String.eqb c "" || String.eqb c ".") eqn:H1; [by apply IH |].
  destruct (String.eqb c "..") eqn:H2.
  { apply IH; [done | done |]. by apply forallb_removelast. }
  assert (forallb Fs.valid_name (l ++ [c]) = true) as Hlc.
  { rewrite forallb_snoc, Hl. cbn.
    eapply split_piece_valid; [apply Hcs; by left | done ..]. }
  destruct (Fs.node_at fs (l ++ [c])) as [[r content | w] |].
  - by apply IH.
  - by apply IH.
  - destruct (Fs.writable_at fs l); apply IH; try done.
    by apply set_node_names_ok.
Qed.

Lemma makedirs_names_ok (fs fs' : Fs.t) (s : string) (e : option exn) :
  Fs.names_ok fs = true → Fs.makedirs fs s = (e, fs') →
  Fs.names_ok fs' = true.
Proof.
  intros Hok. unfold Fs.makedirs. destruct (String.eqb s "").
  - by intros [= _ <-].
  - intros H.
    pose proof (mkdir_fold_names_ok s (split "/" s) (None, fs, Fs.start fs s)
                  (λ _ H, H) Hok (start_valid _ _ Hok)) as Hres.
    destruct (fold_left _ _ _) as [[[e'|] fs''] l']; cbn in Hres.
    + by injection H as _ <-.
    + destruct (Fs.is_dir_at fs'' l'); by injection H as _ <-.
Qed.

Lemma rmtree_names_ok (fs fs' : Fs.t) (s : string) :
  Fs.names_ok fs = true → Fs.rmtree fs s = Return fs' →
  Fs.names_ok fs' = true.
Proof.
  rewrite !names_ok_spec. intros [Hc Hn]. unfold Fs.rmtree.
  repeat case_match; try done. intros [= <-]. split; [done |].
  intros k m. cbn. rewrite map_lookup_filter_Some. intros [Hl _].
  by eapply Hn.
Qed.

Lemma prepare_names_ok (now : Datetime.t) (decision : bool) (fs fs' : Fs.t)
    (source destination operation_type : string) (r : result string)
    (tr : list event) :
  Fs.names_ok fs = true →
  prepare now decision fs source destination operation_type = (r, fs', tr) →
  Fs.names_ok fs' = true.
Proof.
  intros Hok. unfold prepare.
  destruct (String.eqb operation_type "backup"); [by intros [= _ <- _] |].
  destruct (Fs.exists_ fs destination); [| by intros [= _ <- _]].
  destruct (Fs.listdir fs destination) as [[|x l] | e];
    [by intros [= _ <- _] | | by intros [= _ <- _]].
  destruct decision; cbn [negb]; [| by intros [= _ <- _]].
  destruct (Fs.rmtree fs destination) as [fs1 | e] eqn:Hrm;
    [| by intros [= _ <- _]].
  intros [= _ <- _]. by eapply rmtree_names_ok.
Qed.

(** The names that [os.scandir] lists are valid. *)
Lemma entries_valid (fs : Fs.t) (loc : list string) (e : string * Fs.node) :
  Fs.names_ok fs = true → e ∈ Fs.entries fs loc → Fs.valid_name e.1 = true.
Proof.
  intros [_ Hn]%names_ok_spec. unfold Fs.entries.
  rewrite list_elem_of_omap. intros ([k n] & Hin & He).
  apply elem_of_map_to_list in Hin. unfold Fs.entry_of in He. cbn in He.
  case_bool_decide as Hk; [| done]. injection He as <-. cbn.
  specialize (Hn k n Hin). rewrite Hk, forallb_snoc in Hn.
  by apply andb_true_iff in Hn as [_ ?].
Qed.

Lemma scandir_valid (fs : Fs.t) (s : string) (dirs files : list string) :
  Fs.names_ok fs = true → Fs.scandir fs s = Some (dirs, files) →
  (∀ d, d ∈ dirs → Fs.valid_name d = true)
  ∧ (∀ f, f ∈ files → Fs.valid_name f = true).
Proof.
  intros Hok. unfold Fs.scandir.
  destruct (Fs.locate fs s) as [loc|]; [| done].
  destruct (Fs.is_dir_at fs loc); [| done]. intros [= <- <-].
  split; intros x; rewrite list_elem_of_fmap; intros ([y n] & -> & Hin);
    apply list_elem_of_In, filter_In in Hin as [Hin _];
    apply list_elem_of_In in Hin; by apply (entries_valid fs loc (y, n)).
Qed.

(** *** Paths built by the walk keep the segments of the root *)

Lemma startswith_nil (s : string) : startswith s "" = true.
Proof. by destruct s. Qed.

Lemma splitroot_app (a b : string) :
  a ≠ "" → endswith a "/" = false ∨ startswith b "/" = false →
  splitroot (a +:+ b) = splitroot a.
Proof.
  intros Ha Hor. unfold splitroot.
  destruct a as [|c1 a]; [done |]. clear Ha.
  destruct (Ascii.eqb_spec c1 "/") as [-> | Hc1].
  2: { cbn. by destruct (Ascii.eqb c1 "/") eqn:E;
         [apply Ascii.eqb_eq in E |]. }
  destruct a as [|c2 a].
  { destruct Hor as [H | H]; [done |].
    destruct b as [|x b]; [done |]. cbn in *.
    rewrite startswith_nil, andb_true_r in *. by rewrite H. }
  destruct (Ascii.eqb_spec c2 "/") as [-> | Hc2].
  2: { cbn. by destruct (Ascii.eqb c2 "/") eqn:E;
         [apply Ascii.eqb_eq in E |]. }
  destruct a as [|c3 a].
  2: { cbn. by rewrite !startswith_nil. }
  destruct Hor as [H | H]; [done |].
  destruct b as [|x b]; [done |]. cbn in *.
  rewrite !startswith_nil, ?andb_true_r in *. by rewrite H.
Qed.

Lemma filter_keep_snoc_empty (l : list string) :
  List.filter keep_component (l ++ [""]) = List.filter keep_component l.
Proof. rewrite List.filter_app. cbn. apply app_nil_r. Qed.

(** The segments of a directory are segments of every path made by
    joining a valid name to it. *)
Lemma parts_join (root name : string) :
  Fs.valid_name name = true →
  parts (Path root) ⊆ parts (Path (OsPath.join root name)).
Proof.
  intros Hv. pose proof (valid_name_no_slash _ Hv) as Hns.
  destruct (valid_name_split _ Hv) as [Hsp Hk].
  destruct (String.eqb_spec root "") as [-> | Hne].
  { intros x Hx. by apply elem_of_nil in Hx. }
  unfold OsPath.join. rewrite Hns.
  destruct (String.eqb_spec root "") as [? | _]; [done |]. cbn [orb].
  assert (∀ joined,
    splitroot joined = splitroot root →
    (∃ pre, List.filter keep_component (split "/" joined)
            = List.filter keep_component (split "/" root) ++ pre) →
    parts (Path root) ⊆ parts (Path joined)) as Hgen.
  { intros joined Hr [pre Hc] x. unfold parts, Path. cbn [PurePath.root comps].
    rewrite Hr, Hc. destruct (String.eqb (splitroot root) "").
    - intros Hx. apply elem_of_app. by left.
    - intros [-> | Hx]%elem_of_cons; [by left |].
      right. apply elem_of_app. by left. }
  destruct (endswith root "/") eqn:Hend.
  - apply Hgen.
    + apply splitroot_app; [done | by right].
    + apply endswith_spec in Hend as [pre ->].
      rewrite append_assoc. change ("/" +:+ name) with (String "/" name).
      change (pre +:+ "/") with (pre +:+ String "/" "").
      rewrite !split_app, Hsp. change (split "/" "") with [""].
      rewrite filter_keep_snoc_empty. exists [name].
      rewrite List.filter_app. cbn. by rewrite Hk.
  - apply Hgen.
    + change (root +:+ "/" +:+ name) with (root +:+ (String "/" name)).
      apply splitroot_app; [done | by left].
    + change (root +:+ "/" +:+ name) with (root +:+ (String "/" name)).
      rewrite split_app, Hsp. exists [name].
      rewrite List.filter_app. cbn. by rewrite Hk.
Qed.

Lemma should_exclude_below (root name pattern : string) (pats : list string) :
  Fs.valid_name name = true → pattern ∈ pats → pattern ∈ parts (Path root) →
  should_exclude (OsPath.join root name) pats = true.
Proof.
  intros Hv Hp Hseg. apply should_exclude_iff. exists pattern.
  split; [done |]. left. by apply (parts_join root name Hv).
Qed.

Lemma common_prefix_len_refl (l : list string) :
  OsPath.common_prefix_len l l = length l.
Proof.
  induction l as [|x l IH]; [done |]. cbn. by rewrite String.eqb_refl, IH.
Qed.

Lemma relpath_self (fs : Fs.t) (s : string) : OsPath.relpath fs s s = ".".
Proof.
  unfold OsPath.relpath. rewrite common_prefix_len_refl, Nat.sub_diag.
  cbn [replicate app]. by rewrite drop_all.
Qed.

Lemma filter_none {A} (f : A → bool) (l : list A) :
  (∀ x, x ∈ l → f x = false) → List.filter f l = [].
Proof.
  induction l as [|x l IH]; intros H; [done |]. cbn.
  rewrite (H x) by (by left). apply IH. intros y Hy. apply H. by right.
Qed.

(** When a segment of the source path is a pattern, the walk copies
    nothing and enters no sub-directory. *)
Lemma walk_copy_all_excluded (fuel : nat) (pats : list string) (cb : bool)
    (total : nat) (source final pattern : string) (s s' : st)
    (e : option exn) :
  Fs.names_ok (disk s) = true →
  pattern ∈ pats → pattern ∈ parts (Path source) →
  walk_copy fuel pats cb total source final s source = Some (e, s') →
  copied_files s' = copied_files s ∧ trace s' = trace s.
Proof.
  intros Hok Hp Hseg. destruct fuel as [|fuel]; [done |]. cbn [walk_copy].
  destruct (Fs.scandir (disk s) source) as [[dirs files]|] eqn:Hscan.
  2: { by intros [= _ <-]. }
  destruct (scandir_valid _ _ _ _ Hok Hscan) as [Hdirs Hfiles].
  rewrite (filter_none _ dirs).
  2: { intros d Hd. apply negb_false_iff.
       eapply should_exclude_below; [by apply Hdirs | done ..]. }
  rewrite relpath_self. cbn [String.eqb Ascii.eqb Bool.eqb negb].
  destruct (if negb _ then _ else _) as [[e0|] fs1].
  { by intros [= _ <-]. }
  cbn [for_each]. intros [= _ <-].
  assert (∀ s0, fold_left (copy_one pats cb total source final) files s0 = s0)
    as ->; [| done].
  clear Hscan. induction files as [|f files IH]; intros s0; [done |].
  cbn [fold_left]. unfold copy_one at 2.
  rewrite (should_exclude_below source f pattern pats);
    [| apply Hfiles; by left | done | done].
  cbn [negb]. apply IH. intros f' Hf'. apply Hfiles. by right.
Qed.

(** C10, the claim as stated fails: the patterns are matched against the
    source path as it was passed, not against its absolute form. A
    project passed as ["proj"] is copied although the working directory,
    and so the absolute path of the project, lies below [bin]. *)
Lemma C10_counterexample :
  "bin" ∈ exclude_defaults
  ∧ "bin" ∈ parts (Pathlib.resolve Samples.fs_bin (Path "proj"))
  ∧ ∃ fs',
      copy_directory 5 Samples.now1 false Samples.fs_bin "proj" "/home/u/bk"
        "" true "backup"
      = Some (Return (1, "/home/u/bk/proj_20240517_090359"), fs',
              [EvCopied "proj/a.txt" "/home/u/bk/proj_20240517_090359/a.txt";
               EvProgress 1 1]).
Proof.
  split_and!; [compute_done | compute_done |].
  eexists. vm_compute. reflexivity.
Qed.

(** *** Time stamps *)

Section Timestamps.
Local Open Scope N_scope.
Import Datetime.









End Timestamps.

(** *** What a run keeps: nothing is removed outside [shutil.rmtree] *)

Lemma extends_refl (fs : Fs.t) : Fs.extends fs fs.
Proof. split; [done |]. intros loc n H. by exists n. Qed.

Lemma extends_trans (fs1 fs2 fs3 : Fs.t) :
  Fs.extends fs1 fs2 → Fs.extends fs2 fs3 → Fs.extends fs1 fs3.
Proof.
  intros [Hc1 H1] [Hc2 H2]. split; [congruence |].
  intros loc n Hn. destruct (H1 loc n Hn) as (n' & Hn' & Hk).
  destruct (H2 loc n' Hn') as (n'' & Hn'' & Hk'). exists n''.
  split; [done | congruence].
Qed.

Lemma is_dir_at_extends (fs fs' : Fs.t) (loc : list string) :
  Fs.extends fs fs' → Fs.is_dir_at fs loc = true → Fs.is_dir_at fs' loc = true.
Proof.
  intros [_ H]. unfold Fs.is_dir_at.
  destruct (Fs.node_at fs loc) as [[r c | w] |] eqn:Hn; [done | | done].
  destruct (H loc _ Hn) as ([r c | w'] & -> & Hk); done.
Qed.

Lemma node_at_set_node (fs : Fs.t) (k loc : list string) (n : Fs.node) :
  Fs.node_at (Fs.set_node k n fs) loc
  = if decide (k = loc ∧ loc ≠ []) then Some n else Fs.node_at fs loc.
Proof.
  unfold Fs.node_at. destruct loc as [|x loc].
  - case_decide as H; [by destruct H | done].
  - cbn. rewrite lookup_insert. case_decide as H1; case_decide as H2; try done.
    + destruct H2. by split.
    + by destruct H2.
Qed.

(** Storing a node where there is none, or one of the same kind, removes
    nothing. *)
Lemma set_node_extends (fs : Fs.t) (k : list string) (n : Fs.node) :
  (∀ m, Fs.node_at fs k = Some m → Fs.is_dir_node m = Fs.is_dir_node n) →
  Fs.extends fs (Fs.set_node k n fs).
Proof.
  intros Hk. split; [done |]. intros loc m Hm. rewrite node_at_set_node.
  case_decide as H.
  - destruct H as [-> _]. exists n. split; [done |]. symmetry. by apply Hk.
  - by exists m.
Qed.

Lemma step_extends (fs fs' : Fs.t) (cur : option (list string)) (c : string)
    (l : list string) :
  Fs.extends fs fs' → Fs.step fs cur c = Some l → Fs.step fs' cur c = Some l.
Proof.
  intros Hext. unfold Fs.step. destruct cur as [l0|]; [| done].
  destruct (Fs.is_dir_at fs l0) eqn:Hd; [| done].
  by rewrite (is_dir_at_extends _ _ _ Hext Hd).
Qed.



Lemma start_extends (fs fs' : Fs.t) (s : string) :
  Fs.extends fs fs' → Fs.start fs' s = Fs.start fs s.
Proof. intros [Hc _]. unfold Fs.start. by rewrite Hc. Qed.



Lemma mkdir_fold_error (s : string) (cs : list string) (e : exn) (fs : Fs.t)
    (l : list string) :
  fold_left (Fs.mkdir_step s) cs (Some e, fs, l) = (Some e, fs, l).
Proof. by induction cs. Qed.

(** [os.makedirs] removes nothing, and where it ends well the path it
    walked leads, in the file system it leaves, to the location it
    reached. *)
Lemma mkdir_fold_extends (s : string) (cs : list string) (fs fs' : Fs.t)
    (l l' : list string) (e : option exn) :
  fold_left (Fs.mkdir_step s) cs (None, fs, l) = (e, fs', l') →
  Fs.extends fs fs'
  ∧ (e = None → fold_left (Fs.step fs') cs (Some l) = Some l').
Proof.
  revert fs l. induction cs as [|c cs IH]; intros fs l.
  { intros [= <- <- <-]. split; [apply extends_refl | done]. }
  cbn [fold_left]. cbn [Fs.mkdir_step].
  destruct (Fs.is_dir_at fs l) eqn:Hdir; cbn [negb].
  2: { rewrite mkdir_fold_error. intros [= <- <- _].
       split; [apply extends_refl | done]. }
  assert (∀ fs1 l1,
    Fs.extends fs fs1 →
    Fs.step fs1 (Some l) c = Some l1 →
    fold_left (Fs.mkdir_step s) cs (None, fs1, l1) = (e, fs', l') →
    Fs.extends fs fs'
    ∧ (e = None → fold_left (Fs.step fs') (c :: cs) (Some l) = Some l'))
    as Hgo.
  { intros fs1 l1 Hext Hstep Hfold.
    destruct (IH _ _ Hfold) as [Hext' Hloc].
    split; [by eapply extends_trans |].
    intros He. cbn [fold_left].
    rewrite (step_extends _ _ _ _ _ Hext' Hstep). by apply Hloc. }
  assert (∀ l1, (if String.eqb c "" || String.eqb c "." then Some l
                 else if String.eqb c ".." then Some (removelast l)
                 else Some (l ++ [c])) = Some l1 →
          ∀ fs1, Fs.extends fs fs1 → Fs.step fs1 (Some l) c = Some l1)
    as Hstep.
  { intros l1 H fs1 Hext. cbn [Fs.step].
    by rewrite (is_dir_at_extends _ _ _ Hext Hdir). }
  destruct (String.eqb c "" || String.eqb c ".") eqn:H1.
  { apply Hgo; [apply extends_refl | by apply Hstep; [| apply extends_refl]]. }
  destruct (String.eqb c "..") eqn:H2.
  { apply Hgo; [apply extends_refl | by apply Hstep; [| apply extends_refl]]. }
  destruct (Fs.node_at fs (l ++ [c])) as [[r content | w] |] eqn:Hn.
  - rewrite mkdir_fold_error. intros [= <- <- _].
    split; [apply extends_refl | done].
  - apply Hgo; [apply extends_refl | by apply Hstep; [| apply extends_refl]].
  - destruct (Fs.writable_at fs l).
    + assert (Fs.extends fs (Fs.set_node (l ++ [c]) (Fs.Dir true) fs)) as Hext.
      { apply set_node_extends. intros m. by rewrite Hn. }
      apply Hgo; [done | by apply Hstep].
    + rewrite mkdir_fold_error. intros [= <- <- _].
      split; [apply extends_refl | done].
Qed.

Lemma makedirs_extends (fs fs' : Fs.t) (s : string) (e : option exn) :
  Fs.makedirs fs s = (e, fs') → Fs.extends fs fs'.
Proof.
  unfold Fs.makedirs. destruct (String.eqb s "").
  { intros [= _ <-]. apply extends_refl. }
  destruct (fold_left _ _ _) as [[e' fs1] l1] eqn:Hf.
  apply mkdir_fold_extends in Hf as [Hext _].
  destruct e'; [by intros [= _ <-] |].
  destruct (Fs.is_dir_at fs1 l1); by intros [= _ <-].
Qed.

(** Where [os.makedirs] ends well, the path is a directory. *)
Lemma makedirs_isdir (fs fs' : Fs.t) (s : string) :
  Fs.makedirs fs s = (None, fs') → Fs.isdir fs' s = true.
Proof.
  unfold Fs.makedirs, Fs.isdir, Fs.stat, Fs.locate.
  destruct (String.eqb s ""); [done |].
  destruct (fold_left _ _ _) as [[e' fs1] l1] eqn:Hf.
  pose proof (mkdir_fold_extends _ _ _ _ _ _ _ Hf) as [Hext Hloc].
  destruct e'; [done |].
  destruct (Fs.is_dir_at fs1 l1) eqn:Hd; [| done]. intros [= <-].
  rewrite (start_extends _ _ _ Hext), (Hloc eq_refl).
  unfold Fs.is_dir_at in Hd. by destruct (Fs.node_at fs1 l1) as [[]|].
Qed.

Lemma write_file_extends (fs fs' : Fs.t) (s content : string) :
  Fs.write_file fs s content = Return fs' → Fs.extends fs fs'.
Proof.
  unfold Fs.write_file. destruct (Fs.locate fs s) as [loc|]; [| done].
  destruct (Fs.node_at fs loc) as [[r c | w] |] eqn:Hn; [| done |].
  - intros [= <-]. apply set_node_extends. intros m. rewrite Hn.
    by intros [= <-].
  - destruct (Fs.writable_at fs (removelast loc)); [| done].
    intros [= <-]. apply set_node_extends. intros m. by rewrite Hn.
Qed.

Lemma copy2_extends (fs fs' : Fs.t) (src dst : string) :
  Shutil.copy2 fs src dst = Return fs' → Fs.extends fs fs'.
Proof.
  unfold Shutil.copy2. destruct (OsPath.samefile _ _ _); [done |].
  destruct (Fs.stat fs src) as [[[] c | w] |]; try done.
  apply write_file_extends.
Qed.

Lemma copy_one_extends (pats : list string) (cb : bool) (total : nat)
    (root dest_dir : string) (s : st) (file : string) :
  Fs.extends (disk s) (disk (copy_one pats cb total root dest_dir s file)).
Proof.
  unfold copy_one. destruct (should_exclude _ _); cbn [negb].
  { apply extends_refl. }
  destruct (Shutil.copy2 _ _ _) as [fs' | e] eqn:Hc; cbn [disk].
  - by eapply copy2_extends.
  - apply extends_refl.
Qed.

Lemma copy_files_extends (pats : list string) (cb : bool) (total : nat)
    (root dest_dir : string) (files : list string) (s : st) :
  Fs.extends (disk s)
    (disk (fold_left (copy_one pats cb total root dest_dir) files s)).
Proof.
  revert s. induction files as [|f files IH]; intros s; cbn [fold_left].
  - apply extends_refl.
  - eapply extends_trans; [apply copy_one_extends | apply IH].
Qed.

Lemma for_each_extends (body : st → string → option (option exn * st))
    (xs : list string) (s s' : st) (e : option exn) :
  (∀ s0 x e0 s1, body s0 x = Some (e0, s1) → Fs.extends (disk s0) (disk s1)) →
  for_each body xs s = Some (e, s') → Fs.extends (disk s) (disk s').
Proof.
  intros Hbody. revert s.
  induction xs as [|x xs IH]; intros s; cbn [for_each].
  - intros [= _ <-]. apply extends_refl.
  - destruct (body s x) as [[[e0|] s1]|] eqn:Hb; [| | done].
    + intros [= _ <-]. by eapply Hbody.
    + intros H. eapply extends_trans; [by eapply Hbody | by apply IH].
Qed.

(** The copy loop removes nothing. *)
Lemma walk_copy_extends (fuel : nat) (pats : list string) (cb : bool)
    (total : nat) (source final : string) (s s' : st) (root : string)
    (e : option exn) :
  walk_copy fuel pats cb total source final s root = Some (e, s') →
  Fs.extends (disk s) (disk s').
Proof.
  revert s s' e root.
  induction fuel as [|fuel IH]; intros s s' e root; [done |].
  cbn [walk_copy].
  destruct (Fs.scandir (disk s) root) as [[dirs files]|].
  2: { intros [= _ <-]. apply extends_refl. }
  destruct (if negb _ then _ else _) as [e0 fs1] eqn:Hmade.
  assert (Fs.extends (disk s) fs1) as Hext1.
  { destruct (negb _).
    - by eapply makedirs_extends.
    - injection Hmade as _ <-. apply extends_refl. }
  destruct e0 as [e0|].
  - by intros [= _ <-].
  - intros H. eapply extends_trans; [exact Hext1 |].
    eapply extends_trans.
    2: { eapply for_each_extends; [| exact H].
         intros s0 x e0 s1. apply IH. }
    apply (copy_files_extends pats cb total root _ files
             {| disk := fs1; copied_files := copied_files s;
                trace := trace s |}).
Qed.

(** *** The name of a backup *)









(** *** Backups *)

(** A backup removes nothing, however it ends. *)
Lemma backup_extends (fuel : nat) (now : Datetime.t) (decision : bool)
    (fs fs' : Fs.t) (source destination excl : string) (cb : bool)
    (r : result (nat * string)) (tr : list event) :
  copy_directory fuel now decision fs source destination excl cb "backup"
  = Some (r, fs', tr) →
  Fs.extends fs fs'.
Proof.
  unfold copy_directory, prepare. cbn [String.eqb Ascii.eqb Bool.eqb].
  cbn match.
  destruct (Fs.makedirs fs _) as [[e|] fs2] eqn:Hm.
  { intros [= _ <- _]. by eapply makedirs_extends. }
  apply makedirs_extends in Hm.
  destruct (count_files _ _ _); [| done].
  destruct (walk_copy _ _ _ _ _ _ _ _) as [[e s']|] eqn:Hw; [| done].
  apply walk_copy_extends in Hw. cbn [disk] in Hw.
  destruct e; intros [= _ <- _]; by eapply extends_trans.
Qed.




(** *** A source below a directory named like a pattern *)

Lemma isdir_exists (fs : Fs.t) (s : string) :
  Fs.isdir fs s = true → Fs.exists_ fs s = true.
Proof. unfold Fs.isdir, Fs.exists_. by destruct (Fs.stat fs s). Qed.

(** With the destination in place, such a walk ends well and changes
    nothing. *)
Lemma walk_copy_all_excluded_returns (fuel : nat) (pats : list string)
    (cb : bool) (total : nat) (source final pattern : string) (s : st) :
  Fs.names_ok (disk s) = true →
  pattern ∈ pats → pattern ∈ parts (Path source) →
  Fs.exists_ (disk s) final = true →
  walk_copy (S fuel) pats cb total source final s source = Some (None, s).
Proof.
  intros Hok Hp Hseg Hex. cbn [walk_copy].
  destruct (Fs.scandir (disk s) source) as [[dirs files]|] eqn:Hscan; [| done].
  destruct (scandir_valid _ _ _ _ Hok Hscan) as [Hdirs Hfiles].
  rewrite (filter_none _ dirs).
  2: { intros d Hd. apply negb_false_iff.
       eapply should_exclude_below; [by apply Hdirs | done ..]. }
  rewrite relpath_self. cbn [String.eqb Ascii.eqb Bool.eqb negb].
  rewrite Hex. cbn [negb for_each].
  assert (∀ s0, fold_left (copy_one pats cb total source final) files s0 = s0)
    as ->; [| by destruct s].
  clear Hscan. induction files as [|f files IH]; intros s0; [done |].
  cbn [fold_left]. unfold copy_one at 2.
  rewrite (should_exclude_below source f pattern pats);
    [| apply Hfiles; by left | done | done].
  cbn [negb]. apply IH. intros f' Hf'. apply Hfiles. by right.
Qed.

(** C10, amended: the patterns are matched against the path made of the
    source as it was passed and the names below it. So when a segment of
    the source path as passed is a pattern, every file and sub-directory
    of the tree is excluded: a run that returns has copied nothing, tried
    no copy, and returns the count 0; and the run does return, with the
    file system as the preparation left it, whenever the preparation and
    the creation of the destination end well and the fuel suffices for
    the pre-pass. *)
Theorem C10_source_segment_excludes_all (fuel : nat) (now : Datetime.t)
    (decision : bool) (fs : Fs.t) (source destination excl : string)
    (cb : bool) (operation_type pattern : string) :
  Fs.names_ok fs = true →
  pattern ∈ parse_exclude_patterns excl →
  pattern ∈ parts (Path source) →
  (∀ n d fs' tr,
     copy_directory fuel now decision fs source destination excl cb
       operation_type = Some (Return (n, d), fs', tr) →
     n = 0 ∧ attempted tr = [] ∧ progress_calls tr = [])
  ∧ (∀ final fs1 tr0 fs2 total,
       prepare now decision fs source destination operation_type
       = (Return final, fs1, tr0) →
       Fs.makedirs fs1 final = (None, fs2) →
       count_files fuel fs2 source = Some total →
       copy_directory fuel now decision fs source destination excl cb
         operation_type = Some (Return (0, final), fs2, tr0)).
Proof.
  intros Hok Hp Hseg. split.
  - intros n d fs' tr. unfold copy_directory.
    destruct (prepare _ _ _ _ _ _) as [[[final | e] fs1] tr0] eqn:Hprep;
      [| done].
    assert (attempted tr0 = [] ∧ progress_calls tr0 = []) as [Ha0 Hp0].
    { revert Hprep. unfold prepare. repeat case_match; by intros [= _ _ <-]. }
    pose proof (prepare_names_ok _ _ _ _ _ _ _ _ _ Hok Hprep) as Hok1.
    destruct (Fs.makedirs fs1 final) as [[e|] fs2] eqn:Hm; [done |].
    pose proof (makedirs_names_ok _ _ _ _ Hok1 Hm) as Hok2.
    destruct (count_files fuel fs2 source) as [total|]; [| done].
    destruct (walk_copy _ _ _ _ _ _ _ _) as [[[e|] s']|] eqn:Hw;
      [done | | done].
    intros [= <- _ _ <-].
    eapply walk_copy_all_excluded in Hw as [Hc Ht]; [| done ..].
    cbn in Hc, Ht. by rewrite Hc, Ht.
  - intros final fs1 tr0 fs2 total Hprep Hm Hcount. unfold copy_directory.
    rewrite Hprep, Hm, Hcount.
    pose proof (prepare_names_ok _ _ _ _ _ _ _ _ _ Hok Hprep) as Hok1.
    pose proof (makedirs_names_ok _ _ _ _ Hok1 Hm) as Hok2.
    destruct fuel as [|fuel]; [done |].
    rewrite (walk_copy_all_excluded_returns fuel _ cb total source final
               pattern); try done.
    cbn [disk]. by apply isdir_exists, (makedirs_isdir fs1).
Qed.

Lemma C10_source_segment_excludes_all_witness :
  Fs.names_ok Samples.fs_bin = true
  ∧ "bin" ∈ parse_exclude_patterns ""
  ∧ "bin" ∈ parts (Path "/home/u/bin/proj")
  ∧ copy_directory 5 Samples.now1 false Samples.fs_bin "/home/u/bin/proj"
      "/home/u/bk" "" true "backup"
    = Some (Return (0, "/home/u/bk/proj_20240517_090359"),
            (Fs.makedirs Samples.fs_bin "/home/u/bk/proj_20240517_090359").2,
            []).
Proof.
  assert (Fs.names_ok Samples.fs_bin = true) as Hok by reflexivity.
  assert ("bin" ∈ parse_exclude_patterns "") as Hp by compute_done.
  assert ("bin" ∈ parts (Path "/home/u/bin/proj")) as Hseg by compute_done.
  split_and!; [done .. |].
  apply (proj2 (C10_source_segment_excludes_all 5 Samples.now1 false
                  Samples.fs_bin "/home/u/bin/proj" "/home/u/bk" "" true
                  "backup" "bin" Hok Hp Hseg)
           _ Samples.fs_bin [] _ 1).
  - reflexivity.
  - vm_compute. reflexivity.
  - vm_compute. reflexivity.
Defined.

(** *** Failed copies *)














(* ================================================================== *)
(** * Part III: further properties of the code                         *)
(* ================================================================== *)

Import Traces.

(** ** Exclusion patterns: only the set of patterns matters *)

Lemma should_exclude_same_set (path : string) (p1 p2 : list string) :
  (∀ x, x ∈ p1 ↔ x ∈ p2) →
  should_exclude path p1 = should_exclude path p2.
Proof.
  intros Hset. apply eq_true_iff_eq. rewrite !should_exclude_iff.
  split; intros (q & Hq & Hm); exists q; (split; [by apply Hset | done]).
Qed.

Lemma parse_exclude_patterns_comma (a b x : string) :
  x ∈ parse_exclude_patterns (a +:+ "," +:+ b)
  ↔ x ∈ exclude_defaults
    ∨ (x ≠ "" ∧ ∃ piece,
         (piece ∈ split "," a ∨ piece ∈ split "," b) ∧ strip piece = x).
Proof.
  rewrite elem_of_parse_exclude_patterns.
  change (a +:+ "," +:+ b) with (a +:+ String "," b). rewrite split_app.
  by setoid_rewrite elem_of_app.
Qed.

(** X1: the order of the entries of the exclusion string, and writing an
    entry twice, change nothing about what is excluded. *)
Theorem exclusion_order_and_duplicates_irrelevant (path a b : string) :
  should_exclude path (parse_exclude_patterns (a +:+ "," +:+ b))
  = should_exclude path (parse_exclude_patterns (b +:+ "," +:+ a))
  ∧ should_exclude path (parse_exclude_patterns (a +:+ "," +:+ a))
    = should_exclude path (parse_exclude_patterns a).
Proof.
  split; apply should_exclude_same_set; intros x.
  - rewrite !parse_exclude_patterns_comma. split.
    all: intros [H | (Hx & piece & Hor & Hs)]; [by left | right].
    all: split; [done |]; exists piece; tauto.
  - rewrite parse_exclude_patterns_comma, elem_of_parse_exclude_patterns.
    split.
    all: intros [H | (Hx & piece & Hor & Hs)]; [by left | right].
    all: split; [done |]; exists piece; tauto.
Qed.

(** X2: more patterns exclude more: what a list of patterns excludes, every
    list that holds these patterns excludes; so what the defaults exclude
    is excluded whatever the exclusion string of the project says. *)
Theorem exclusion_monotone (path : string) (p1 p2 : list string) :
  p1 ⊆ p2 → should_exclude path p1 = true →
  should_exclude path p2 = true
  ∧ ∀ raw, should_exclude path exclude_defaults = true →
      should_exclude path (parse_exclude_patterns raw) = true.
Proof.
  intros Hsub H1. split.
  - apply should_exclude_iff in H1 as (q & Hq & Hm).
    apply should_exclude_iff. exists q. split; [by apply Hsub | done].
  - intros raw (q & Hq & Hm)%should_exclude_iff.
    apply should_exclude_iff. exists q. split; [| done].
    apply elem_of_parse_exclude_patterns. by left.
Qed.

Lemma exclusion_monotone_witness :
  should_exclude "/home/u/proj/.git/config" [".git"; "*.log"] = true.
Proof.
  apply (exclusion_monotone "/home/u/proj/.git/config" [".git"]
           [".git"; "*.log"]).
  - intros x Hx. apply elem_of_cons. left.
    by apply list_elem_of_singleton in Hx.
  - reflexivity.
Defined.

(** ** The pattern [*] *)

Lemma endswith_nil (s : string) : endswith s "" = true.
Proof. apply endswith_spec. exists s. symmetry. apply append_nil_r. Qed.

Lemma should_exclude_star (path : string) (pats : list string) :
  "*" ∈ pats → should_exclude path pats = true.
Proof.
  intros Hin. apply should_exclude_iff. exists "*". split; [done |].
  do 2 right. exists "", (name (Path path)). split; [done |].
  symmetry. apply append_nil_r.
Qed.

(** A walk under patterns that exclude every path copies nothing. *)
Lemma walk_copy_nothing (fuel : nat) (pats : list string) (cb : bool)
    (total : nat) (source final : string) (s s' : st) (e : option exn) :
  (∀ p, should_exclude p pats = true) →
  walk_copy fuel pats cb total source final s source = Some (e, s') →
  copied_files s' = copied_files s ∧ trace s' = trace s.
Proof.
  intros Hall. destruct fuel as [|fuel]; [done |]. cbn [walk_copy].
  destruct (Fs.scandir (disk s) source) as [[dirs files]|].
  2: { by intros [= _ <-]. }
  rewrite (filter_none _ dirs).
  2: { intros d _. by rewrite Hall. }
  destruct (if negb _ then _ else _) as [[e0|] fs1].
  { by intros [= _ <-]. }
  cbn [for_each]. intros [= _ <-].
  assert (∀ dest s0,
            fold_left (copy_one pats cb total source dest) files s0 = s0)
    as ->; [| done].
  intros dest. induction files as [|f files IH]; intros s0; [done |].
  cbn [fold_left]. unfold copy_one at 2. rewrite Hall. cbn [negb]. apply IH.
Qed.

(** X3: an entry [*] in the exclusion string excludes every path (the rest of
    the pattern after the star is empty, and every name ends with the
    empty string), so a run with such a string copies no file at all. *)
Theorem star_pattern_excludes_everything (fuel : nat) (now : Datetime.t)
    (decision : bool) (fs fs' : Fs.t) (source destination excl : string)
    (cb : bool) (operation_type : string) (n : nat) (d : string)
    (tr : list event) :
  "*" ∈ parse_exclude_patterns excl →
  copy_directory fuel now decision fs source destination excl cb operation_type
  = Some (Return (n, d), fs', tr) →
  (∀ path, should_exclude path (parse_exclude_patterns excl) = true)
  ∧ n = 0 ∧ attempted tr = [].
Proof.
  intros Hstar. split; [intros path; by apply should_exclude_star |].
  revert H. unfold copy_directory.
  destruct (prepare _ _ _ _ _ _) as [[[final | e] fs1] tr0] eqn:Hprep; [| done].
  assert (attempted tr0 = []) as Ha0.
  { revert Hprep. unfold prepare. repeat case_match; by intros [= _ _ <-]. }
  destruct (Fs.makedirs fs1 final) as [[e|] fs2]; [done |].
  destruct (count_files fuel fs2 source) as [total|]; [| done].
  destruct (walk_copy _ _ _ _ _ _ _ _) as [[[e|] s']|] eqn:Hw; [done | | done].
  intros [= <- _ _ <-].
  apply walk_copy_nothing in Hw as [Hc Ht].
  - cbn in Hc, Ht. by rewrite Hc, Ht.
  - intros p. by apply should_exclude_star.
Qed.

Lemma star_pattern_excludes_everything_witness :
  (∀ path, should_exclude path (parse_exclude_patterns "tmp, *") = true)
  ∧ 0 = 0 ∧ attempted [] = [].
Proof.
  apply (star_pattern_excludes_everything 5 Samples.now1 false
           Samples.fs_project
           (Samples.left_by
              (copy_directory 5 Samples.now1 false Samples.fs_project
                 "/home/u/proj" "/home/u/bk" "tmp, *" false "backup")
              Samples.fs_project)
           "/home/u/proj" "/home/u/bk" "tmp, *" false "backup" 0
           "/home/u/bk/proj_20240517_090359" []).
  - compute_done.
  - vm_compute. reflexivity.
Defined.

(** ** What the copy loop lets the outside see *)

Lemma asks_app (a b : list event) : asks (a ++ b) = asks a + asks b.
Proof. unfold asks. by rewrite List.filter_app, length_app. Qed.

Lemma attempted_app (a b : list event) :
  attempted (a ++ b) = attempted a ++ attempted b.
Proof. apply omap_app. Qed.

Lemma asks_none (tr : list event) (i : nat) :
  asks tr = 0 → tr !! i ≠ Some EvAsk.
Proof.
  revert i. induction tr as [|ev tr IH]; intros i; [by destruct i |].
  unfold asks. cbn [List.filter].
  destruct i as [|i]; cbn [lookup list_lookup].
  - intros H [= ->]. cbn in H. lia.
  - destruct (is_ask ev); [done |]. apply IH.
Qed.

Lemma loop_trace_refl (pats : list string) (s : st) : loop_trace pats s s.
Proof.
  exists []. rewrite app_nil_r. split_and!; [done | done | constructor].
Qed.

Lemma loop_trace_trans (pats : list string) (s1 s2 s3 : st) :
  loop_trace pats s1 s2 → loop_trace pats s2 s3 → loop_trace pats s1 s3.
Proof.
  intros (n1 & Ht1 & Ha1 & Hf1) (n2 & Ht2 & Ha2 & Hf2).
  exists (n1 ++ n2). split_and!.
  - by rewrite Ht2, Ht1, app_assoc.
  - rewrite asks_app. lia.
  - rewrite attempted_app. by apply Forall_app.
Qed.

Lemma copy_one_loop_trace (pats : list string) (cb : bool) (total : nat)
    (root dest_dir : string) (s : st) (file : string) :
  loop_trace pats s (copy_one pats cb total root dest_dir s file).
Proof.
  unfold copy_one. destruct (should_exclude _ _) eqn:Hx; cbn [negb].
  { apply loop_trace_refl. }
  destruct (Shutil.copy2 _ _ _); eexists; cbn [trace];
    (split; [reflexivity |]); destruct cb; cbn;
    (split; [done |]); by repeat constructor.
Qed.

Lemma copy_files_loop_trace (pats : list string) (cb : bool) (total : nat)
    (root dest_dir : string) (files : list string) (s : st) :
  loop_trace pats s (fold_left (copy_one pats cb total root dest_dir) files s).
Proof.
  revert s. induction files as [|f files IH]; intros s; cbn [fold_left].
  - apply loop_trace_refl.
  - eapply loop_trace_trans; [apply copy_one_loop_trace | apply IH].
Qed.

Lemma for_each_loop_trace (pats : list string)
    (body : st → string → option (option exn * st)) (xs : list string)
    (s s' : st) (e : option exn) :
  (∀ s0 x e0 s1, body s0 x = Some (e0, s1) → loop_trace pats s0 s1) →
  for_each body xs s = Some (e, s') → loop_trace pats s s'.
Proof.
  intros Hbody. revert s.
  induction xs as [|x xs IH]; intros s; cbn [for_each].
  - intros [= _ <-]. apply loop_trace_refl.
  - destruct (body s x) as [[[e0|] s1]|] eqn:Hb; [| | done].
    + intros [= _ <-]. by eapply Hbody.
    + intros H. eapply loop_trace_trans; [by eapply Hbody | by apply IH].
Qed.

Lemma walk_copy_loop_trace (fuel : nat) (pats : list string) (cb : bool)
    (total : nat) (source final : string) (s s' : st) (root : string)
    (e : option exn) :
  walk_copy fuel pats cb total source final s root = Some (e, s') →
  loop_trace pats s s'.
Proof.
  revert s s' e root.
  induction fuel as [|fuel IH]; intros s s' e root; [done |].
  cbn [walk_copy].
  destruct (Fs.scandir (disk s) root) as [[dirs files]|].
  2: { intros [= _ <-]. apply loop_trace_refl. }
  destruct (if negb _ then _ else _) as [[e0|] fs1].
  - intros [= _ <-]. exists []. rewrite app_nil_r.
    split_and!; [done | done | constructor].
  - intros H. eapply loop_trace_trans.
    2: { eapply for_each_loop_trace; [| exact H].
         intros s0 x e0 s1. apply IH. }
    eapply loop_trace_trans; [| apply copy_files_loop_trace].
    exists []. rewrite app_nil_r. split_and!; [done | done | constructor].
Qed.

(** What lines 220-240 let the outside see: at most the question. *)
Lemma prepare_trace (now : Datetime.t) (decision : bool) (fs fs1 : Fs.t)
    (source destination operation_type : string) (r : result string)
    (tr0 : list event) :
  prepare now decision fs source destination operation_type = (r, fs1, tr0) →
  (tr0 = [] ∨ tr0 = [EvAsk])
  ∧ asks tr0 = questions fs destination operation_type
  ∧ attempted tr0 = [].
Proof.
  unfold prepare, questions.
  destruct (String.eqb operation_type "backup").
  { intros [= _ _ <-]. auto. }
  destruct (Fs.exists_ fs destination).
  2: { intros [= _ _ <-]. auto. }
  destruct (Fs.listdir fs destination) as [[|x l] | e].
  1, 3: intros [= _ _ <-]; auto.
  destruct decision; cbn [negb].
  - destruct (Fs.rmtree fs destination); intros [= _ _ <-]; auto.
  - intros [= _ _ <-]. auto.
Qed.

(** The trace of a run: what lines 220-240 show, then what the copy loop
    adds. *)
Lemma copy_directory_trace (fuel : nat) (now : Datetime.t) (decision : bool)
    (fs fs' : Fs.t) (source destination excl : string) (cb : bool)
    (operation_type : string) (r : result (nat * string)) (tr : list event) :
  copy_directory fuel now decision fs source destination excl cb operation_type
  = Some (r, fs', tr) →
  ∃ tr0 new,
    tr = tr0 ++ new
    ∧ (tr0 = [] ∨ tr0 = [EvAsk])
    ∧ asks tr0 = questions fs destination operation_type
    ∧ attempted tr0 = []
    ∧ asks new = 0
    ∧ Forall (λ f, should_exclude f (parse_exclude_patterns excl) = false)
        (attempted new).
Proof.
  unfold copy_directory.
  destruct (prepare _ _ _ _ _ _) as [[[final | e] fs1] tr0] eqn:Hprep.
  2: { intros [= _ _ <-]. apply prepare_trace in Hprep as (? & ? & ?).
       exists tr0, []. rewrite app_nil_r. split_and!; first [done | constructor]. }
  apply prepare_trace in Hprep as (H0 & Hq & Ha).
  destruct (Fs.makedirs fs1 final) as [[e|] fs2].
  { intros [= _ _ <-]. exists tr0, []. rewrite app_nil_r.
    split_and!; first [done | constructor]. }
  destruct (count_files fuel fs2 source) as [total|]; [| done].
  destruct (walk_copy _ _ _ _ _ _ _ _) as [[e s']|] eqn:Hw; [| done].
  apply walk_copy_loop_trace in Hw as (new & Ht & Hn & Hf).
  cbn [trace] in Ht.
  destruct e; intros [= _ _ <-]; exists tr0, new; by split_and!.
Qed.

(** X4: whatever the run does and however it ends, it tries to copy no
    file that the patterns exclude; in particular no file with a
    component named like one of the built-in defaults ([.git],
    [node_modules], ...), whatever the exclusion string says. *)
Theorem excluded_files_are_never_copied (fuel : nat) (now : Datetime.t)
    (decision : bool) (fs fs' : Fs.t) (source destination excl : string)
    (cb : bool) (operation_type : string) (r : result (nat * string))
    (tr : list event) :
  copy_directory fuel now decision fs source destination excl cb operation_type
  = Some (r, fs', tr) →
  ∀ f, f ∈ attempted tr →
    should_exclude f (parse_exclude_patterns excl) = false
    ∧ ∀ pattern, pattern ∈ exclude_defaults → pattern ∉ parts (Path f).
Proof.
  intros (tr0 & new & -> & _ & _ & Ha0 & _ & Hf)%copy_directory_trace f.
  rewrite attempted_app, Ha0, app_nil_l. intros Hin.
  rewrite Forall_forall in Hf. specialize (Hf f Hin).
  split; [done |]. intros pattern Hp Hseg.
  assert (should_exclude f (parse_exclude_patterns excl) = true) as Ht;
    [| congruence].
  apply should_exclude_iff. exists pattern. split.
  - apply elem_of_parse_exclude_patterns. by left.
  - by left.
Qed.

Lemma excluded_files_are_never_copied_witness :
  should_exclude "/home/u/proj/b/c.txt" (parse_exclude_patterns "*.log") = false
  ∧ ∀ pattern, pattern ∈ exclude_defaults →
      pattern ∉ parts (Path "/home/u/proj/b/c.txt").
Proof.
  apply (excluded_files_are_never_copied 5 Samples.now1 false
           Samples.fs_project
           (Samples.left_by
              (copy_directory 5 Samples.now1 false Samples.fs_project
                 "/home/u/proj" "/home/u/bk" "*.log" true "backup")
              Samples.fs_project)
           "/home/u/proj" "/home/u/bk" "*.log" true "backup"
           (Return (2, "/home/u/bk/proj_20240517_090359"))
           [EvCopied "/home/u/proj/a.txt"
              "/home/u/bk/proj_20240517_090359/a.txt";
            EvProgress 1 4;
            EvCopied "/home/u/proj/b/c.txt"
              "/home/u/bk/proj_20240517_090359/b/c.txt";
            EvProgress 2 4]).
  - vm_compute. reflexivity.
  - compute_done.
Defined.

(** X5: the question whether to overwrite is asked exactly when the run
    is not a backup and finds its destination existing and not empty;
    it is asked once, and before anything else the run lets the outside
    see. A backup never asks. *)
Theorem overwrite_question_is_asked_once_and_first (fuel : nat)
    (now : Datetime.t) (decision : bool) (fs fs' : Fs.t)
    (source destination excl : string) (cb : bool) (operation_type : string)
    (r : result (nat * string)) (tr : list event) :
  copy_directory fuel now decision fs source destination excl cb operation_type
  = Some (r, fs', tr) →
  asks tr = questions fs destination operation_type
  ∧ (∀ i, tr !! i = Some EvAsk → i = 0)
  ∧ (operation_type = "backup" → EvAsk ∉ tr).
Proof.
  intros (tr0 & new & -> & H0 & Hq & _ & Hn & _)%copy_directory_trace.
  split_and!.
  - rewrite asks_app. lia.
  - intros i Hi. destruct H0 as [-> | ->].
    + destruct (asks_none new i Hn Hi).
    + destruct i as [|i]; [done |]. destruct (asks_none new i Hn Hi).
  - intros ->. unfold questions in Hq. cbn in Hq.
    intros (i & Hi)%list_elem_of_lookup.
    destruct H0 as [-> | ->]; [| done]. destruct (asks_none new i Hn Hi).
Qed.

Lemma overwrite_question_is_asked_once_and_first_witness :
  asks [EvAsk; EvCopied "/home/u/proj/a.txt" "/home/u/run/a.txt"]
  = questions Samples.fs_runtime "/home/u/run" "runtime"
  ∧ (∀ i, [EvAsk; EvCopied "/home/u/proj/a.txt" "/home/u/run/a.txt"] !! i
          = Some EvAsk → i = 0)
  ∧ ("runtime" = "backup" →
     EvAsk ∉ [EvAsk; EvCopied "/home/u/proj/a.txt" "/home/u/run/a.txt"]).
Proof.
  apply (overwrite_question_is_asked_once_and_first 5 Samples.now1 true
           Samples.fs_runtime
           (Samples.left_by
              (copy_directory 5 Samples.now1 true Samples.fs_runtime
                 "/home/u/proj" "/home/u/run" "" false "runtime")
              Samples.fs_runtime)
           "/home/u/proj" "/home/u/run" "" false "runtime"
           (Return (1, "/home/u/run"))).
  vm_compute. reflexivity.
Defined.

(** ** The progress that a run reports *)

Lemma progress_calls_app (a b : list event) :
  progress_calls (a ++ b) = progress_calls a ++ progress_calls b.
Proof. apply omap_app. Qed.

Lemma prepare_silent (now : Datetime.t) (decision : bool) (fs fs1 : Fs.t)
    (source destination operation_type : string) (r : result string)
    (tr0 : list event) :
  prepare now decision fs source destination operation_type = (r, fs1, tr0) →
  copied_count tr0 = 0 ∧ progress_calls tr0 = [].
Proof.
  intros [[-> | ->] _]%prepare_trace; by split.
Qed.

(** The total that the callback is told is the number of files that the
    pre-pass of line 244 finds below the source, in the file system as
    lines 220-242 leave it. *)
Lemma copy_directory_total (fuel : nat) (now : Datetime.t) (decision : bool)
    (fs fs' : Fs.t) (source destination excl : string) (cb : bool)
    (operation_type : string) (r : result (nat * string)) (tr : list event)
    (c t : nat) :
  copy_directory fuel now decision fs source destination excl cb operation_type
  = Some (r, fs', tr) →
  (c, t) ∈ progress_calls tr →
  ∃ final fs1 tr0 fs2,
    prepare now decision fs source destination operation_type
    = (Return final, fs1, tr0)
    ∧ Fs.makedirs fs1 final = (None, fs2)
    ∧ count_files fuel fs2 source = Some t.
Proof.
  unfold copy_directory.
  destruct (prepare _ _ _ _ _ _) as [[[final | e] fs1] tr0] eqn:Hprep.
  2: { intros [= _ _ <-]. apply prepare_silent in Hprep as [_ ->].
       by intros ?%elem_of_nil. }
  pose proof (prepare_silent _ _ _ _ _ _ _ _ _ Hprep) as [_ Hp0].
  destruct (Fs.makedirs fs1 final) as [[e|] fs2] eqn:Hm.
  { intros [= _ _ <-]. rewrite Hp0. by intros ?%elem_of_nil. }
  destruct (count_files fuel fs2 source) as [total|] eqn:Hc; [| done].
  destruct (walk_copy _ _ _ _ _ _ _ _) as [[e s']|] eqn:Hw; [| done].
  apply walk_copy_accounted in Hw as (new & Ht & _ & Hp).
  cbn [trace copied_files] in Ht, Hp.
  intros H. assert (tr = tr0 ++ new) as -> by (destruct e; congruence).
  rewrite progress_calls_app, Hp0, app_nil_l, Hp.
  destruct cb; [| by intros ?%elem_of_nil].
  intros (c' & [= _ ->] & _)%list_elem_of_fmap.
  by exists final, fs1, tr0, fs2.
Qed.

(** X6: the progress callback, where one is passed, is called once after
    each successful copy and at no other time: however the run ends, its
    calls carry the running count 1, 2, ..., k, in this order, k being
    the number of copies made, and all of them the same total. Without a
    callback nothing is reported. *)
Theorem progress_counts_up_by_one (fuel : nat) (now : Datetime.t)
    (decision : bool) (fs fs' : Fs.t) (source destination excl : string)
    (cb : bool) (operation_type : string) (r : result (nat * string))
    (tr : list event) :
  copy_directory fuel now decision fs source destination excl cb operation_type
  = Some (r, fs', tr) →
  ∃ total,
    progress_calls tr
    = if cb then List.map (λ c, (c, total)) (seq 1 (copied_count tr)) else [].
Proof.
  unfold copy_directory.
  destruct (prepare _ _ _ _ _ _) as [[[final | e] fs1] tr0] eqn:Hprep.
  2: { intros [= _ _ <-]. apply prepare_silent in Hprep as [-> ->].
       exists 0. by destruct cb. }
  apply prepare_silent in Hprep as [Hc0 Hp0].
  destruct (Fs.makedirs fs1 final) as [[e|] fs2].
  { intros [= _ _ <-]. rewrite Hc0, Hp0. exists 0. by destruct cb. }
  destruct (count_files fuel fs2 source) as [total|]; [| done].
  destruct (walk_copy _ _ _ _ _ _ _ _) as [[e s']|] eqn:Hw; [| done].
  apply walk_copy_accounted in Hw as (new & Ht & _ & Hp).
  cbn [trace copied_files] in Ht, Hp.
  intros H. assert (tr = tr0 ++ new) as -> by (destruct e; congruence).
  exists total.
  by rewrite progress_calls_app, copied_count_app, Hp0, Hc0, Hp.
Qed.

Lemma progress_counts_up_by_one_witness :
  ∃ total,
    progress_calls
      [EvCopied "/home/u/proj/c.txt" "/home/u/bk/proj_20240517_090359/c.txt";
       EvProgress 1 3;
       EvPrint "/home/u/proj/b.txt"
         (OSError PermissionError "/home/u/proj/b.txt");
       EvCopied "/home/u/proj/a.txt" "/home/u/bk/proj_20240517_090359/a.txt";
       EvProgress 2 3]
    = List.map (λ c, (c, total))
        (seq 1 (copied_count
           [EvCopied "/home/u/proj/c.txt"
              "/home/u/bk/proj_20240517_090359/c.txt";
            EvProgress 1 3;
            EvPrint "/home/u/proj/b.txt"
              (OSError PermissionError "/home/u/proj/b.txt");
            EvCopied "/home/u/proj/a.txt"
              "/home/u/bk/proj_20240517_090359/a.txt";
            EvProgress 2 3])).
Proof.
  apply (progress_counts_up_by_one 5 Samples.now1 false Samples.fs_unreadable
           (Samples.left_by
              (copy_directory 5 Samples.now1 false Samples.fs_unreadable
                 "/home/u/proj" "/home/u/bk" "" true "backup")
              Samples.fs_unreadable)
           "/home/u/proj" "/home/u/bk" "" true "backup"
           (Return (2, "/home/u/bk/proj_20240517_090359"))).
  vm_compute. reflexivity.
Defined.

(** X7: the total that the callback is told does not depend on the
    exclusion string: two runs that differ in nothing but their exclusion
    strings report the same total, however many files each of them
    leaves out. *)
Theorem progress_total_ignores_exclusions (fuel : nat) (now : Datetime.t)
    (decision : bool) (fs fs1 fs2 : Fs.t)
    (source destination excl1 excl2 : string) (cb : bool)
    (operation_type : string) (r1 r2 : result (nat * string))
    (tr1 tr2 : list event) (c1 t1 c2 t2 : nat) :
  copy_directory fuel now decision fs source destination excl1 cb
    operation_type = Some (r1, fs1, tr1) →
  copy_directory fuel now decision fs source destination excl2 cb
    operation_type = Some (r2, fs2, tr2) →
  (c1, t1) ∈ progress_calls tr1 → (c2, t2) ∈ progress_calls tr2 →
  t1 = t2.
Proof.
  intros H1 H2 Hin1 Hin2.
  destruct (copy_directory_total _ _ _ _ _ _ _ _ _ _ _ _ _ _ H1 Hin1)
    as (final & fsa & tra & fsb & Hp & Hm & Hc).
  destruct (copy_directory_total _ _ _ _ _ _ _ _ _ _ _ _ _ _ H2 Hin2)
    as (final' & fsa' & tra' & fsb' & Hp' & Hm' & Hc').
  rewrite Hp in Hp'. injection Hp' as <- <- <-.
  rewrite Hm in Hm'. injection Hm' as <-. congruence.
Qed.

Lemma progress_total_ignores_exclusions_witness :
  copy_directory 5 Samples.now1 false Samples.fs_project
    "/home/u/proj" "/home/u/bk" "b" true "backup"
  = Some (Return (1, "/home/u/bk/proj_20240517_090359"),
          Samples.left_by
            (copy_directory 5 Samples.now1 false Samples.fs_project
               "/home/u/proj" "/home/u/bk" "b" true "backup")
            Samples.fs_project,
          [EvCopied "/home/u/proj/a.txt"
             "/home/u/bk/proj_20240517_090359/a.txt";
           EvProgress 1 4])
  ∧ 4 = 4.
Proof.
  assert (copy_directory 5 Samples.now1 false Samples.fs_project
            "/home/u/proj" "/home/u/bk" "b" true "backup"
          = Some (Return (1, "/home/u/bk/proj_20240517_090359"),
                  Samples.left_by
                    (copy_directory 5 Samples.now1 false Samples.fs_project
                       "/home/u/proj" "/home/u/bk" "b" true "backup")
                    Samples.fs_project,
                  [EvCopied "/home/u/proj/a.txt"
                     "/home/u/bk/proj_20240517_090359/a.txt";
                   EvProgress 1 4])) as Hrun2
    by (vm_compute; reflexivity).
  split; [exact Hrun2 |].
  apply (progress_total_ignores_exclusions 5 Samples.now1 false
           Samples.fs_project
           (Samples.left_by
              (copy_directory 5 Samples.now1 false Samples.fs_project
                 "/home/u/proj" "/home/u/bk" "" true "backup")
              Samples.fs_project)
           (Samples.left_by
              (copy_directory 5 Samples.now1 false Samples.fs_project
                 "/home/u/proj" "/home/u/bk" "b" true "backup")
              Samples.fs_project)
           "/home/u/proj" "/home/u/bk" "" "b" true "backup"
           (Return (2, "/home/u/bk/proj_20240517_090359"))
           (Return (1, "/home/u/bk/proj_20240517_090359"))
           [EvCopied "/home/u/proj/a.txt"
              "/home/u/bk/proj_20240517_090359/a.txt";
            EvProgress 1 4;
            EvCopied "/home/u/proj/b/c.txt"
              "/home/u/bk/proj_20240517_090359/b/c.txt";
            EvProgress 2 4]
           [EvCopied "/home/u/proj/a.txt"
              "/home/u/bk/proj_20240517_090359/a.txt";
            EvProgress 1 4]
           2 4 1 4).
  - vm_compute. reflexivity.
  - exact Hrun2.
  - compute_done.
  - compute_done.
Defined.

(** ** Runs under patterns that exclude the same paths *)

Lemma fold_left_pointwise {A B} (f g : A → B → A) (l : list B) (a : A) :
  (∀ x y, f x y = g x y) → fold_left f l a = fold_left g l a.
Proof.
  intros Hfg. revert a. induction l as [|y l IH]; intros a; [done |].
  cbn [fold_left]. by rewrite Hfg, IH.
Qed.

Lemma for_each_pointwise (body1 body2 : st → string → option (option exn * st))
    (xs : list string) (s : st) :
  (∀ s0 x, body1 s0 x = body2 s0 x) →
  for_each body1 xs s = for_each body2 xs s.
Proof.
  intros Hb. revert s. induction xs as [|x xs IH]; intros s; [done |].
  cbn [for_each]. rewrite Hb.
  destruct (body2 s x) as [[[e|] s1]|]; [done | apply IH | done].
Qed.

Lemma walk_copy_same_exclusions (fuel : nat) (pats1 pats2 : list string)
    (cb : bool) (total : nat) (source final : string) (s : st)
    (root : string) :
  (∀ p, should_exclude p pats1 = should_exclude p pats2) →
  walk_copy fuel pats1 cb total source final s root
  = walk_copy fuel pats2 cb total source final s root.
Proof.
  intros Hsame. revert s root.
  induction fuel as [|fuel IH]; intros s root; [done |].
  cbn [walk_copy].
  destruct (Fs.scandir (disk s) root) as [[dirs files]|]; [| done].
  rewrite (List.filter_ext _
             (λ d, negb (should_exclude (OsPath.join root d) pats2))).
  2: { intros d. by rewrite Hsame. }
  destruct (if negb _ then _ else _) as [[e0|] fs1]; [done |].
  erewrite (fold_left_pointwise (copy_one pats1 _ _ _ _)
              (copy_one pats2 _ _ _ _)).
  2: { intros s0 f. unfold copy_one. rewrite Hsame. reflexivity. }
  apply for_each_pointwise. intros s0 d. apply IH.
Qed.

(** X8: a run depends on its exclusion string only through the set of
    patterns the string stands for: two strings with the same patterns,
    in whatever order and however often each is written, give the same
    result, the same file system and the same trace. *)
Theorem run_depends_only_on_the_set_of_patterns (fuel : nat)
    (now : Datetime.t) (decision : bool) (fs : Fs.t)
    (source destination excl1 excl2 : string) (cb : bool)
    (operation_type : string) :
  (∀ x, x ∈ parse_exclude_patterns excl1 ↔ x ∈ parse_exclude_patterns excl2) →
  copy_directory fuel now decision fs source destination excl1 cb
    operation_type
  = copy_directory fuel now decision fs source destination excl2 cb
      operation_type.
Proof.
  intros Hset. unfold copy_directory.
  destruct (prepare _ _ _ _ _ _) as [[[final | e] fs1] tr0]; [| done].
  destruct (Fs.makedirs fs1 final) as [[e|] fs2]; [done |].
  destruct (count_files fuel fs2 source) as [total|]; [| done].
  rewrite (walk_copy_same_exclusions fuel (parse_exclude_patterns excl1)
             (parse_exclude_patterns excl2)); [done |].
  intros p. by apply should_exclude_same_set.
Qed.

Lemma run_depends_only_on_the_set_of_patterns_witness :
  copy_directory 5 Samples.now1 false Samples.fs_project "/home/u/proj"
    "/home/u/bk" "*.txt, b" true "backup"
  = copy_directory 5 Samples.now1 false Samples.fs_project "/home/u/proj"
      "/home/u/bk" "b,.git ,*.txt,b" true "backup".
Proof.
  apply (run_depends_only_on_the_set_of_patterns 5 Samples.now1 false
           Samples.fs_project "/home/u/proj" "/home/u/bk"
           "*.txt, b" "b,.git ,*.txt,b" true "backup").
  assert (parse_exclude_patterns "*.txt, b"
          = parse_exclude_patterns "b,.git ,*.txt,b") as ->
    by (vm_compute; reflexivity).
  done.
Defined.

(** ** What a run removes *)

Lemma rmtree_outside (fs fs' : Fs.t) (s : string) :
  Fs.rmtree fs s = Return fs' →
  Fs.cwd fs' = Fs.cwd fs
  ∧ ∃ dl, Fs.locate fs s = Some dl
      ∧ ∀ loc, Fs.below dl loc = false → Fs.node_at fs' loc = Fs.node_at fs loc.
Proof.
  unfold Fs.rmtree. destruct (Fs.locate fs s) as [dl|]; [| done].
  destruct (Fs.node_at fs dl) as [[r c | w]|]; [done | | done].
  destruct (_ && _); [| done]. intros [= <-]. split; [done |].
  exists dl. split; [done |]. intros loc Hb.
  destruct loc as [|c loc]; [done |]. cbn [Fs.node_at Fs.nodes].
  destruct (Fs.nodes fs !! (c :: loc)) as [nd|] eqn:Hn.
  - by apply map_lookup_filter_Some_2.
  - apply map_lookup_filter_None_2. by left.
Qed.

(** What lines 220-240 remove lies at or below the destination, and they
    remove nothing unless the question was asked. *)
Lemma prepare_outside (now : Datetime.t) (decision : bool) (fs fs1 : Fs.t)
    (source destination operation_type : string) (r : result string)
    (tr0 : list event) :
  prepare now decision fs source destination operation_type = (r, fs1, tr0) →
  Fs.cwd fs1 = Fs.cwd fs
  ∧ (asks tr0 = 0 → fs1 = fs)
  ∧ ∀ loc, (∀ dl, Fs.locate fs destination = Some dl → Fs.below dl loc = false) →
      Fs.node_at fs1 loc = Fs.node_at fs loc.
Proof.
  unfold prepare.
  destruct (String.eqb operation_type "backup").
  { by intros [= _ <- <-]. }
  destruct (Fs.exists_ fs destination).
  2: { by intros [= _ <- <-]. }
  destruct (Fs.listdir fs destination) as [[|x l] | e].
  1, 3: by intros [= _ <- <-].
  destruct decision; cbn [negb].
  2: { by intros [= _ <- <-]. }
  destruct (Fs.rmtree fs destination) as [fs2 | e] eqn:Hrm.
  2: { by intros [= _ <- <-]. }
  intros [= _ <- <-]. apply rmtree_outside in Hrm as (Hcwd & dl & Hloc & Hout).
  split_and!; [done | done |]. intros loc Hb. apply Hout. by apply Hb.
Qed.

(** A run is lines 220-240, and then steps that remove nothing. *)
Lemma copy_directory_after_prepare (fuel : nat) (now : Datetime.t)
    (decision : bool) (fs fs' : Fs.t) (source destination excl : string)
    (cb : bool) (operation_type : string) (r : result (nat * string))
    (tr : list event) :
  copy_directory fuel now decision fs source destination excl cb operation_type
  = Some (r, fs', tr) →
  ∃ r0 fs1 tr0 new,
    prepare now decision fs source destination operation_type = (r0, fs1, tr0)
    ∧ Fs.extends fs1 fs' ∧ tr = tr0 ++ new.
Proof.
  unfold copy_directory.
  destruct (prepare _ _ _ _ _ _) as [[[final | e] fs1] tr0] eqn:Hprep.
  2: { intros [= _ <- <-]. exists (Raise e), fs1, tr0, [].
       split_and!; [done | apply extends_refl | by rewrite app_nil_r]. }
  destruct (Fs.makedirs fs1 final) as [[e|] fs2] eqn:Hm.
  { intros [= _ <- <-]. exists (Return final), fs1, tr0, [].
    split_and!; [done | by eapply makedirs_extends | by rewrite app_nil_r]. }
  apply makedirs_extends in Hm.
  destruct (count_files fuel fs2 source) as [total|]; [| done].
  destruct (walk_copy _ _ _ _ _ _ _ _) as [[e s']|] eqn:Hw; [| done].
  pose proof (walk_copy_loop_trace _ _ _ _ _ _ _ _ _ _ Hw)
    as (nw & Htr & _ & _).
  apply walk_copy_extends in Hw. cbn [disk trace] in Hw, Htr.
  intros H. exists (Return final), fs1, tr0, nw.
  assert (fs' = disk s' ∧ tr = trace s') as [-> ->]
    by (destruct e; by injection H as _ <- <-).
  split_and!; [done | by eapply extends_trans | done].
Qed.

(** X9: a run removes nothing outside its destination, however it ends:
    whatever was in the file system at a place that is neither the
    destination nor below it is there afterwards, a directory still a
    directory and a file still a file. A run that did not ask the
    question removes nothing at all. *)
Theorem nothing_is_removed_outside_the_destination (fuel : nat)
    (now : Datetime.t) (decision : bool) (fs fs' : Fs.t)
    (source destination excl : string) (cb : bool) (operation_type : string)
    (r : result (nat * string)) (tr : list event) :
  copy_directory fuel now decision fs source destination excl cb operation_type
  = Some (r, fs', tr) →
  Fs.cwd fs' = Fs.cwd fs
  ∧ (asks tr = 0 → Fs.extends fs fs')
  ∧ ∀ loc nd,
      (∀ dl, Fs.locate fs destination = Some dl → Fs.below dl loc = false) →
      Fs.node_at fs loc = Some nd →
      ∃ nd', Fs.node_at fs' loc = Some nd'
             ∧ Fs.is_dir_node nd' = Fs.is_dir_node nd.
Proof.
  intros (r0 & fs1 & tr0 & new & Hprep & Hext & ->)%copy_directory_after_prepare.
  apply prepare_outside in Hprep as (Hcwd & Hsame & Hout).
  destruct Hext as [Hcwd' Hnodes]. split_and!.
  - congruence.
  - rewrite asks_app. intros Ha. rewrite <- Hsame by lia. by split.
  - intros loc nd Hb Hn. apply Hnodes. by rewrite Hout.
Qed.

Lemma nothing_is_removed_outside_the_destination_witness :
  ∃ fs',
    copy_directory 5 Samples.now1 true Samples.fs_runtime "/home/u/proj"
      "/home/u/run" "" false "runtime"
    = Some (Return (1, "/home/u/run"), fs',
            [EvAsk; EvCopied "/home/u/proj/a.txt" "/home/u/run/a.txt"])
    ∧ Fs.node_at fs' ["home"; "u"; "run"; "old.txt"] = None
    ∧ Fs.cwd fs' = Fs.cwd Samples.fs_runtime
    ∧ ∀ loc nd,
        (∀ dl, Fs.locate Samples.fs_runtime "/home/u/run" = Some dl →
               Fs.below dl loc = false) →
        Fs.node_at Samples.fs_runtime loc = Some nd →
        ∃ nd', Fs.node_at fs' loc = Some nd'
               ∧ Fs.is_dir_node nd' = Fs.is_dir_node nd.
Proof.
  assert (copy_directory 5 Samples.now1 true Samples.fs_runtime "/home/u/proj"
            "/home/u/run" "" false "runtime"
          = Some (Return (1, "/home/u/run"),
                  Samples.left_by
                    (copy_directory 5 Samples.now1 true Samples.fs_runtime
                       "/home/u/proj" "/home/u/run" "" false "runtime")
                    Samples.fs_runtime,
                  [EvAsk; EvCopied "/home/u/proj/a.txt" "/home/u/run/a.txt"]))
    as Hrun by (vm_compute; reflexivity).
  eexists. split; [exact Hrun |]. split; [vm_compute; reflexivity |].
  pose proof (nothing_is_removed_outside_the_destination _ _ _ _ _ _ _ _ _ _
                _ _ Hrun) as (Hcwd & _ & Hout).
  split; [exact Hcwd | exact Hout].
Defined.

(** ** The project table *)

Lemma existsb_has_name (n : string) (l : list ProjectManager.project) :
  existsb (ProjectManager.has_name n) l = true
  ↔ n ∈ List.map ProjectManager.name l.
Proof.
  induction l as [|q l IH]; cbn [existsb List.map].
  - split; [done | by intros ?%elem_of_nil].
  - rewrite orb_true_iff, IH, elem_of_cons. unfold ProjectManager.has_name.
    rewrite String.eqb_eq. split; intros [H | H]; auto.
Qed.

Lemma largest_id_ge (p : ProjectManager.project)
    (l : list ProjectManager.project) :
  p ∈ l → ProjectManager.id p ≤ ProjectManager.largest_id l.
Proof.
  induction l as [|q l IH]; [by intros ?%elem_of_nil |].
  cbn [ProjectManager.largest_id fold_right].
  intros [-> | Hin]%elem_of_cons; [lia |].
  specialize (IH Hin). unfold ProjectManager.largest_id in IH. lia.
Qed.

Lemma add_project_cases (now : Datetime.t) (n s b r e : string)
    (db : ProjectManager.t) :
  (n ∈ List.map ProjectManager.name (ProjectManager.rows db)
   ∧ ProjectManager.add_project now n s b r e db = (false, db))
  ∨ ((n ∉ List.map ProjectManager.name (ProjectManager.rows db))
     ∧ ∃ i, ProjectManager.sequence db < i
          ∧ (∀ p, p ∈ ProjectManager.rows db → ProjectManager.id p < i)
          ∧ ProjectManager.add_project now n s b r e db
            = (true,
               {| ProjectManager.rows :=
                    ProjectManager.rows db ++
                    [ProjectManager.mk_project i n s b r e None now];
                  ProjectManager.sequence := i |})).
Proof.
  unfold ProjectManager.add_project.
  destruct (existsb _ _) eqn:Hex.
  - left. by apply existsb_has_name in Hex.
  - right. split.
    { rewrite <- existsb_has_name. by rewrite Hex. }
    eexists. split_and!; [| | reflexivity]; [lia |].
    intros p Hp%largest_id_ge. lia.
Qed.

Lemma add_project_consistent (now : Datetime.t) (n s b r e : string)
    (db : ProjectManager.t) :
  ProjectManager.consistent db →
  ProjectManager.consistent (ProjectManager.add_project now n s b r e db).2.
Proof.
  intros (Hn & Hi & Hs).
  destruct (add_project_cases now n s b r e db)
    as [[_ ->] | (Hfresh & i & Hseq & Hlt & ->)]; [done |].
  cbn [snd]. unfold ProjectManager.consistent.
  cbn [ProjectManager.rows ProjectManager.sequence].
  rewrite !List.map_app. cbn [List.map ProjectManager.name ProjectManager.id].
  split_and!.
  - apply NoDup_app. split_and!; [done | | apply NoDup_singleton].
    intros x Hx ->%list_elem_of_singleton. done.
  - apply NoDup_app. split_and!; [done | | apply NoDup_singleton].
    intros x (p & -> & Hp)%list_elem_of_fmap Hx%list_elem_of_singleton.
    specialize (Hlt p Hp). lia.
  - apply Forall_app. split.
    + eapply Forall_impl; [exact Hs |]. cbn. intros p ?. lia.
    + apply Forall_singleton. cbn. lia.
Qed.

Lemma update_last_backup_columns (now : Datetime.t) (i : nat)
    (db : ProjectManager.t) :
  let db' := ProjectManager.update_last_backup now i db in
  List.map ProjectManager.id (ProjectManager.rows db')
  = List.map ProjectManager.id (ProjectManager.rows db)
  ∧ List.map ProjectManager.name (ProjectManager.rows db')
    = List.map ProjectManager.name (ProjectManager.rows db)
  ∧ ProjectManager.sequence db' = ProjectManager.sequence db.
Proof.
  cbn. rewrite !List.map_map. split_and!; [| | done].
  all: apply List.map_ext; intros p; by destruct (ProjectManager.has_id i p).
Qed.

Lemma update_last_backup_consistent (now : Datetime.t) (i : nat)
    (db : ProjectManager.t) :
  ProjectManager.consistent db →
  ProjectManager.consistent (ProjectManager.update_last_backup now i db).
Proof.
  intros (Hn & Hi & Hs).
  destruct (update_last_backup_columns now i db) as (Ei & En & Es).
  unfold ProjectManager.consistent. rewrite Ei, En. split_and!; [done | done |].
  cbn. apply Forall_forall. intros q (p & -> & Hp)%list_elem_of_fmap.
  rewrite Forall_forall in Hs. specialize (Hs p Hp).
  by destruct (ProjectManager.has_id i p).
Qed.

Lemma NoDup_map_filter {A B} (f : A → B) (P : A → bool) (l : list A) :
  NoDup (List.map f l) → NoDup (List.map f (List.filter P l)).
Proof.
  induction l as [|x l IH]; [done |]. cbn [List.map List.filter].
  intros [Hx Hl]%NoDup_cons. destruct (P x); [| by apply IH].
  cbn [List.map]. apply NoDup_cons. split; [| by apply IH].
  intros (y & Hy & Hin)%list_elem_of_fmap. apply Hx.
  apply list_elem_of_fmap. exists y. split; [done |].
  apply list_elem_of_In, List.filter_In in Hin as [Hin _].
  by apply list_elem_of_In.
Qed.

Lemma delete_project_consistent (i : nat) (db : ProjectManager.t) :
  ProjectManager.consistent db →
  ProjectManager.consistent (ProjectManager.delete_project i db).
Proof.
  intros (Hn & Hi & Hs). unfold ProjectManager.consistent. cbn. split_and!.
  - by apply NoDup_map_filter.
  - by apply NoDup_map_filter.
  - apply Forall_forall. intros p Hp.
    apply list_elem_of_In, List.filter_In in Hp as [Hp _].
    rewrite Forall_forall in Hs. by apply Hs, list_elem_of_In.
Qed.

Lemma perform_consistent (db : ProjectManager.t) (c : ProjectManager.call) :
  ProjectManager.consistent db →
  ProjectManager.consistent (ProjectManager.perform db c).
Proof.
  destruct c; cbn [ProjectManager.perform].
  - apply add_project_consistent.
  - apply update_last_backup_consistent.
  - apply delete_project_consistent.
Qed.

Lemma perform_all_consistent (calls : list ProjectManager.call)
    (db : ProjectManager.t) :
  ProjectManager.consistent db →
  ProjectManager.consistent (fold_left ProjectManager.perform calls db).
Proof.
  revert db. induction calls as [|c calls IH]; intros db Hdb; [done |].
  cbn [fold_left]. by apply IH, perform_consistent.
Qed.

(** X10: whatever is added, updated and deleted, in whatever order, from
    a new database file on: no two projects have the same name, no two
    the same id, and every id is at least 1 and at most the largest id
    given out so far. *)
Theorem project_table_stays_consistent (calls : list ProjectManager.call) :
  ProjectManager.consistent (ProjectManager.after calls).
Proof.
  apply perform_all_consistent. split_and!; constructor.
Qed.

Lemma sequence_grows (db : ProjectManager.t) (c : ProjectManager.call) :
  ProjectManager.sequence db
  ≤ ProjectManager.sequence (ProjectManager.perform db c).
Proof.
  destruct c as [now n s b r e | now i | i]; cbn [ProjectManager.perform];
    [| done | done].
  destruct (add_project_cases now n s b r e db)
    as [[_ ->] | (_ & i & Hseq & _ & ->)]; cbn; lia.
Qed.

Lemma sequence_grows_all (calls : list ProjectManager.call)
    (db : ProjectManager.t) :
  ProjectManager.sequence db
  ≤ ProjectManager.sequence (fold_left ProjectManager.perform calls db).
Proof.
  revert db. induction calls as [|c calls IH]; intros db; [done |].
  cbn [fold_left]. etrans; [apply (sequence_grows db c) | apply IH].
Qed.

(** X11: an id is given out once. A project that is added gets an id
    larger than the id of every project added before it, whatever was
    updated or deleted in between, the earlier project included; so no
    id of a deleted project comes back. *)
Theorem ids_are_never_reused (db0 db1 db2 : ProjectManager.t)
    (calls : list ProjectManager.call) (now1 now2 : Datetime.t)
    (n1 s1 b1 r1 e1 n2 s2 b2 r2 e2 : string) :
  ProjectManager.add_project now1 n1 s1 b1 r1 e1 db0 = (true, db1) →
  ProjectManager.add_project now2 n2 s2 b2 r2 e2
    (fold_left ProjectManager.perform calls db1) = (true, db2) →
  ∃ i1 i2,
    ProjectManager.rows db1
    = ProjectManager.rows db0
      ++ [ProjectManager.mk_project i1 n1 s1 b1 r1 e1 None now1]
    ∧ ProjectManager.rows db2
      = ProjectManager.rows (fold_left ProjectManager.perform calls db1)
        ++ [ProjectManager.mk_project i2 n2 s2 b2 r2 e2 None now2]
    ∧ i1 < i2
    ∧ ∀ p, p ∈ ProjectManager.rows db0 → ProjectManager.id p < i1.
Proof.
  intros H1 H2.
  destruct (add_project_cases now1 n1 s1 b1 r1 e1 db0)
    as [[_ E1] | (_ & i1 & _ & Hlt1 & E1)]; [congruence |].
  rewrite E1 in H1. injection H1 as <-.
  pose proof (sequence_grows_all calls
                {| ProjectManager.rows :=
                     ProjectManager.rows db0 ++
                     [ProjectManager.mk_project i1 n1 s1 b1 r1 e1 None now1];
                   ProjectManager.sequence := i1 |}) as Hgrow.
  cbn [ProjectManager.sequence] in Hgrow.
  destruct (add_project_cases now2 n2 s2 b2 r2 e2
              (fold_left ProjectManager.perform calls
                 {| ProjectManager.rows :=
                      ProjectManager.rows db0 ++
                      [ProjectManager.mk_project i1 n1 s1 b1 r1 e1 None now1];
                    ProjectManager.sequence := i1 |}))
    as [[_ E2] | (_ & i2 & Hseq2 & _ & E2)]; [congruence |].
  rewrite E2 in H2. injection H2 as <-.
  exists i1, i2. split_and!; [done | done | lia | done].
Qed.

Lemma ids_are_never_reused_witness :
  ∃ i1 i2,
    ProjectManager.rows
      (ProjectManager.after
         [ProjectManager.AddProject Samples.now1 "app" "/home/u/proj"
            "/home/u/bk" "" ""])
    = ProjectManager.rows ProjectManager.empty
      ++ [ProjectManager.mk_project i1 "app" "/home/u/proj" "/home/u/bk" ""
            "" None Samples.now1]
    ∧ ProjectManager.rows
        (ProjectManager.after
           [ProjectManager.AddProject Samples.now1 "app" "/home/u/proj"
              "/home/u/bk" "" "";
            ProjectManager.DeleteProject 1;
            ProjectManager.AddProject Samples.now2 "app" "/home/u/proj"
              "/home/u/bk" "" ""])
      = ProjectManager.rows
          (fold_left ProjectManager.perform [ProjectManager.DeleteProject 1]
             (ProjectManager.after
                [ProjectManager.AddProject Samples.now1 "app" "/home/u/proj"
                   "/home/u/bk" "" ""]))
        ++ [ProjectManager.mk_project i2 "app" "/home/u/proj" "/home/u/bk" ""
              "" None Samples.now2]
    ∧ i1 < i2
    ∧ ∀ p, p ∈ ProjectManager.rows ProjectManager.empty →
           ProjectManager.id p < i1.
Proof.
  apply (ids_are_never_reused ProjectManager.empty
           (ProjectManager.after
              [ProjectManager.AddProject Samples.now1 "app" "/home/u/proj"
                 "/home/u/bk" "" ""])
           (ProjectManager.after
              [ProjectManager.AddProject Samples.now1 "app" "/home/u/proj"
                 "/home/u/bk" "" "";
               ProjectManager.DeleteProject 1;
               ProjectManager.AddProject Samples.now2 "app" "/home/u/proj"
                 "/home/u/bk" "" ""])
           [ProjectManager.DeleteProject 1] Samples.now1 Samples.now2
           "app" "/home/u/proj" "/home/u/bk" "" ""
           "app" "/home/u/proj" "/home/u/bk" "" "").
  - reflexivity.
  - reflexivity.
Defined.

(** *** The order of the listing *)

Lemma string_leb_trans (a b c : string) :
  String.leb a b = true → String.leb b c = true → String.leb a c = true.
Proof.
  unfold String.leb.
  assert (∀ x y : string, (if String.compare x y is Gt then false else true)
                          = true ↔ String.compare x y ≠ Gt) as Hiff.
  { intros x y. by destruct (String.compare x y). }
  rewrite !Hiff. clear Hiff. revert b c.
  induction a as [|x a IH]; intros [|y b] [|z c]; cbn [String.compare];
    try done.
  unfold Ascii.compare.
  destruct (N.compare_spec (N_of_ascii x) (N_of_ascii y)) as [Exy | Lxy | Gxy];
    destruct (N.compare_spec (N_of_ascii y) (N_of_ascii z))
      as [Eyz | Lyz | Gyz];
    destruct (N.compare_spec (N_of_ascii x) (N_of_ascii z))
      as [Exz | Lxz | Gxz]; try done; try lia.
  apply IH.
Qed.

Lemma insert_by_name_perm (p : ProjectManager.project)
    (l : list ProjectManager.project) :
  ProjectManager.insert_by_name p l ≡ₚ p :: l.
Proof.
  induction l as [|q l IH]; cbn [ProjectManager.insert_by_name]; [done |].
  destruct (String.leb _ _); [done |]. rewrite IH. apply Permutation_swap.
Qed.

Lemma order_by_name_perm (l : list ProjectManager.project) :
  ProjectManager.order_by_name l ≡ₚ l.
Proof.
  induction l as [|p l IH]; [done |].
  cbn [ProjectManager.order_by_name fold_right].
  rewrite insert_by_name_perm. by f_equiv.
Qed.

Lemma insert_by_name_sorted (p : ProjectManager.project)
    (l : list ProjectManager.project) :
  ProjectManager.sorted_by_name l →
  ProjectManager.sorted_by_name (ProjectManager.insert_by_name p l).
Proof.
  unfold ProjectManager.sorted_by_name.
  induction l as [|q l IH]; cbn [ProjectManager.insert_by_name].
  { intros _. by repeat constructor. }
  intros Hs. pose proof (StronglySorted_inv Hs) as [Hl Hq].
  destruct (String.leb _ _) eqn:Hpq.
  - constructor; [done |]. constructor; [done |].
    eapply Forall_impl; [exact Hq |]. cbn. intros x Hx.
    by eapply string_leb_trans.
  - constructor; [by apply IH |].
    assert (String.leb (ProjectManager.name q) (ProjectManager.name p) = true)
      as Hqp.
    { destruct (String.leb_total (ProjectManager.name p)
                  (ProjectManager.name q)); congruence. }
    apply Forall_forall. intros x Hx.
    rewrite insert_by_name_perm in Hx.
    apply elem_of_cons in Hx as [-> | Hx]; [done |].
    rewrite Forall_forall in Hq. by apply Hq.
Qed.

Lemma order_by_name_sorted (l : list ProjectManager.project) :
  ProjectManager.sorted_by_name (ProjectManager.order_by_name l).
Proof.
  induction l as [|p l IH]; [constructor |].
  cbn [ProjectManager.order_by_name fold_right].
  by apply insert_by_name_sorted.
Qed.

(** A project is looked up by its id in a list where ids are not
    repeated. *)
Lemma find_by_id (l : list ProjectManager.project)
    (p : ProjectManager.project) :
  NoDup (List.map ProjectManager.id l) → p ∈ l →
  List.find (ProjectManager.has_id (ProjectManager.id p)) l = Some p.
Proof.
  induction l as [|q l IH]; [by intros _ ?%elem_of_nil |].
  cbn [List.map List.find]. intros [Hq Hl]%NoDup_cons Hin.
  unfold ProjectManager.has_id at 1.
  destruct (Nat.eqb_spec (ProjectManager.id q) (ProjectManager.id p))
    as [Heq | Hne].
  - apply elem_of_cons in Hin as [-> | Hin]; [done |].
    destruct Hq. rewrite Heq. apply list_elem_of_fmap. by exists p.
  - apply elem_of_cons in Hin as [-> | Hin]; [done |]. by apply IH.
Qed.

Lemma find_by_id_None (l : list ProjectManager.project) (i : nat) :
  (∀ p, p ∈ l → ProjectManager.id p ≠ i) →
  List.find (ProjectManager.has_id i) l = None.
Proof.
  induction l as [|q l IH]; [done |]. intros Hall. cbn [List.find].
  unfold ProjectManager.has_id at 1.
  destruct (Nat.eqb_spec (ProjectManager.id q) i) as [Heq | Hne].
  - destruct (Hall q); [by left | done].
  - apply IH. intros p Hp. apply Hall. by right.
Qed.

(** X12: [get_all_projects] lists every project of the table, each
    once, in the order of the names; where the table is consistent the
    project with a given id is found in the listing by its id. *)
Theorem get_all_projects_lists_each_project_in_name_order
    (db : ProjectManager.t) :
  ProjectManager.get_all_projects db ≡ₚ ProjectManager.rows db
  ∧ ProjectManager.sorted_by_name (ProjectManager.get_all_projects db)
  ∧ (ProjectManager.consistent db →
     ∀ p, p ∈ ProjectManager.rows db →
       List.find (ProjectManager.has_id (ProjectManager.id p))
         (ProjectManager.get_all_projects db) = Some p).
Proof.
  unfold ProjectManager.get_all_projects. split_and!.
  - apply order_by_name_perm.
  - apply order_by_name_sorted.
  - intros (_ & Hi & _) p Hp. apply find_by_id.
    + by rewrite order_by_name_perm.
    + by rewrite order_by_name_perm.
Qed.

Lemma get_all_projects_lists_each_project_in_name_order_witness :
  List.find (ProjectManager.has_id 1)
    (ProjectManager.get_all_projects
       (ProjectManager.after
          [ProjectManager.AddProject Samples.now1 "web" "/home/u/web"
             "/home/u/bk" "" "";
           ProjectManager.AddProject Samples.now2 "app" "/home/u/proj"
             "/home/u/bk" "/home/u/run" "*.log"]))
  = Some (ProjectManager.mk_project 1 "web" "/home/u/web" "/home/u/bk" "" ""
            None Samples.now1).
Proof.
  refine (proj2 (proj2
            (get_all_projects_lists_each_project_in_name_order
               (ProjectManager.after
                  [ProjectManager.AddProject Samples.now1 "web" "/home/u/web"
                     "/home/u/bk" "" "";
                   ProjectManager.AddProject Samples.now2 "app" "/home/u/proj"
                     "/home/u/bk" "/home/u/run" "*.log"]))) _
            (ProjectManager.mk_project 1 "web" "/home/u/web" "/home/u/bk" ""
               "" None Samples.now1) _).
  - apply perform_all_consistent. split_and!; constructor.
  - apply elem_of_cons. by left.
Defined.

(** X13: [add_project] and the listing. A name that is in the table is
    refused and the database stays as it is; any other name is taken,
    and then the listing holds, under a new id, a project with exactly
    the five strings that were passed, no date of a backup, and every
    project that was there before, unchanged. *)
Theorem add_project_then_lookup (now : Datetime.t) (n s b r e : string)
    (db : ProjectManager.t) :
  ProjectManager.consistent db →
  (n ∈ List.map ProjectManager.name (ProjectManager.rows db)
   ∧ ProjectManager.add_project now n s b r e db = (false, db))
  ∨ ((n ∉ List.map ProjectManager.name (ProjectManager.rows db))
     ∧ ∃ i db',
         ProjectManager.add_project now n s b r e db = (true, db')
         ∧ (∀ p, p ∈ ProjectManager.rows db → ProjectManager.id p ≠ i)
         ∧ List.find (ProjectManager.has_id i)
             (ProjectManager.get_all_projects db')
           = Some (ProjectManager.mk_project i n s b r e None now)
         ∧ ∀ p, p ∈ ProjectManager.rows db →
             List.find (ProjectManager.has_id (ProjectManager.id p))
               (ProjectManager.get_all_projects db') = Some p).
Proof.
  intros Hdb.
  pose proof (add_project_consistent now n s b r e db Hdb) as Hdb'.
  destruct (add_project_cases now n s b r e db)
    as [[Hin E] | (Hfresh & i & Hseq & Hlt & E)]; [by left | right].
  split; [done |]. rewrite E in Hdb'. cbn [snd] in Hdb'.
  destruct Hdb' as (_ & Hids & _). cbn [ProjectManager.rows] in Hids.
  eexists i, _. split; [exact E |].
  unfold ProjectManager.get_all_projects. cbn [ProjectManager.rows].
  split_and!.
  - intros p Hp%Hlt. lia.
  - apply (find_by_id _ (ProjectManager.mk_project i n s b r e None now)).
    + by rewrite order_by_name_perm.
    + rewrite order_by_name_perm. apply elem_of_app. right. by left.
  - intros p Hp. apply find_by_id.
    + by rewrite order_by_name_perm.
    + rewrite order_by_name_perm. apply elem_of_app. by left.
Qed.

Lemma add_project_then_lookup_witness :
  ("app" ∈ List.map ProjectManager.name
             (ProjectManager.rows
                (ProjectManager.after
                   [ProjectManager.AddProject Samples.now1 "app"
                      "/home/u/proj" "/home/u/bk" "" ""]))
   ∧ ProjectManager.add_project Samples.now2 "app" "/home/u/other"
       "/home/u/bk2" "" ""
       (ProjectManager.after
          [ProjectManager.AddProject Samples.now1 "app" "/home/u/proj"
             "/home/u/bk" "" ""])
     = (false,
        ProjectManager.after
          [ProjectManager.AddProject Samples.now1 "app" "/home/u/proj"
             "/home/u/bk" "" ""]))
  ∨ (("app" ∉ List.map ProjectManager.name
                (ProjectManager.rows
                   (ProjectManager.after
                      [ProjectManager.AddProject Samples.now1 "app"
                         "/home/u/proj" "/home/u/bk" "" ""])))
     ∧ ∃ i db',
         ProjectManager.add_project Samples.now2 "app" "/home/u/other"
           "/home/u/bk2" "" ""
           (ProjectManager.after
              [ProjectManager.AddProject Samples.now1 "app" "/home/u/proj"
                 "/home/u/bk" "" ""]) = (true, db')
         ∧ (∀ p, p ∈ ProjectManager.rows
                       (ProjectManager.after
                          [ProjectManager.AddProject Samples.now1 "app"
                             "/home/u/proj" "/home/u/bk" "" ""]) →
                 ProjectManager.id p ≠ i)
         ∧ List.find (ProjectManager.has_id i)
             (ProjectManager.get_all_projects db')
           = Some (ProjectManager.mk_project i "app" "/home/u/other"
                     "/home/u/bk2" "" "" None Samples.now2)
         ∧ ∀ p, p ∈ ProjectManager.rows
                      (ProjectManager.after
                         [ProjectManager.AddProject Samples.now1 "app"
                            "/home/u/proj" "/home/u/bk" "" ""]) →
             List.find (ProjectManager.has_id (ProjectManager.id p))
               (ProjectManager.get_all_projects db') = Some p).
Proof.
  apply (add_project_then_lookup Samples.now2 "app" "/home/u/other"
           "/home/u/bk2" "" ""
           (ProjectManager.after
              [ProjectManager.AddProject Samples.now1 "app" "/home/u/proj"
                 "/home/u/bk" "" ""])).
  apply perform_all_consistent. split_and!; constructor.
Defined.

Lemma filter_all {A} (f : A → bool) (l : list A) :
  (∀ x, x ∈ l → f x = true) → List.filter f l = l.
Proof.
  induction l as [|x l IH]; [done |]. intros Hall. cbn [List.filter].
  rewrite Hall by (by left). f_equal. apply IH. intros y Hy. apply Hall.
  by right.
Qed.

(** X14: [delete_project] removes the project with the given id and no
    other: afterwards the listing has no project with this id and still
    has every other project, unchanged; an id that no project has
    leaves the database as it is; and the name of the deleted project
    is free again for [add_project]. *)
Theorem delete_project_removes_one_project (i : nat)
    (db : ProjectManager.t) :
  ProjectManager.consistent db →
  List.find (ProjectManager.has_id i)
    (ProjectManager.get_all_projects (ProjectManager.delete_project i db))
  = None
  ∧ (∀ p, p ∈ ProjectManager.rows db → ProjectManager.id p ≠ i →
       List.find (ProjectManager.has_id (ProjectManager.id p))
         (ProjectManager.get_all_projects (ProjectManager.delete_project i db))
       = Some p)
  ∧ ((∀ p, p ∈ ProjectManager.rows db → ProjectManager.id p ≠ i) →
     ProjectManager.delete_project i db = db)
  ∧ ∀ p, p ∈ ProjectManager.rows db → ProjectManager.id p = i →
      ∀ now s b r e,
        (ProjectManager.add_project now (ProjectManager.name p) s b r e
           (ProjectManager.delete_project i db)).1 = true.
Proof.
  intros Hdb.
  pose proof (delete_project_consistent i db Hdb) as (_ & Hids' & _).
  destruct Hdb as (Hnames & Hids & _).
  assert (∀ p, p ∈ ProjectManager.rows (ProjectManager.delete_project i db)
               ↔ p ∈ ProjectManager.rows db ∧ ProjectManager.id p ≠ i)
    as Hrows.
  { intros p. cbn [ProjectManager.delete_project ProjectManager.rows].
    rewrite !list_elem_of_In, List.filter_In. unfold ProjectManager.has_id.
    rewrite negb_true_iff, Nat.eqb_neq. done. }
  unfold ProjectManager.get_all_projects. split_and!.
  - apply find_by_id_None. intros p. rewrite order_by_name_perm, Hrows.
    by intros [_ ?].
  - intros p Hp Hne. apply find_by_id.
    + by rewrite order_by_name_perm.
    + rewrite order_by_name_perm. by apply Hrows.
  - intros Hall. destruct db as [rows sequence].
    unfold ProjectManager.delete_project. cbn [ProjectManager.rows] in *.
    f_equal. apply filter_all. intros p Hp. unfold ProjectManager.has_id.
    apply negb_true_iff, Nat.eqb_neq. by apply Hall.
  - intros p Hp Hi now s b r e.
    destruct (add_project_cases now (ProjectManager.name p) s b r e
                (ProjectManager.delete_project i db))
      as [[Hin _] | (_ & j & _ & _ & ->)]; [| done].
    exfalso. apply list_elem_of_fmap in Hin as (q & Hname & Hq).
    apply Hrows in Hq as [Hq Hqi]. apply Hqi. rewrite <- Hi.
    clear -Hnames Hname Hp Hq. destruct db as [rows sequence].
    cbn [ProjectManager.rows] in *.
    induction rows as [|x rows IH]; [by apply elem_of_nil in Hp |].
    cbn [List.map] in Hnames. apply NoDup_cons in Hnames as [Hx Hnd].
    apply elem_of_cons in Hp as [-> | Hp];
      apply elem_of_cons in Hq as [-> | Hq]; [done | | | by apply IH].
    + destruct Hx. rewrite Hname. apply list_elem_of_fmap. by exists q.
    + destruct Hx. rewrite <- Hname. apply list_elem_of_fmap. by exists p.
Qed.

Lemma delete_project_removes_one_project_witness :
  List.find (ProjectManager.has_id 1)
    (ProjectManager.get_all_projects
       (ProjectManager.delete_project 1
          (ProjectManager.after
             [ProjectManager.AddProject Samples.now1 "web" "/home/u/web"
                "/home/u/bk" "" "";
              ProjectManager.AddProject Samples.now2 "app" "/home/u/proj"
                "/home/u/bk" "/home/u/run" "*.log"])))
  = None.
Proof.
  apply (delete_project_removes_one_project 1
           (ProjectManager.after
              [ProjectManager.AddProject Samples.now1 "web" "/home/u/web"
                 "/home/u/bk" "" "";
               ProjectManager.AddProject Samples.now2 "app" "/home/u/proj"
                 "/home/u/bk" "/home/u/run" "*.log"])).
  apply perform_all_consistent. split_and!; constructor.
Defined.

(** ** What an accepted path is *)

(** What [validate_path] finds when it accepts, and what it leaves. *)
Lemma validate_path_accepts (system : host) (path path_type : string)
    (fs fs' : Fs.t) (msg : reason) :
  validate_path system fs path path_type = (true, msg, fs') →
  msg = Ok
  ∧ strip path ≠ ""
  ∧ is_system_path system fs (strip path) = Some false
  ∧ is_root_drive fs (strip path) = false
  ∧ (path_type = "backup" → has_sufficient_depth fs (strip path) 3 = true)
  ∧ Fs.exists_ fs' (str (parent (Path (strip path)))) = true
  ∧ Fs.isfile fs' (str (Path (strip path))) = false
  ∧ Fs.extends fs fs'.
Proof.
  unfold validate_path. rewrite blank_test.
  destruct (String.eqb_spec (strip path) "") as [He | He]; [done |].
  destruct (is_system_path system fs (strip path)) as [[] |]; [done | | done].
  destruct (is_root_drive fs (strip path)); [done |].
  destruct (String.eqb_spec path_type "backup") as [Ht | Ht];
    destruct (has_sufficient_depth fs (strip path) 3) eqn:Hd;
    cbn [andb negb]; try done.
  all: destruct (Pathlib.exists_ fs (parent (Path (strip path)))) eqn:Hex;
    cbn [negb].
  all: try (destruct (Pathlib.mkdir fs (parent (Path (strip path))))
              as [[[m | [] p] |] fs1] eqn:Hmk; try done).
  all: rewrite exists_and_is_file.
  all: match goal with
       | |- context [Pathlib.is_file ?f ?p] =>
           destruct (Pathlib.is_file f p) eqn:Hf; [done |]
       end.
  all: intros [= <- <-]; split_and!; try done.
  all: try apply extends_refl.
  all: try (by eapply makedirs_extends).
  all: apply isdir_exists; by eapply makedirs_isdir.
Qed.

Lemma validate_path_extends (system : host) (path path_type : string)
    (fs : Fs.t) :
  Fs.extends fs (validate_path system fs path path_type).2.
Proof.
  unfold validate_path.
  destruct (_ || _); [apply extends_refl |].
  destruct (is_system_path _ _ _) as [[] |];
    [apply extends_refl | | apply extends_refl].
  destruct (is_root_drive _ _); [apply extends_refl |].
  destruct (_ && _); [apply extends_refl |].
  destruct (negb _).
  - destruct (Pathlib.mkdir fs _) as [[[m | [] p] |] fs1] eqn:Hmk;
      try destruct (_ && _); cbn [snd]; by eapply makedirs_extends.
  - destruct (_ && _); apply extends_refl.
Qed.

(** X15: a path that [validate_path] accepts has passed every check, on
    the path without the white space around it: it is not blank, not
    below a system directory, not the root, deep enough if it is for
    backups, and it is no regular file; its parent exists afterwards;
    and the validation has removed nothing and turned no file into a
    directory or the other way round. *)
Theorem accepted_path_passed_every_check (system : host)
    (path path_type : string) (fs fs' : Fs.t) (msg : reason) :
  validate_path system fs path path_type = (true, msg, fs') →
  msg = Ok
  ∧ strip path ≠ ""
  ∧ is_system_path system fs (strip path) = Some false
  ∧ is_root_drive fs (strip path) = false
  ∧ (path_type = "backup" → has_sufficient_depth fs (strip path) 3 = true)
  ∧ Fs.exists_ fs' (str (parent (Path (strip path)))) = true
  ∧ Fs.isfile fs' (str (Path (strip path))) = false
  ∧ Fs.extends fs fs'.
Proof. apply validate_path_accepts. Qed.

Lemma accepted_path_passed_every_check_witness :
  Ok = Ok
  ∧ strip " /home/user/Backups/proj " ≠ ""
  ∧ is_system_path Linux Samples.fs_home (strip " /home/user/Backups/proj ")
    = Some false
  ∧ is_root_drive Samples.fs_home (strip " /home/user/Backups/proj ") = false
  ∧ ("backup" = "backup" →
     has_sufficient_depth Samples.fs_home (strip " /home/user/Backups/proj ")
       3 = true)
  ∧ Fs.exists_
      (validate_path Linux Samples.fs_home " /home/user/Backups/proj "
         "backup").2
      (str (parent (Path (strip " /home/user/Backups/proj ")))) = true
  ∧ Fs.isfile
      (validate_path Linux Samples.fs_home " /home/user/Backups/proj "
         "backup").2
      (str (Path (strip " /home/user/Backups/proj "))) = false
  ∧ Fs.extends Samples.fs_home
      (validate_path Linux Samples.fs_home " /home/user/Backups/proj "
         "backup").2.
Proof.
  apply (accepted_path_passed_every_check Linux " /home/user/Backups/proj "
           "backup" Samples.fs_home).
  vm_compute. reflexivity.
Defined.

(** ** Saving a project *)

Lemma rstrip_line_feed (s : string) :
  rstrip (s +:+ String (ascii_of_nat 10) "") = rstrip s.
Proof.
  induction s as [|c s IH]; [done |].
  change (String c s +:+ String (ascii_of_nat 10) "")
    with (String c (s +:+ String (ascii_of_nat 10) "")).
  cbn [rstrip]. by rewrite IH.
Qed.

(** The line feed that the text box adds is stripped with the rest. *)
Lemma strip_line_feed (s : string) :
  strip (s +:+ String (ascii_of_nat 10) "") = strip s.
Proof.
  unfold strip. induction s as [|c s IH]; [done |].
  change (String c s +:+ String (ascii_of_nat 10) "")
    with (String c (s +:+ String (ascii_of_nat 10) "")).
  cbn [lstrip]. destruct (isspace c); [exact IH |].
  apply (rstrip_line_feed (String c s)).
Qed.

Lemma parents_elem (p q : PurePath.t) :
  q ∈ CodeKeeperGUI.parents p
  ↔ ∃ k, k < length (comps p)
       ∧ q = {| root := root p; comps := take k (comps p) |}.
Proof.
  unfold CodeKeeperGUI.parents. rewrite list_elem_of_fmap.
  split; intros (k & H1 & H2).
  - exists k. split; [| done].
    apply list_elem_of_In, in_rev, in_seq in H2. lia.
  - exists k. split; [done |].
    apply list_elem_of_In. rewrite <- in_rev. apply in_seq. lia.
Qed.

(** Two different absolute paths of which neither is an ancestor of the
    other: neither list of names begins with the other. *)
Lemma not_parent_not_prefix (p q : PurePath.t) :
  root p = root q → p ≠ q → p ∉ CodeKeeperGUI.parents q →
  ¬ comps p `prefix_of` comps q.
Proof.
  intros Hroot Hne Hpar [k Hk]. apply Hpar, parents_elem.
  exists (length (comps p)). split.
  - rewrite Hk, length_app. destruct k as [|x k]; [| cbn; lia].
    destruct Hne. destruct p, q. cbn in *. rewrite app_nil_r in Hk.
    congruence.
  - rewrite Hk, take_app_length. destruct p. cbn in *. congruence.
Qed.

Lemma resolve_cwd (fs fs' : Fs.t) (p : PurePath.t) :
  Fs.cwd fs' = Fs.cwd fs → Pathlib.resolve fs' p = Pathlib.resolve fs p.
Proof. intros H. unfold Pathlib.resolve. by rewrite H. Qed.

(** X16: [save_project] stores a project only after every check: the
    name and the two paths are not empty, the source, the backup path
    and, if one is given, the runtime path have each been accepted by
    [validate_path], the name is new, and of the absolute source and
    backup paths neither begins with the other (so they differ and
    neither lies inside the other). What is stored are the fields as
    they were typed, the exclusion text without the white space around
    it. A save that is refused leaves the database as it is. In either
    case nothing is removed from the file system. *)
Theorem save_project_stores_only_checked_projects (system : host)
    (now : Datetime.t) (n s b r e : string) (fs fs' : Fs.t)
    (db db' : ProjectManager.t) (res : CodeKeeperGUI.save_result) :
  CodeKeeperGUI.save_project system now n s b r e fs db = (res, fs', db') →
  Fs.extends fs fs'
  ∧ (res ≠ CodeKeeperGUI.Saved → db' = db)
  ∧ (res = CodeKeeperGUI.Saved →
     n ≠ ""
     ∧ (∃ fs1 fs2,
          validate_path system fs s "source" = (true, Ok, fs1)
          ∧ validate_path system fs1 b "backup" = (true, Ok, fs2)
          ∧ if truthy (strip r)
            then validate_path system fs2 r "runtime" = (true, Ok, fs')
            else fs' = fs2)
     ∧ ¬ comps (Pathlib.resolve fs (Path s))
         `prefix_of` comps (Pathlib.resolve fs (Path b))
     ∧ ¬ comps (Pathlib.resolve fs (Path b))
         `prefix_of` comps (Pathlib.resolve fs (Path s))
     ∧ (n ∉ List.map ProjectManager.name (ProjectManager.rows db))
     ∧ ∃ i,
         ProjectManager.rows db'
         = ProjectManager.rows db
           ++ [ProjectManager.mk_project i n s b r (strip e) None now]).
Proof.
  unfold CodeKeeperGUI.save_project.
  destruct (truthy n) eqn:Hn; cbn [andb negb].
  2: { intros [= <- <- <-]. split_and!; [apply extends_refl | done | done]. }
  destruct (truthy s && truthy b); cbn [negb].
  2: { intros [= <- <- <-]. split_and!; [apply extends_refl | done | done]. }
  pose proof (validate_path_extends system s "source" fs) as He1.
  destruct (validate_path system fs s "source") as [[[] m1] fs1] eqn:Hv1;
    cbn [snd] in He1.
  2: { intros [= <- <- <-]. by split_and!. }
  apply validate_path_accepts in Hv1 as Ha1. destruct Ha1 as [-> _].
  pose proof (validate_path_extends system b "backup" fs1) as He2.
  destruct (validate_path system fs1 b "backup") as [[[] m2] fs2] eqn:Hv2;
    cbn [snd] in He2.
  2: { intros [= <- <- <-]. split_and!; [by eapply extends_trans | done ..]. }
  apply validate_path_accepts in Hv2 as Ha2. destruct Ha2 as [-> _].
  assert (Fs.extends fs fs2) as He12 by (by eapply extends_trans).
  set (runtime := if truthy (strip r) then _ else _).
  assert (Fs.extends fs2 runtime.2) as He3.
  { subst runtime. destruct (truthy (strip r)); [| apply extends_refl].
    apply validate_path_extends. }
  destruct runtime as [[[] m3] fs3] eqn:Hv3; cbn [snd] in He3.
  2: { intros [= <- <- <-]. split_and!; [by eapply extends_trans | done ..]. }
  assert (Fs.extends fs fs3) as He by (by eapply extends_trans).
  rewrite !(resolve_cwd fs fs3) by apply He.
  destruct (bool_decide _) eqn:Hsame.
  { intros [= <- <- <-]. by split_and!. }
  apply bool_decide_eq_false in Hsame.
  destruct (bool_decide _ || bool_decide _) eqn:Hnest.
  { intros [= <- <- <-]. by split_and!. }
  apply orb_false_iff in Hnest as [Hsb%bool_decide_eq_false
                                     Hbs%bool_decide_eq_false].
  rewrite strip_line_feed.
  destruct (add_project_cases now n s b r (strip e) db)
    as [[_ ->] | (Hfresh & i & _ & _ & ->)].
  { intros [= <- <- <-]. by split_and!. }
  intros [= <- <- <-]. split_and!; [done | done |]. intros _. split_and!.
  - intros ->. done.
  - exists fs1, fs2. split_and!; [done | done |].
    subst runtime. destruct (truthy (strip r)).
    + apply validate_path_accepts in Hv3 as Ha3. destruct Ha3 as [-> _].
      done.
    + by injection Hv3 as _ <-.
  - by apply not_parent_not_prefix.
  - apply not_parent_not_prefix; [done | congruence | done].
  - done.
  - by exists i.
Qed.

Lemma save_project_stores_only_checked_projects_witness :
  (CodeKeeperGUI.save_project Linux Samples.now1 "app" "/home/u/proj"
     "/home/u/bk" "" ".git, *.log" Samples.fs_project ProjectManager.empty).1.1
  = CodeKeeperGUI.Saved
  ∧ Fs.extends Samples.fs_project
      (CodeKeeperGUI.save_project Linux Samples.now1 "app" "/home/u/proj"
         "/home/u/bk" "" ".git, *.log" Samples.fs_project
         ProjectManager.empty).1.2.
Proof.
  split; [vm_compute; reflexivity |].
  apply (save_project_stores_only_checked_projects Linux Samples.now1 "app"
           "/home/u/proj" "/home/u/bk" "" ".git, *.log" Samples.fs_project
           (CodeKeeperGUI.save_project Linux Samples.now1 "app"
              "/home/u/proj" "/home/u/bk" "" ".git, *.log" Samples.fs_project
              ProjectManager.empty).1.2
           ProjectManager.empty
           (CodeKeeperGUI.save_project Linux Samples.now1 "app"
              "/home/u/proj" "/home/u/bk" "" ".git, *.log" Samples.fs_project
              ProjectManager.empty).2
           CodeKeeperGUI.Saved).
  vm_compute. reflexivity.
Defined.

(** ** Backup and deployment from the window *)

(** The columns that say what a project is; [last_backup] is the one
    column that is left out. *)
Lemma update_last_backup_keeps (now : Datetime.t) (i : nat)
    (db : ProjectManager.t) :
  List.map (λ p, (ProjectManager.id p, ProjectManager.name p,
                  ProjectManager.source_path p, ProjectManager.backup_path p,
                  ProjectManager.runtime_path p,
                  ProjectManager.exclude_patterns p,
                  ProjectManager.created_at p))
    (ProjectManager.rows (ProjectManager.update_last_backup now i db))
  = List.map (λ p, (ProjectManager.id p, ProjectManager.name p,
                    ProjectManager.source_path p, ProjectManager.backup_path p,
                    ProjectManager.runtime_path p,
                    ProjectManager.exclude_patterns p,
                    ProjectManager.created_at p))
      (ProjectManager.rows db)
  ∧ ∀ p, p ∈ ProjectManager.rows db → ProjectManager.id p ≠ i →
      p ∈ ProjectManager.rows (ProjectManager.update_last_backup now i db).
Proof.
  cbn [ProjectManager.update_last_backup ProjectManager.rows]. split.
  - rewrite List.map_map. apply List.map_ext. intros p.
    by destruct (ProjectManager.has_id i p).
  - intros p Hp Hne. apply list_elem_of_fmap. exists p. split; [| done].
    unfold ProjectManager.has_id.
    by destruct (Nat.eqb_spec (ProjectManager.id p) i).
Qed.

(** X17: a backup started from the window writes the date of the last
    backup of the selected project, and only if the copy has returned;
    a backup that fails, or none selected, leaves the database as it
    is. In no case does it change another column or another project, ask
    the question, or remove anything from the file system. *)
Theorem create_backup_dates_only_a_finished_backup (fuel : nat)
    (now now_db : Datetime.t) (decision : bool) (selection : option nat)
    (fs : Fs.t) (db : ProjectManager.t) (l : CodeKeeperGUI.left) :
  CodeKeeperGUI.create_backup fuel now now_db decision selection fs db
  = Some l →
  Fs.extends fs (CodeKeeperGUI.disk l)
  ∧ (EvAsk ∉ CodeKeeperGUI.seen l)
  ∧ (CodeKeeperGUI.shown l ≠ CodeKeeperGUI.Showinfo "Erfolg" →
     CodeKeeperGUI.database l = db)
  ∧ (CodeKeeperGUI.shown l = CodeKeeperGUI.Showinfo "Erfolg" →
     ∃ project n d,
       CodeKeeperGUI.get_selected_project selection db = Some project
       ∧ copy_directory fuel now decision fs
           (ProjectManager.source_path project)
           (ProjectManager.backup_path project)
           (ProjectManager.exclude_patterns project) true "backup"
         = Some (Return (n, d), CodeKeeperGUI.disk l, CodeKeeperGUI.seen l)
       ∧ CodeKeeperGUI.database l
         = ProjectManager.update_last_backup now_db
             (ProjectManager.id project) db
       ∧ ∀ p, p ∈ ProjectManager.rows db →
           ProjectManager.id p ≠ ProjectManager.id project →
           p ∈ ProjectManager.rows (CodeKeeperGUI.database l))
  ∧ List.map (λ p, (ProjectManager.id p, ProjectManager.name p,
                    ProjectManager.source_path p, ProjectManager.backup_path p,
                    ProjectManager.runtime_path p,
                    ProjectManager.exclude_patterns p,
                    ProjectManager.created_at p))
      (ProjectManager.rows (CodeKeeperGUI.database l))
    = List.map (λ p, (ProjectManager.id p, ProjectManager.name p,
                      ProjectManager.source_path p,
                      ProjectManager.backup_path p,
                      ProjectManager.runtime_path p,
                      ProjectManager.exclude_patterns p,
                      ProjectManager.created_at p))
        (ProjectManager.rows db).
Proof.
  unfold CodeKeeperGUI.create_backup.
  destruct (CodeKeeperGUI.get_selected_project selection db) as [project|].
  2: { intros [= <-]. cbn.
       split_and!; [apply extends_refl | by intros ?%elem_of_nil | done | |
                    done].
       by destruct selection. }
  destruct (copy_directory _ _ _ _ _ _ _ _ _) as [[[[[n d] | e] fs'] tr]|]
    eqn:Hrun; [| | done].
  - intros [= <-]. cbn.
    pose proof (backup_extends _ _ _ _ _ _ _ _ _ _ _ Hrun) as Hext.
    pose proof (copy_directory_trace _ _ _ _ _ _ _ _ _ _ _ _ Hrun)
      as (tr0 & new & -> & H0 & Hq & _ & Hn & _).
    destruct (update_last_backup_keeps now_db (ProjectManager.id project) db)
      as [Hkeep Hother].
    split_and!; [done | | done | | done].
    + intros (i & Hi)%list_elem_of_lookup.
      destruct H0 as [-> | ->]; [| done]. destruct (asks_none new i Hn Hi).
    + intros _. by exists project, n, d.
  - intros [= <-]. cbn.
    pose proof (backup_extends _ _ _ _ _ _ _ _ _ _ _ Hrun) as Hext.
    pose proof (copy_directory_trace _ _ _ _ _ _ _ _ _ _ _ _ Hrun)
      as (tr0 & new & -> & H0 & Hq & _ & Hn & _).
    split_and!; [done | | done | done | done].
    intros (i & Hi)%list_elem_of_lookup.
    destruct H0 as [-> | ->]; [| done]. destruct (asks_none new i Hn Hi).
Qed.

Lemma create_backup_dates_only_a_finished_backup_witness :
  ∃ l,
    CodeKeeperGUI.create_backup 5 Samples.now1 Samples.now2 false (Some 1)
      Samples.fs_project
      (ProjectManager.after
         [ProjectManager.AddProject Samples.now1 "app" "/home/u/proj"
            "/home/u/bk" "" ""]) = Some l
    ∧ CodeKeeperGUI.shown l = CodeKeeperGUI.Showinfo "Erfolg"
    ∧ ProjectManager.rows (CodeKeeperGUI.database l)
      = [ProjectManager.mk_project 1 "app" "/home/u/proj" "/home/u/bk" "" ""
           (Some Samples.now2) Samples.now1]
    ∧ Fs.extends Samples.fs_project (CodeKeeperGUI.disk l).
Proof.
  destruct (CodeKeeperGUI.create_backup 5 Samples.now1 Samples.now2 false
              (Some 1) Samples.fs_project
              (ProjectManager.after
                 [ProjectManager.AddProject Samples.now1 "app" "/home/u/proj"
                    "/home/u/bk" "" ""])) as [l|] eqn:Hrun;
    [| by vm_compute in Hrun].
  exists l. split; [done |].
  split; [by vm_compute in Hrun; injection Hrun as <- |].
  split; [by vm_compute in Hrun; injection Hrun as <- |].
  apply (create_backup_dates_only_a_finished_backup _ _ _ _ _ _ _ _ Hrun).
Defined.

(** A deployment that finds its destination with entries in it and is
    told no raises the refusal and changes nothing. *)
Lemma declined_deploy_raises (fuel : nat) (now : Datetime.t) (fs : Fs.t)
    (source destination excl : string) (cb : bool) :
  questions fs destination "runtime" = 1 →
  copy_directory fuel now false fs source destination excl cb "runtime"
  = Some (Raise (Exception declined_message), fs, [EvAsk]).
Proof.
  unfold questions, copy_directory, prepare.
  cbn [String.eqb Ascii.eqb Bool.eqb].
  destruct (Fs.exists_ fs destination); [| done].
  by destruct (Fs.listdir fs destination) as [[|x l] | e].
Qed.

(** X18: a deployment started from the window never writes to the
    database. Without a runtime path it warns and does nothing. When
    the destination has entries and the user says no, it shows
    "Abgebrochen" and not an error, and the file system is as before.
    "Abgebrochen" is shown for the refusal and otherwise only for an
    [OSError] whose text happens to hold that word. *)
Theorem deploy_to_runtime_reports_a_refusal_as_cancelled
    (oserror_text : oserror → string → string) (fuel : nat)
    (now : Datetime.t) (decision : bool) (selection : option nat)
    (fs : Fs.t) (db : ProjectManager.t) (l : CodeKeeperGUI.left)
    (project : ProjectManager.project) :
  CodeKeeperGUI.get_selected_project selection db = Some project →
  CodeKeeperGUI.deploy_to_runtime oserror_text fuel now decision selection
    fs db = Some l →
  CodeKeeperGUI.database l = db
  ∧ (ProjectManager.runtime_path project = "" →
     CodeKeeperGUI.shown l = CodeKeeperGUI.Showwarning "Warnung"
     ∧ CodeKeeperGUI.disk l = fs ∧ CodeKeeperGUI.seen l = [])
  ∧ (ProjectManager.runtime_path project ≠ "" →
     questions fs (ProjectManager.runtime_path project) "runtime" = 1 →
     decision = false →
     CodeKeeperGUI.shown l = CodeKeeperGUI.Showinfo "Abgebrochen"
     ∧ CodeKeeperGUI.disk l = fs ∧ CodeKeeperGUI.seen l = [EvAsk])
  ∧ (CodeKeeperGUI.shown l = CodeKeeperGUI.Showinfo "Abgebrochen" →
     ∃ e tr,
       copy_directory fuel now decision fs
         (ProjectManager.source_path project)
         (ProjectManager.runtime_path project)
         (ProjectManager.exclude_patterns project) true "runtime"
       = Some (Raise e, CodeKeeperGUI.disk l, tr)
       ∧ ((e = Exception declined_message ∧ decision = false
           ∧ CodeKeeperGUI.disk l = fs)
          ∨ ∃ kind path,
              e = OSError kind path
              ∧ CodeKeeperGUI.contains "abgebrochen"
                  (lower (oserror_text kind path)) = true)).
Proof.
  intros Hsel. unfold CodeKeeperGUI.deploy_to_runtime. rewrite Hsel.
  unfold truthy.
  destruct (String.eqb_spec (ProjectManager.runtime_path project) "")
    as [Hrt | Hrt]; cbn [negb].
  { intros [= <-]. cbn. by split_and!. }
  destruct (copy_directory _ _ _ _ _ _ _ _ _) as [[[[[n d] | e] fs'] tr]|]
    eqn:Hrun; [| | done].
  - intros [= <-]. cbn. split_and!; [done | done | | done].
    intros _ Hq ->. rewrite declined_deploy_raises in Hrun by done. done.
  - intros [= <-]. cbn. split_and!; [done | done | |].
    + intros _ Hq ->. rewrite declined_deploy_raises in Hrun by done.
      by injection Hrun as <- <- <-.
    + intros Hshown. exists e, tr. split; [done |].
      destruct e as [msg | kind path].
      * left. apply copy_directory_raises_Exception in Hrun.
        destruct Hrun as (-> & -> & _ & -> & _). done.
      * right. exists kind, path. split; [done |]. cbn [CodeKeeperGUI.str_exn].
        cbn [CodeKeeperGUI.str_exn] in Hshown.
        by destruct (CodeKeeperGUI.contains _ _).
Qed.

Lemma deploy_to_runtime_reports_a_refusal_as_cancelled_witness :
  ∃ l,
    CodeKeeperGUI.deploy_to_runtime (λ _ path, path) 5 Samples.now1 false
      (Some 1) Samples.fs_runtime
      (ProjectManager.after
         [ProjectManager.AddProject Samples.now1 "app" "/home/u/proj"
            "/home/u/bk" "/home/u/run" ""]) = Some l
    ∧ CodeKeeperGUI.shown l = CodeKeeperGUI.Showinfo "Abgebrochen"
    ∧ CodeKeeperGUI.disk l = Samples.fs_runtime
    ∧ CodeKeeperGUI.seen l = [EvAsk].
Proof.
  destruct (CodeKeeperGUI.deploy_to_runtime (λ _ path, path) 5 Samples.now1
              false (Some 1) Samples.fs_runtime
              (ProjectManager.after
                 [ProjectManager.AddProject Samples.now1 "app" "/home/u/proj"
                    "/home/u/bk" "/home/u/run" ""])) as [l|] eqn:Hrun;
    [| by vm_compute in Hrun].
  exists l. split; [done |].
  refine (proj1 (proj2 (proj2
            (deploy_to_runtime_reports_a_refusal_as_cancelled _ _ _ _ _ _ _ l
               (ProjectManager.mk_project 1 "app" "/home/u/proj" "/home/u/bk"
                  "/home/u/run" "" None Samples.now1) _ Hrun))) _ _ _).
  - reflexivity.
  - done.
  - reflexivity.
  - reflexivity.
Defined.
